(** * Enhanced-context retrieval, priority context, ignore rules and
      feature flags of the Cody extension: a shallow embedding.

    The definitions follow the TypeScript sources function by function:
    - [fuseContext], [getPriorityContext], [needsReadmeContext],
      [getEnhancedContextFused] ... from the chat context module;
    - [IgnoreHelper] from the ignore helper of the shared library;
    - [FeatureFlagProvider] from the experimentation module.

    Conventions.
    - A JavaScript string is modelled by [string]; one [ascii] stands for
      one UTF-16 code unit in the range 0..255, so [String.length] is the
      [.length] of the source.
    - A JavaScript [number] holding a count is a [Z]; the character budget
      [maxChars] is a rational [Q], and [maxChars * 0.8] is the exact
      product (NaN, infinities and rounding are outside the model; see
      [maxKeywordChars] for where the exact product and the product of
      doubles agree).
    - A promise is modelled by its outcome ([Resolved] or [Rejected]). *)

From Stdlib Require Import ZArith QArith Qround List String Ascii Lia Lqa Bool.
From stdpp Require Import base option list strings gmap.
Import ListNotations.

Local Open Scope string_scope.
Local Open Scope list_scope.
Local Open Scope Z_scope.

(** ** Data model *)

Inductive ContextSource : Type :=
  | SourceEditor | SourceSelection | SourceSearch | SourceEmbeddings | SourceUnified.

Record Position : Type := mkPosition { line : Z; character : Z }.

Record Range : Type := mkRange { range_start : Position; range_end : Position }.

(** The components of a [vscode-uri] URI that the sources read. *)
Record URI : Type := mkURI { scheme : string; authority : string; path : string }.

(** [ContextItem] of the prompt builder: the fields the sources write. *)
Record ContextItem : Type := mkContextItem {
  text : string;
  uri : URI;
  range : option Range;
  source : option ContextSource;
  repoName : option string;
  title : option string;
  revision : option string
}.

(** [item.text.length] *)
Definition textLength (item : ContextItem) : Z := Z.of_nat (String.length (text item)).

(** Total character count of a list of items. *)
Definition totalChars (items : list ContextItem) : Z :=
  fold_right (fun item acc => textLength item + acc) 0 items.

(** ** Context fusion *)

Module Fusion.

(** The state of the two loops of [fuseContext]: [charsUsed] and [fused]. *)
Definition FuseState : Type := (Z * list ContextItem)%type.

(** One iteration of either loop:
    [if (charsUsed + len <= cap) { charsUsed += len; fused.push(item) }]. *)
Definition fuseStep (cap : Q) (st : FuseState) (item : ContextItem) : FuseState :=
  let '(charsUsed, fused) := st in
  let len := textLength item in
  if Qle_bool (inject_Z (charsUsed + len)) cap
  then (charsUsed + len, fused ++ [item])
  else (charsUsed, fused).

(** [embeddingsItems.length > 0 ? maxChars * 0.8 : maxChars]

    The source multiplies doubles; the product here is the exact one. The
    cap is only ever compared with whole numbers, [charsUsed + len], and
    for a whole-number budget from 0 to [2 ^ 50] both products admit the
    same whole numbers: [0.8] as a double is [(2 ^ 54 + 1) / (5 * 2 ^ 52)],
    so the double product lies within [0.05 + 2 ^ -4] above the exact one,
    and never below the whole number under it, while the exact product is
    a whole number or at least [0.2] away from the next one. For a budget
    that is not whole the two can differ: at the double
    [3.7499999999999996] the double product is exactly [3], the exact one
    is below [3]. *)
Definition maxKeywordChars (embeddingsItems : list ContextItem) (maxChars : Q) : Q :=
  if (0 <? Z.of_nat (length embeddingsItems)) then (maxChars * 0.8)%Q else maxChars.

(** State after the loop over the keyword items. *)
Definition afterKeyword (keywordItems embeddingsItems : list ContextItem)
    (maxChars : Q) : FuseState :=
  fold_left (fuseStep (maxKeywordChars embeddingsItems maxChars)) keywordItems (0, []).

Definition fuseContext (keywordItems embeddingsItems : list ContextItem)
    (maxChars : Q) : list ContextItem :=
  let st := afterKeyword keywordItems embeddingsItems maxChars in
  snd (fold_left (fuseStep maxChars) embeddingsItems st).

(** The items of the result that the first loop pushed (drawn from the
    keyword items), and those that the second loop pushed. *)
Definition keywordPortion (keywordItems embeddingsItems : list ContextItem)
    (maxChars : Q) : list ContextItem :=
  snd (afterKeyword keywordItems embeddingsItems maxChars).

Definition embeddingsPortion (keywordItems embeddingsItems : list ContextItem)
    (maxChars : Q) : list ContextItem :=
  let st := afterKeyword keywordItems embeddingsItems maxChars in
  snd (fold_left (fuseStep maxChars) embeddingsItems (fst st, [])).

(** Greedy first-fit as the specification words it: walk the items in
    order with a running count; take an item, whole, exactly when the count
    plus its length stays within the cap; otherwise skip it and go on. *)
Fixpoint firstFit (cap : Q) (used : Z) (items : list ContextItem)
    : list ContextItem * Z :=
  match items with
  | [] => ([], used)
  | item :: rest =>
      if Qle_bool (inject_Z (used + textLength item)) cap
      then let '(taken, used') := firstFit cap (used + textLength item) rest in
           (item :: taken, used')
      else firstFit cap used rest
  end.

(** [item.text.length === 0] *)
Definition isEmptyText (item : ContextItem) : bool := textLength item =? 0.

End Fusion.

(** ** Sample values used by the examples *)

(** ['a'.repeat(n)] for a one-character string. *)
Fixpoint repeatChar (c : ascii) (n : nat) : string :=
  match n with
  | O => EmptyString
  | S n' => String c (repeatChar c n')
  end.

Definition fileURI (p : string) : URI := mkURI "file" EmptyString p.

(** An item as [searchSymf] builds it: [{ uri, range, source: 'search', text }]. *)
Definition searchItem (p : string) (t : string) : ContextItem :=
  mkContextItem t (fileURI p) None (Some SourceSearch) None None None.

(** An item as [searchEmbeddingsLocal] builds it. *)
Definition embeddingsItem (p : string) (t : string) : ContextItem :=
  mkContextItem t (fileURI p) None (Some SourceEmbeddings) None None None.

(** ** JavaScript strings and regular expressions

    The operations of [String.prototype] and [RegExp] that the sources
    call, on code units 0..255. *)

Module JS.

Definition code (c : ascii) : nat := nat_of_ascii c.

Definition inRange (lo hi : nat) (c : ascii) : bool :=
  (lo <=? code c)%nat && (code c <=? hi)%nat.

(** The class [\w] of a RegExp without the unicode flag: [[A-Za-z0-9_]]. *)
Definition isWordChar (c : ascii) : bool :=
  inRange 65 90 c || inRange 97 122 c || inRange 48 57 c || (code c =? 95)%nat.

(** The class [\s], which is also what [trim] strips: tab, line feed,
    vertical tab, form feed, carriage return, space, no-break space. *)
Definition isWhiteSpace (c : ascii) : bool :=
  inRange 9 13 c || (code c =? 32)%nat || (code c =? 160)%nat.

(** Upper-case letters: A-Z and the Latin-1 capitals except the
    multiplication sign. *)
Definition isUpperCase (c : ascii) : bool :=
  inRange 65 90 c || (inRange 192 222 c && negb (code c =? 215)%nat).

Definition toLowerChar (c : ascii) : ascii :=
  if isUpperCase c then ascii_of_nat (code c + 32) else c.

(** [s.toLowerCase()], [s.toLocaleLowerCase()] *)
Fixpoint toLowerCase (s : string) : string :=
  match s with
  | EmptyString => EmptyString
  | String c s' => String (toLowerChar c) (toLowerCase s')
  end.

Fixpoint trimStart (s : string) : string :=
  match s with
  | EmptyString => EmptyString
  | String c s' => if isWhiteSpace c then trimStart s' else s
  end.

Fixpoint trimEnd (s : string) : string :=
  match s with
  | EmptyString => EmptyString
  | String c s' =>
      match trimEnd s' with
      | EmptyString => if isWhiteSpace c then EmptyString else String c EmptyString
      | rest => String c rest
      end
  end.

(** [s.trim()] *)
Definition trim (s : string) : string := trimEnd (trimStart s).

(** [s.indexOf(c)] for a one-character needle; [-1] when absent. *)
Fixpoint indexOf (c : ascii) (s : string) : Z :=
  match s with
  | EmptyString => -1
  | String d s' =>
      if Ascii.eqb d c then 0
      else let i := indexOf c s' in if i =? -1 then -1 else i + 1
  end.

(** [s.slice(0, n)] for [0 <= n] *)
Definition sliceTo (s : string) (n : Z) : string := String.substring 0 (Z.to_nat n) s.

(** [s.slice(n)] for [0 <= n] *)
Fixpoint sliceFrom (s : string) (n : nat) : string :=
  match n, s with
  | O, _ => s
  | S n', String _ s' => sliceFrom s' n'
  | S _, EmptyString => EmptyString
  end.

(** [s.startsWith(p)], [s.endsWith(p)] *)
Fixpoint startsWith (s p : string) {struct p} : bool :=
  match p, s with
  | EmptyString, _ => true
  | String pc p', String sc s' => Ascii.eqb sc pc && startsWith s' p'
  | String _ _, EmptyString => false
  end.

Definition endsWith (s p : string) : bool :=
  (String.length p <=? String.length s)%nat &&
  String.eqb (sliceFrom s (String.length s - String.length p)) p.

(** [s.split(sep)] for a one-character separator: never empty; a
    separator at either end yields an empty string there. *)
Fixpoint split (sep : ascii) (s : string) : list string :=
  match s with
  | EmptyString => [EmptyString]
  | String c s' =>
      if Ascii.eqb c sep then EmptyString :: split sep s'
      else match split sep s' with
           | w :: ws => String c w :: ws
           | [] => [String c EmptyString]
           end
  end.

(** [xs.join(sep)] *)
Fixpoint join (sep : string) (xs : list string) : string :=
  match xs with
  | [] => EmptyString
  | [x] => x
  | x :: rest => x +:+ sep +:+ join sep rest
  end.

(** [xs.at(-1)] *)
Definition atLast (xs : list string) : option string := List.last (List.map Some xs) None.

(** [s.split(/\W+/)]: the head of the result is the token being read;
    [inRun] tells that the character before was already a separator. *)
Fixpoint splitNonWordFrom (inRun : bool) (s : string) : list string :=
  match s with
  | EmptyString => [EmptyString]
  | String c s' =>
      if isWordChar c then
        match splitNonWordFrom false s' with
        | w :: ws => String c w :: ws
        | [] => [String c EmptyString]
        end
      else if inRun then splitNonWordFrom true s'
      else EmptyString :: splitNonWordFrom true s'
  end.

Definition splitNonWord (s : string) : list string := splitNonWordFrom false s.

(** Every character of [s] is a word character. *)
Fixpoint allWordChars (s : string) : bool :=
  match s with
  | EmptyString => true
  | String c s' => isWordChar c && allWordChars s'
  end.

(** Regular expressions, as far as the patterns of the sources go. *)
Inductive RegExp : Type :=
  | RNever                          (* matches nothing *)
  | REmpty                          (* the empty pattern *)
  | RClass (p : ascii -> bool)      (* one character of a class *)
  | RSeq (r1 r2 : RegExp)
  | RAlt (r1 r2 : RegExp)           (* r1|r2 *)
  | RStar (r : RegExp).             (* r* *)

Definition RChar (c : ascii) : RegExp := RClass (Ascii.eqb c).

(** A literal such as [/editor/] *)
Fixpoint RLit (s : string) : RegExp :=
  match s with
  | EmptyString => REmpty
  | String c s' => RSeq (RChar c) (RLit s')
  end.

(** [r+] and [r?] *)
Definition RPlus (r : RegExp) : RegExp := RSeq r (RStar r).
Definition ROpt (r : RegExp) : RegExp := RAlt r REmpty.

Fixpoint nullable (r : RegExp) : bool :=
  match r with
  | RNever => false
  | REmpty => true
  | RClass _ => false
  | RSeq r1 r2 => nullable r1 && nullable r2
  | RAlt r1 r2 => nullable r1 || nullable r2
  | RStar _ => true
  end.

(** What is left of [r] to match once [c] has been read. *)
Fixpoint derive (c : ascii) (r : RegExp) : RegExp :=
  match r with
  | RNever => RNever
  | REmpty => RNever
  | RClass p => if p c then REmpty else RNever
  | RSeq r1 r2 =>
      if nullable r1 then RAlt (RSeq (derive c r1) r2) (derive c r2)
      else RSeq (derive c r1) r2
  | RAlt r1 r2 => RAlt (derive c r1) (derive c r2)
  | RStar r1 => RSeq (derive c r1) (RStar r1)
  end.

(** Does [r] match some prefix of [s]? *)
Fixpoint matchesPrefix (r : RegExp) (s : string) : bool :=
  nullable r ||
  match s with
  | EmptyString => false
  | String c s' => matchesPrefix (derive c r) s'
  end.

(** [s.match(r)] is not null: [r] matches at some position of [s]. *)
Fixpoint matches (r : RegExp) (s : string) : bool :=
  matchesPrefix r s ||
  match s with
  | EmptyString => false
  | String _ s' => matches r s'
  end.

(** Does [r] match the whole of [s]? *)
Fixpoint matchesWhole (r : RegExp) (s : string) : bool :=
  match s with
  | EmptyString => nullable r
  | String c s' => matchesWhole (derive c r) s'
  end.

(** The property names every plain object inherits from
    [Object.prototype]; each carries a truthy value. *)
Definition objectPrototypeKeys : list string :=
  [ "constructor"; "__defineGetter__"; "__defineSetter__"; "hasOwnProperty";
    "__lookupGetter__"; "__lookupSetter__"; "isPrototypeOf";
    "propertyIsEnumerable"; "toString"; "valueOf"; "__proto__";
    "toLocaleString" ].

Definition member (k : string) (ks : list string) : bool := existsb (String.eqb k) ks.

(** [xs.sort(compare)]: a stable sort by insertion. *)
Fixpoint insertBy {A : Type} (compare : A -> A -> Z) (x : A) (xs : list A) : list A :=
  match xs with
  | [] => [x]
  | y :: rest => if compare y x <=? 0 then y :: insertBy compare x rest else x :: xs
  end.

Definition sortBy {A : Type} (compare : A -> A -> Z) (xs : list A) : list A :=
  fold_left (fun sorted x => insertBy compare x sorted) xs [].

End JS.

(** ** Promises *)

(** What awaiting a promise gives: its value, or the thrown reason. *)
Inductive Outcome (A : Type) : Type :=
  | Resolved (value : A)
  | Rejected (reason : string).
Arguments Resolved {A} value.
Arguments Rejected {A} reason.

(** [await p] followed by the rest of an async function. *)
Definition andThen {A B : Type} (p : Outcome A) (k : A -> Outcome B) : Outcome B :=
  match p with
  | Resolved a => k a
  | Rejected reason => Rejected reason
  end.

Notation "'await' x <- p ;; k" := (andThen p (fun x => k))
  (at level 10, x name, p at level 99, k at level 200, only parsing).

(** [Promise.all] over a list of promises, the values in order. *)
Fixpoint promiseAll {A : Type} (ps : list (Outcome A)) : Outcome (list A) :=
  match ps with
  | [] => Resolved []
  | p :: rest =>
      await a <- p ;;
      await others <- promiseAll rest ;;
      Resolved (a :: others)
  end.

(** ** The editor, as the context module sees it *)

Record ActiveTextEditorSelection : Type := mkSelection {
  selectedText : string;
  selectionFileUri : URI;
  selectionRange : option Range
}.

Record ActiveTextEditorVisibleContent : Type := mkVisibleContent {
  content : string;
  visibleFileUri : option URI
}.

Record VSCodeEditor : Type := mkEditor {
  getWorkspaceRootUri : option URI;
  getActiveTextEditorSelection : option ActiveTextEditorSelection;
  getActiveTextEditorVisibleContent : option ActiveTextEditorVisibleContent;
  getTextEditorContentForFile : URI -> Range -> Outcome (option string)
}.

(** The calls into [vscode.workspace] that [getReadmeContext] makes. *)
Record Workspace : Type := mkWorkspace {
  findFiles : string -> Z -> Outcome (list URI);
  openTextDocument : URI -> Outcome string
}.

(** Modelled from the spec: [uri.toString()] of [vscode-uri], which is not
    part of these sources, for a URI whose components need no percent
    encoding: scheme, [://], authority, path. *)
Definition uriToString (u : URI) : string :=
  scheme u +:+ "://" +:+ authority u +:+ path u.

(** Modelled from the spec: [uriBasename] of the shared library, which is
    not part of these sources: the last segment of the path that is not
    empty (a trailing slash is ignored). *)
Definition uriBasename (u : URI) : string :=
  List.last (List.filter (fun w => negb (String.eqb w EmptyString)) (JS.split "/" (path u)))
            EmptyString.

(** ** Priority context *)

Module Priority.
Import JS.

(** [userAttentionRegexps]:
    [/editor/], [/(open|current|this|entire)\s+file/],
    [/current(ly)?\s+open/], [/have\s+open/]. *)
Definition userAttentionRegexps : list RegExp :=
  [ RLit "editor";
    RSeq (RAlt (RLit "open") (RAlt (RLit "current") (RAlt (RLit "this") (RLit "entire"))))
         (RSeq (RPlus (RClass isWhiteSpace)) (RLit "file"));
    RSeq (RLit "current")
         (RSeq (ROpt (RLit "ly")) (RSeq (RPlus (RClass isWhiteSpace)) (RLit "open")));
    RSeq (RLit "have") (RSeq (RPlus (RClass isWhiteSpace)) (RLit "open")) ].

Definition getCurrentSelectionContext (editor : VSCodeEditor) : list ContextItem :=
  match getActiveTextEditorSelection editor with
  | None => []
  | Some selection =>
      if String.eqb (selectedText selection) EmptyString then []
      else
        let range :=
          match selectionRange selection with
          | Some r =>
              Some (mkRange (mkPosition (line (range_start r)) (character (range_start r)))
                            (mkPosition (line (range_end r)) (character (range_end r))))
          | None => None
          end in
        [ mkContextItem (selectedText selection) (selectionFileUri selection) range
                        (Some SourceSelection) None None None ]
  end.

Definition getVisibleEditorContext (editor : VSCodeEditor) : list ContextItem :=
  match getActiveTextEditorVisibleContent editor with
  | None => []
  | Some visible =>
      match visibleFileUri visible with
      | None => []
      | Some fileUri =>
          if String.eqb (trim (content visible)) EmptyString then []
          else [ mkContextItem (content visible) fileUri None (Some SourceEditor)
                               None None None ]
      end
  end.

Definition needsUserAttentionContext (input : string) : bool :=
  let inputLowerCase := toLowerCase input in
  existsb (fun regexp => matches regexp inputLowerCase) userAttentionRegexps.

Definition extractQuestion (input : string) : option string :=
  let input := trim input in
  let q := indexOf "?" input in
  if negb (q =? -1) then Some (trim (sliceTo input (q + 1)))
  else if Z.of_nat (String.length input) <? 100 then Some input
  else None.

(** [bagOfWords[p]] is truthy: [p] is one of the words, or a property
    that the object literal inherits. *)
Definition bagHas (bagOfWords : list string) (p : string) : bool :=
  member p bagOfWords || member p objectPrototypeKeys.

Definition projectSignifiers : list string :=
  [ "project"; "repository"; "repo"; "library"; "package"; "module"; "codebase" ].

Definition questionIndicators : list string :=
  [ "what"; "how"; "describe"; "explain"; "?" ].

(** The words of the input: [input.split(/\W+/).filter(w => w.length > 0)]. *)
Definition wordsOf (input : string) : list string :=
  List.filter (fun w => (0 <? String.length w)%nat) (splitNonWord input).

(** The signifier that the workspace root adds, if any. *)
Definition rootSignifier (editor : VSCodeEditor) : list string :=
  match getWorkspaceRootUri editor with
  | None => []
  | Some workspaceUri =>
      match atLast (split "/" (uriToString workspaceUri)) with
      | None => []
      | Some rootBase =>
          if String.eqb rootBase EmptyString then [] else [toLowerCase rootBase]
      end
  end.

Definition needsReadmeContext (editor : VSCodeEditor) (input : string) : bool :=
  let input := toLowerCase input in
  match extractQuestion input with
  | None => false
  | Some question =>
      if String.eqb question EmptyString then false
      else
        let bagOfWords := wordsOf input in
        let signifiers := projectSignifiers ++ rootSignifier editor in
        let containsProjectSignifier := existsb (bagHas bagOfWords) signifiers in
        let containsQuestionIndicator := existsb (bagHas bagOfWords) questionIndicators in
        containsQuestionIndicator && containsProjectSignifier
  end.

Section Readme.

(** From the shared library and the chat helpers, not part of these
    sources: the size limit, the truncation at a line boundary and the
    conversion of the range it reports. *)
Variable ViewRange : Type.
Variable MAX_BYTES_PER_FILE : Z.
Variable truncateTextNearestLine : string -> Z -> string * ViewRange.
Variable viewRangeToRange : ViewRange -> Range.

Variable workspace : Workspace.

Definition readmeGlobalPattern : string := "{README,README.,readme.,Readm.}*".

Definition getReadmeContext : Outcome (list ContextItem) :=
  await found <- findFiles workspace readmeGlobalPattern 1 ;;
  match found with
  | [] => Resolved []
  | readmeUri :: _ =>
      if String.eqb (path readmeUri) EmptyString then Resolved []
      else
        await readmeText <- openTextDocument workspace readmeUri ;;
        let '(truncatedReadmeText, range) :=
          truncateTextNearestLine readmeText MAX_BYTES_PER_FILE in
        if (String.length truncatedReadmeText =? 0)%nat then Resolved []
        else Resolved [ mkContextItem truncatedReadmeText readmeUri
                                      (Some (viewRangeToRange range))
                                      (Some SourceEditor) None None None ]
  end.

(** The loop over [retrievedContext] that sets [containsREADME]. *)
Definition containsREADME (retrievedContext : list ContextItem) : bool :=
  existsb (fun contextItem =>
             let basename := uriBasename (uri contextItem) in
             String.eqb (toLowerCase basename) "readme" ||
             startsWith (toLowerCase basename) "readme.")
          retrievedContext.

Definition getPriorityContext (text : string) (editor : VSCodeEditor)
    (retrievedContext : list ContextItem) : Outcome (list ContextItem) :=
  let selectionContext := getCurrentSelectionContext editor in
  if (0 <? Z.of_nat (length selectionContext)) then
    Resolved ([] ++ selectionContext)
  else if needsUserAttentionContext text then
    Resolved ([] ++ getVisibleEditorContext editor)
  else if needsReadmeContext editor text then
    if negb (containsREADME retrievedContext) then
      await readme <- getReadmeContext ;;
      Resolved ([] ++ readme)
    else Resolved []
  else Resolved [].

End Readme.

End Priority.

(** ** A sample editor and workspace used by the examples *)

Module Sample.

Definition root : URI := fileURI "/home/me/myrepo".

Definition readmeUri : URI := fileURI "/home/me/myrepo/README.md".

(** A workspace with one README. *)
Definition workspace : Workspace :=
  mkWorkspace (fun _ _ => Resolved [readmeUri]) (fun _ => Resolved "# myrepo").

(** A truncation that keeps short texts whole. *)
Definition truncate (t : string) (maxBytes : Z) : string * unit := (t, tt).

Definition wholeFile (_ : unit) : Range := mkRange (mkPosition 0 0) (mkPosition 1 0).

Definition selection : ActiveTextEditorSelection :=
  mkSelection "let x = 1" (fileURI "/home/me/myrepo/a.ts")
              (Some (mkRange (mkPosition 3 0) (mkPosition 3 9))).

Definition visible : ActiveTextEditorVisibleContent :=
  mkVisibleContent "let x = 1; let y = 2" (Some (fileURI "/home/me/myrepo/a.ts")).

(** An editor with a selection, and one with none. *)
Definition editorSelecting : VSCodeEditor :=
  mkEditor (Some root) (Some selection) (Some visible) (fun _ _ => Resolved None).

Definition editorIdle : VSCodeEditor :=
  mkEditor (Some root) None (Some visible) (fun _ _ => Resolved None).

Definition priority : string -> VSCodeEditor -> list ContextItem -> Outcome (list ContextItem) :=
  Priority.getPriorityContext unit 4096 truncate wholeFile workspace.

End Sample.

(** ** Context providers and the fused retrieval *)

(** Modelled from the spec: the strategy [ConfigurationUseContext], whose
    declaration is not part of these sources: [none], [embeddings],
    [keyword], or the unrestricted mode. *)
Inductive ConfigurationUseContext : Type :=
  | StrategyNone | StrategyEmbeddings | StrategyKeyword | StrategyAuto.

Definition isStrategyNone (s : ConfigurationUseContext) : bool :=
  match s with StrategyNone => true | _ => false end.

Definition isStrategyKeyword (s : ConfigurationUseContext) : bool :=
  match s with StrategyKeyword => true | _ => false end.

Definition isStrategyEmbeddings (s : ConfigurationUseContext) : bool :=
  match s with StrategyEmbeddings => true | _ => false end.

(** One result of the local embeddings index. *)
Record EmbeddingsSearchResult : Type := mkEmbeddingsSearchResult {
  embUri : URI; embStartLine : Z; embEndLine : Z; embContent : string
}.

Record LocalEmbeddingsController : Type := mkLocalEmbeddings {
  getContext : string -> Z -> Outcome (list EmbeddingsSearchResult)
}.

Record Point : Type := mkPoint { row : Z; col : Z }.

(** One result of symf: [{ file, range: { startPoint, endPoint } }]. *)
Record SymfResult : Type := mkSymfResult {
  file : URI; startPoint : Point; endPoint : Point
}.

(** [getResults] resolves to one promise of results per scope.
    [ensureIndex] is called and not awaited; it does not bear on the result. *)
Record SymfRunner : Type := mkSymfRunner {
  getIndexStatus : URI -> Outcome string;
  getResults : string -> list URI -> Outcome (list (Outcome (list SymfResult)))
}.

(** One result of the remote search. *)
Record RemoteSearchResult : Type := mkRemoteSearchResult {
  remContent : string; remStartLine : Z; remEndLine : Z; remUri : URI;
  remRepoName : string; remPath : string; remCommit : string
}.

Record RemoteSearch : Type := mkRemoteSearch {
  query : string -> Outcome (list RemoteSearchResult)
}.

Record Providers : Type := mkProviders {
  localEmbeddings : option LocalEmbeddingsController;
  symf : option SymfRunner;
  remoteSearch : option RemoteSearch
}.

Module Retrieval.
Import JS Priority Fusion.

(** Modelled from the spec: [isFileURI] of the shared library, which is
    not part of these sources: the URI is on the local-file scheme. *)
Definition isFileURI (u : URI) : bool := String.eqb (scheme u) "file".

(** [try { return await promise } catch (error) { return [] }] *)
Definition retrieveContextGracefully {T : Type} (promise : Outcome (list T))
    : Outcome (list T) :=
  match promise with
  | Resolved items => Resolved items
  | Rejected _ => Resolved []
  end.

Definition searchRemote (remoteSearch : option RemoteSearch) (userText : string)
    : Outcome (list ContextItem) :=
  match remoteSearch with
  | None => Resolved []
  | Some remote =>
      await results <- query remote userText ;;
      Resolved (List.map (fun result =>
                  mkContextItem (remContent result) (remUri result)
                    (Some (mkRange (mkPosition (remStartLine result) 0)
                                   (mkPosition (remEndLine result) 0)))
                    (Some SourceUnified) (Some (remRepoName result))
                    (Some (remPath result)) (Some (remCommit result)))
                results)
  end.

Section Host.

(** Constants and environment that these sources import or read. *)
Variable NUM_CODE_RESULTS NUM_TEXT_RESULTS : Z.
Variable isAgentTesting : bool.
Variable localeCompare : string -> string -> Z.
Variable ViewRange : Type.
Variable MAX_BYTES_PER_FILE : Z.
Variable truncateTextNearestLine : string -> Z -> string * ViewRange.
Variable viewRangeToRange : ViewRange -> Range.
Variable workspace : Workspace.

(** The callback of the inner [flatMap] of [searchSymf]: the text of one
    result, as no item when it is empty or cannot be read. *)
Definition symfResultItem (editor : VSCodeEditor) (result : SymfResult)
    : Outcome (list ContextItem) :=
  let range := mkRange (mkPosition (row (startPoint result)) (col (startPoint result)))
                       (mkPosition (row (endPoint result)) (col (endPoint result))) in
  match getTextEditorContentForFile editor (file result) range with
  | Resolved (Some text) =>
      if String.eqb text EmptyString then Resolved []
      else Resolved [ mkContextItem text (file result) (Some range)
                                    (Some SourceSearch) None None None ]
  | Resolved None => Resolved []
  | Rejected _ => Resolved []
  end.

(** The comparison of the deterministic mode: by path, then by text. *)
Definition compareForTests (a b : ContextItem) : Z :=
  let byUri := localeCompare (path (uri a)) (path (uri b)) in
  if negb (byUri =? 0) then byUri else localeCompare (text a) (text b).

Definition searchSymf (symf : option SymfRunner) (editor : VSCodeEditor)
    (userText : string) (blockOnIndex : bool) : Outcome (list ContextItem) :=
  match symf with
  | None => Resolved []
  | Some runner =>
      match getWorkspaceRootUri editor with
      | None => Resolved []
      | Some workspaceRoot =>
          if negb (isFileURI workspaceRoot) then Resolved []
          else
            await indexExists <- getIndexStatus runner workspaceRoot ;;
            if negb (String.eqb indexExists "ready") && negb blockOnIndex
            then Resolved []
            else
              await scopes <- getResults runner userText [workspaceRoot] ;;
              let r0 :=
                List.map (fun results =>
                            await found <- results ;;
                            await items <- promiseAll (List.map (symfResultItem editor) found) ;;
                            Resolved (List.concat items))
                         scopes in
              await nested <- promiseAll r0 ;;
              let allResults := List.concat nested in
              Resolved (if isAgentTesting then sortBy compareForTests allResults
                        else allResults)
      end
  end.

Definition searchEmbeddingsLocal (localEmbeddings : option LocalEmbeddingsController)
    (text : string) : Outcome (list ContextItem) :=
  match localEmbeddings with
  | None => Resolved []
  | Some controller =>
      await embeddingsResults <-
        getContext controller text (NUM_CODE_RESULTS + NUM_TEXT_RESULTS) ;;
      Resolved (List.map (fun result =>
                  mkContextItem (embContent result) (embUri result)
                    (Some (mkRange (mkPosition (embStartLine result) 0)
                                   (mkPosition (embEndLine result) 0)))
                    (Some SourceEmbeddings) None None None)
                embeddingsResults)
  end.

Definition isSome {A : Type} (o : option A) : bool :=
  match o with Some _ => true | None => false end.

Definition getEnhancedContextFused (strategy : ConfigurationUseContext)
    (editor : VSCodeEditor) (text : string) (providers : Providers) (maxChars : Q)
    : Outcome (list ContextItem) :=
  if isStrategyNone strategy then Resolved (getVisibleEditorContext editor)
  else
    let embeddingsContextItemsPromise :=
      if negb (isStrategyKeyword strategy)
      then retrieveContextGracefully (searchEmbeddingsLocal (localEmbeddings providers) text)
      else Resolved [] in
    let localSearchContextItemsPromise :=
      if isSome (symf providers) && negb (isStrategyEmbeddings strategy)
      then retrieveContextGracefully (searchSymf (symf providers) editor text false)
      else Resolved [] in
    await remoteSearchContextItems <-
      (if isSome (remoteSearch providers) && negb (isStrategyEmbeddings strategy)
       then retrieveContextGracefully (searchRemote (remoteSearch providers) text)
       else Resolved []) ;;
    let keywordContextItemsPromise :=
      await localItems <- localSearchContextItemsPromise ;;
      Resolved (localItems ++ remoteSearchContextItems) in
    await embeddingsContextItems <- embeddingsContextItemsPromise ;;
    await keywordContextItems <- keywordContextItemsPromise ;;
    let fusedContext := fuseContext keywordContextItems embeddingsContextItems maxChars in
    await priorityContext <-
      getPriorityContext ViewRange MAX_BYTES_PER_FILE truncateTextNearestLine
                         viewRangeToRange workspace text editor fusedContext ;;
    Resolved (priorityContext ++ fusedContext).

(** What a provider contributes: its items when its query succeeded,
    nothing when it failed. *)
Definition succeeded (promise : Outcome (list ContextItem)) : list ContextItem :=
  match promise with
  | Resolved items => items
  | Rejected _ => []
  end.

(** The fusion of what the providers that take part under the strategy
    returned, a failed provider counting for an empty list. *)
Definition fusedOfSucceeded (strategy : ConfigurationUseContext)
    (editor : VSCodeEditor) (text : string) (providers : Providers) (maxChars : Q)
    : list ContextItem :=
  let embeddings :=
    if isStrategyKeyword strategy then []
    else succeeded (searchEmbeddingsLocal (localEmbeddings providers) text) in
  let localSearch :=
    if isStrategyEmbeddings strategy then []
    else succeeded (searchSymf (symf providers) editor text false) in
  let remote :=
    if isStrategyEmbeddings strategy then []
    else succeeded (searchRemote (remoteSearch providers) text) in
  fuseContext (localSearch ++ remote) embeddings maxChars.

End Host.

End Retrieval.

(** ** Sample providers used by the examples *)

Module SampleProviders.

(** An embeddings index whose query fails. *)
Definition failingEmbeddings : LocalEmbeddingsController :=
  mkLocalEmbeddings (fun _ _ => Rejected "embeddings: index unavailable").

(** A remote search whose query fails. *)
Definition failingRemote : RemoteSearch :=
  mkRemoteSearch (fun _ => Rejected "remote search: network error").

(** A symf index that is ready and finds one range in one file. *)
Definition workingSymf : SymfRunner :=
  mkSymfRunner
    (fun _ => Resolved "ready")
    (fun _ _ => Resolved [ Resolved [ mkSymfResult (fileURI "/home/me/myrepo/a.ts")
                                                   (mkPoint 0 0) (mkPoint 1 0) ] ]).

(** An editor with no selection that can read the file symf points at. *)
Definition editor : VSCodeEditor :=
  mkEditor (Some Sample.root) None None (fun _ _ => Resolved (Some "let x = 1")).

Definition providers : Providers :=
  mkProviders (Some failingEmbeddings) (Some workingSymf) (Some failingRemote).

Definition compareCodes (a b : string) : Z :=
  match String.compare a b with Lt => -1 | Eq => 0 | Gt => 1 end.

Definition fusedQuery
    : ConfigurationUseContext -> VSCodeEditor -> string -> Providers -> Q ->
      Outcome (list ContextItem) :=
  Retrieval.getEnhancedContextFused 12 3 false compareCodes unit 4096
    Sample.truncate Sample.wholeFile Sample.workspace.

End SampleProviders.

(** ** Feature flags *)

Module Flags.
Import JS.

Inductive FeatureFlag : Type :=
  | TestFlagDoNotUse
  | CodyAutocompleteTracing
  | CodyAutocompleteStarCoderHybrid
  | CodyAutocompleteStarCoder16B
  | CodyAutocompleteContextBfgMixed
  | CodyAutocompleteContextNewJaccardSimilarity
  | CodyAutocompleteUserLatency
  | CodyAutocompleteDynamicMultilineCompletions
  | CodyAutocompleteHotStreak
  | CodyAutocompleteFastPath
  | CodyAutocompleteSingleMultilineRequest
  | CodyProJetBrains
  | UseSscForCodySubscription
  | CodyProTrialEnded
  | CodyChatMockTest.

(** The string value of each member of the enum. *)
Definition flagString (flag : FeatureFlag) : string :=
  match flag with
  | TestFlagDoNotUse => "test-flag-do-not-use"
  | CodyAutocompleteTracing => "cody-autocomplete-tracing"
  | CodyAutocompleteStarCoderHybrid => "cody-autocomplete-default-starcoder-hybrid"
  | CodyAutocompleteStarCoder16B => "cody-autocomplete-default-starcoder-16b"
  | CodyAutocompleteContextBfgMixed => "cody-autocomplete-context-bfg-mixed"
  | CodyAutocompleteContextNewJaccardSimilarity => "cody-autocomplete-new-jaccard-similarity"
  | CodyAutocompleteUserLatency => "cody-autocomplete-user-latency"
  | CodyAutocompleteDynamicMultilineCompletions =>
      "cody-autocomplete-dynamic-multiline-completions"
  | CodyAutocompleteHotStreak => "cody-autocomplete-hot-streak"
  | CodyAutocompleteFastPath => "cody-autocomplete-fast-path"
  | CodyAutocompleteSingleMultilineRequest => "cody-autocomplete-single-multiline-request"
  | CodyProJetBrains => "cody-pro-jetbrains"
  | UseSscForCodySubscription => "use-ssc-for-cody-subscription"
  | CodyProTrialEnded => "cody-pro-trial-ended"
  | CodyChatMockTest => "cody-chat-mock-test"
  end.

Definition ONE_HOUR : Z := 60 * 60 * 1000.

(** A [Record<string, boolean>]: the properties in insertion order, each
    name once. (Names are flag names and endpoints are URLs: none is an
    array index or a property of [Object.prototype].) *)
Definition FlagRecord : Type := list (string * bool).

(** [record[name]] *)
Fixpoint recordGet (name : string) (record : FlagRecord) : option bool :=
  match record with
  | [] => None
  | (k, v) :: rest => if String.eqb k name then Some v else recordGet name rest
  end.

(** [record[name] = value]: in place when the property exists, at the
    end otherwise. *)
Fixpoint recordSet (name : string) (value : bool) (record : FlagRecord) : FlagRecord :=
  match record with
  | [] => [(name, value)]
  | (k, v) :: rest =>
      if String.eqb k name then (k, value) :: rest
      else (k, v) :: recordSet name value rest
  end.

(** A callback, known by its identity; calling it is recorded in the log
    of the state. Callbacks do not call back into the provider. *)
Definition Callback : Type := nat.

(** A [Set] of callbacks, in insertion order. *)
Definition setAdd (cb : Callback) (cbs : list Callback) : list Callback :=
  if existsb (Nat.eqb cb) cbs then cbs else cbs ++ [cb].

Definition setDelete (cb : Callback) (cbs : list Callback) : list Callback :=
  List.filter (fun c => negb (Nat.eqb c cb)) cbs.

(** A subscription object [{ lastSnapshot, callbacks }]. *)
Record Subscription : Type := mkSubscription {
  lastSnapshot : string;
  callbacks : list Callback
}.

(** A reference to a subscription object: its index in the heap. *)
Definition Ref : Type := nat.

(** The [Map] of subscriptions: keys in insertion order, each key once,
    every value a reference. *)
Definition SubscriptionMap : Type := list (string * Ref).

Fixpoint mapGet (key : string) (m : SubscriptionMap) : option Ref :=
  match m with
  | [] => None
  | (k, r) :: rest => if String.eqb k key then Some r else mapGet key rest
  end.

Fixpoint mapSet (key : string) (r : Ref) (m : SubscriptionMap) : SubscriptionMap :=
  match m with
  | [] => [(key, r)]
  | (k, r0) :: rest =>
      if String.eqb k key then (k, r) :: rest else (k, r0) :: mapSet key r rest
  end.

Definition mapDelete (key : string) (m : SubscriptionMap) : SubscriptionMap :=
  List.filter (fun entry => negb (String.eqb (fst entry) key)) m.

(** What a timer does when it fires: the timer armed by
    [onFeatureFlagChanged] first forgets its own handle, the one armed by
    [refreshFeatureFlags] only refreshes. *)
Inductive TimerAction : Type :=
  | ForgetAndRefresh
  | RefreshOnly.

Definition TimerHandle : Type := nat.

(** The provider together with the part of the host it acts on: the
    pending timers and the calls made to callbacks. *)
Record State : Type := mkState {
  featureFlags : gmap string FlagRecord;
  lastUpdated : Z;
  heap : list Subscription;
  subscriptions : SubscriptionMap;
  nextRefreshTimeout : option TimerHandle;
  pendingTimers : list (TimerHandle * TimerAction);
  nextHandle : TimerHandle;
  called : list Callback
}.

(** [new FeatureFlagProvider(apiClient)] *)
Definition initial : State := mkState ∅ 0 [] [] None [] 1%nat [].

(** [setTimeout(action, ONE_HOUR)] and [clearTimeout(handle)] *)
Definition setTimeout (action : TimerAction) (s : State) : TimerHandle * State :=
  (nextHandle s,
   mkState (featureFlags s) (lastUpdated s) (heap s) (subscriptions s)
           (nextRefreshTimeout s) (pendingTimers s ++ [(nextHandle s, action)])
           (S (nextHandle s)) (called s)).

Definition clearTimeout (handle : TimerHandle) (s : State) : State :=
  mkState (featureFlags s) (lastUpdated s) (heap s) (subscriptions s)
          (nextRefreshTimeout s)
          (List.filter (fun t => negb (Nat.eqb (fst t) handle)) (pendingTimers s))
          (nextHandle s) (called s).

Definition withTimeout (handle : option TimerHandle) (s : State) : State :=
  mkState (featureFlags s) (lastUpdated s) (heap s) (subscriptions s) handle
          (pendingTimers s) (nextHandle s) (called s).

Definition withFlags (flags : gmap string FlagRecord) (s : State) : State :=
  mkState flags (lastUpdated s) (heap s) (subscriptions s) (nextRefreshTimeout s)
          (pendingTimers s) (nextHandle s) (called s).

Definition withLastUpdated (now : Z) (s : State) : State :=
  mkState (featureFlags s) now (heap s) (subscriptions s) (nextRefreshTimeout s)
          (pendingTimers s) (nextHandle s) (called s).

Definition withHeap (h : list Subscription) (s : State) : State :=
  mkState (featureFlags s) (lastUpdated s) h (subscriptions s) (nextRefreshTimeout s)
          (pendingTimers s) (nextHandle s) (called s).

Definition withSubscriptions (m : SubscriptionMap) (s : State) : State :=
  mkState (featureFlags s) (lastUpdated s) (heap s) m (nextRefreshTimeout s)
          (pendingTimers s) (nextHandle s) (called s).

Definition call (cbs : list Callback) (s : State) : State :=
  mkState (featureFlags s) (lastUpdated s) (heap s) (subscriptions s)
          (nextRefreshTimeout s) (pendingTimers s) (nextHandle s) (called s ++ cbs).

(** Is a timer with this handle waiting to fire? *)
Definition isPending (handle : TimerHandle) (s : State) : bool :=
  existsb (fun t => Nat.eqb (fst t) handle) (pendingTimers s).

(** [JSON.stringify] of a string: quotes around, the quote, the backslash
    and the control characters escaped. *)
Definition hexDigit (n : nat) : ascii :=
  ascii_of_nat (if (n <? 10)%nat then 48 + n else 87 + n).

Definition jsonEscape (c : ascii) : string :=
  let n := code c in
  if (n =? 34)%nat then String "\" (String "034" EmptyString)
  else if (n =? 92)%nat then "\\"
  else if (n =? 8)%nat then "\b"
  else if (n =? 9)%nat then "\t"
  else if (n =? 10)%nat then "\n"
  else if (n =? 12)%nat then "\f"
  else if (n =? 13)%nat then "\r"
  else if (n <? 32)%nat then
    "\u00" +:+ String (hexDigit (n / 16)) (String (hexDigit (n mod 16)) EmptyString)
  else String c EmptyString.

Fixpoint jsonEscapeAll (s : string) : string :=
  match s with
  | EmptyString => EmptyString
  | String c s' => jsonEscape c +:+ jsonEscapeAll s'
  end.

Definition jsonString (s : string) : string :=
  String "034" (jsonEscapeAll s +:+ String "034" EmptyString).

(** [JSON.stringify] of a [Record<string, boolean>] *)
Definition jsonStringify (record : FlagRecord) : string :=
  "{" +:+ join ","
            (List.map (fun '(k, v) => jsonString k +:+ ":" +:+ (if v : bool then "true" else "false"))
                      record)
      +:+ "}".

(** [key.startsWith(prefixFilter)], the argument converted to a string:
    [undefined] reads as the text [undefined]. *)
Definition startsWithArg (key : string) (prefixFilter : option string) : bool :=
  startsWith key (match prefixFilter with Some p => p | None => "undefined" end).

Definition computeFeatureFlagSnapshot (s : State) (endpoint : string)
    (prefixFilter : option string) : string :=
  match featureFlags s !! endpoint with
  | None => EmptyString
  | Some flags =>
      let filteredFeatureFlags :=
        List.filter (fun entry => startsWithArg (fst entry) prefixFilter) flags in
      jsonStringify filteredFeatureFlags
  end.

(** [heap[r]], and [heap[r] = sub] for an object that exists. *)
Definition deref (r : Ref) (s : State) : option Subscription := heap s !! r.

Definition assign (r : Ref) (sub : Subscription) (s : State) : State :=
  withHeap (<[r := sub]> (heap s)) s.

(** One turn of the loop of [notifyFeatureFlagChanged], for the entry
    [key[0]], [key[1]] of the map. *)
Definition notifyEntry (s : State) (entry : string * Ref) : State :=
  let '(key0, r) := entry in
  match deref r s with
  | None => s
  | Some sub =>
      let endpoint := List.hd EmptyString (split "#" key0) in
      let prefixFilter := List.nth_error (split "#" key0) 1 in
      let currentSnapshot := computeFeatureFlagSnapshot s endpoint prefixFilter in
      if negb (String.eqb currentSnapshot (lastSnapshot sub)) then
        call (callbacks sub) (assign r (mkSubscription currentSnapshot (callbacks sub)) s)
      else s
  end.

Definition notifyFeatureFlagChanged (s : State) : State :=
  fold_left notifyEntry (subscriptions s) s.

(** What the remote evaluation of one flag returns: a boolean, [null], or
    an [Error] value. *)
Inductive FlagResponse : Type :=
  | FlagValue (value : bool)
  | FlagNull
  | FlagError (message : string).

(** What the remote evaluation of all flags returns. *)
Inductive FlagsResponse : Type :=
  | FlagsData (data : FlagRecord)
  | FlagsError (message : string).

(** [refreshFeatureFlags] from the point where the response [data] for
    [endpoint] has arrived, at time [now]. *)
Definition refreshFeatureFlagsResume (endpoint : string) (data : FlagsResponse)
    (now : Z) (s : State) : State :=
  let s := withFlags (<[endpoint := match data with
                                    | FlagsError _ => []
                                    | FlagsData d => d
                                    end]> (featureFlags s)) s in
  let s := withLastUpdated now s in
  let s := notifyFeatureFlagChanged s in
  let s := match nextRefreshTimeout s with
           | Some handle => withTimeout None (clearTimeout handle s)
           | None => s
           end in
  if (0 <? Z.of_nat (length (subscriptions s))) then
    let '(handle, s) := setTimeout RefreshOnly s in
    withTimeout (Some handle) s
  else s.

(** [getFromCache]: the cached value, and whether a refresh was started
    (its response is still to arrive). *)
Definition getFromCache (flagName : FeatureFlag) (endpoint : string) (now : Z)
    (s : State) : option bool * bool :=
  let refreshStarted := ONE_HOUR <? now - lastUpdated s in
  (match featureFlags s !! endpoint with
   | None => None
   | Some flags => recordGet (flagString flagName) flags
   end,
   refreshStarted).

(** [evaluateFeatureFlag] up to its [await]: an answer at once, or a
    remote evaluation to wait for. *)
Inductive Evaluation : Type :=
  | Answered (value : bool)
  | AwaitingRemote (endpoint : string).

Definition evaluateFeatureFlagStart (benchmarkDisabled : bool) (endpoint : string)
    (flagName : FeatureFlag) (now : Z) (s : State) : Evaluation :=
  if benchmarkDisabled then Answered false
  else match fst (getFromCache flagName endpoint now s) with
       | Some cachedValue => Answered cachedValue
       | None => AwaitingRemote endpoint
       end.

(** [evaluateFeatureFlag] from its [await] on: [response] is what the
    remote call gave, [s] the state at that moment. *)
Definition evaluateFeatureFlagResume (endpoint : string) (flagName : FeatureFlag)
    (response : Outcome FlagResponse) (s : State) : Outcome bool * State :=
  match response with
  | Rejected reason => (Rejected reason, s)
  | Resolved value =>
      let flags := match featureFlags s !! endpoint with
                   | None => []
                   | Some flags => flags
                   end in
      let stored := match value with
                    | FlagNull => false
                    | FlagError _ => false
                    | FlagValue b => b
                    end in
      let s := withFlags (<[endpoint := recordSet (flagString flagName) stored flags]>
                            (featureFlags s)) s in
      let s := notifyFeatureFlagChanged s in
      match featureFlags s !! endpoint with
      | Some flags' =>
          match recordGet (flagString flagName) flags' with
          | Some b => (Resolved b, s)
          | None => (Rejected "undefined", s)   (* not reached: just written *)
          end
      | None => (Rejected "TypeError", s)       (* not reached: just written *)
      end
  end.

(** [syncAuthStatus] up to the [await] inside [refreshFeatureFlags] *)
Definition syncAuthStatusStart (s : State) : State := withFlags ∅ s.

(** The function that [onFeatureFlagChanged] returns: the short one of
    the first branch, which holds the subscription object itself, or the
    long one, which looks the key up again. *)
Inductive Unsubscribe : Type :=
  | DeleteCallback (subscription : Ref) (callback : Callback)
  | Unregister (key : string) (callback : Callback).

Definition onFeatureFlagChanged (endpoint prefixFilter : string) (callback : Callback)
    (s : State) : Unsubscribe * State :=
  let key := endpoint +:+ "#" +:+ prefixFilter in
  match mapGet key (subscriptions s) with
  | Some r =>
      match deref r s with
      | Some subscription =>
          (DeleteCallback r callback,
           assign r (mkSubscription (lastSnapshot subscription)
                                    (setAdd callback (callbacks subscription))) s)
      | None => (DeleteCallback r callback, s)
      end
  | None =>
      let created :=
        mkSubscription (computeFeatureFlagSnapshot s endpoint (Some prefixFilter))
                       [callback] in
      let r := length (heap s) in
      let s := withHeap (heap s ++ [created]) s in
      let s := withSubscriptions (mapSet prefixFilter r (subscriptions s)) s in
      let s := match nextRefreshTimeout s with
               | Some _ => s
               | None =>
                   let '(handle, s) := setTimeout ForgetAndRefresh s in
                   withTimeout (Some handle) s
               end in
      (Unregister key callback, s)
  end.

(** Calling the function that [onFeatureFlagChanged] returned. *)
Definition unsubscribe (u : Unsubscribe) (s : State) : State :=
  match u with
  | DeleteCallback r callback =>
      match deref r s with
      | Some subscription =>
          assign r (mkSubscription (lastSnapshot subscription)
                                   (setDelete callback (callbacks subscription))) s
      | None => s
      end
  | Unregister key callback =>
      match mapGet key (subscriptions s) with
      | None => s
      | Some r =>
          match deref r s with
          | None => s
          | Some sub =>
              let remaining := setDelete callback (callbacks sub) in
              let s := assign r (mkSubscription (lastSnapshot sub) remaining) s in
              let s := if (length remaining =? 0)%nat
                       then withSubscriptions (mapDelete key (subscriptions s)) s
                       else s in
              match nextRefreshTimeout s with
              | Some handle =>
                  if (length (subscriptions s) =? 0)%nat
                  then withTimeout None (clearTimeout handle s)
                  else s
              | None => s
              end
          end
      end
  end.

(** A pending timer fires: it leaves the table; the one armed by
    [onFeatureFlagChanged] clears [nextRefreshTimeout]; either starts a
    refresh, whose response is still to arrive. *)
Definition fireTimer (handle : TimerHandle) (s : State) : State :=
  match List.find (fun t => Nat.eqb (fst t) handle) (pendingTimers s) with
  | None => s
  | Some (_, action) =>
      let s := clearTimeout handle s in
      match action with
      | ForgetAndRefresh => withTimeout None s
      | RefreshOnly => s
      end
  end.

(** The steps that change the provider: the calls of its clients, and
    the moments at which a response arrives or a timer fires. *)
Inductive Operation : Type :=
  | Subscribe (endpoint prefixFilter : string) (callback : Callback)
  | CallUnsubscribe (u : Unsubscribe)
  | RefreshArrives (endpoint : string) (data : FlagsResponse) (now : Z)
  | EvaluationArrives (endpoint : string) (flagName : FeatureFlag) (response : FlagResponse)
  | TimerFires (handle : TimerHandle)
  | SyncAuthStatus.

Definition run (s : State) (op : Operation) : State :=
  match op with
  | Subscribe endpoint prefixFilter callback =>
      snd (onFeatureFlagChanged endpoint prefixFilter callback s)
  | CallUnsubscribe u => unsubscribe u s
  | RefreshArrives endpoint data now => refreshFeatureFlagsResume endpoint data now s
  | EvaluationArrives endpoint flagName response =>
      snd (evaluateFeatureFlagResume endpoint flagName (Resolved response) s)
  | TimerFires handle => fireTimer handle s
  | SyncAuthStatus => syncAuthStatusStart s
  end.

(** The state a fresh provider is in after the operations. *)
Definition runAll (ops : list Operation) : State := fold_left run ops initial.

(** The bookkeeping of the provider itself: whenever its map of
    subscriptions is empty, no timer handle is kept. *)
Definition timerOnlyWithEntries (s : State) : Prop :=
  subscriptions s = [] -> nextRefreshTimeout s = None.

(** The callbacks that are registered in the map. *)
Definition registered (s : State) : list Callback :=
  List.concat (List.map (fun entry => match deref (snd entry) s with
                                      | Some sub => callbacks sub
                                      | None => []
                                      end) (subscriptions s)).

End Flags.

(** ** Sample runs of the feature-flag provider used by the examples *)

Module SampleFlags.
Import Flags.

Definition endpoint : string := "https://sourcegraph.com".

Definition prefixFilter : string := "cody-autocomplete".

Definition listener : Callback := 7%nat.

Definition flagsOn : FlagRecord := [("cody-autocomplete-tracing", true)].

(** A provider with no cache, then one subscription. *)
Definition subscribed : Unsubscribe * State :=
  onFeatureFlagChanged endpoint prefixFilter listener initial.

(** ... then the subscription is given back. *)
Definition unsubscribed : State := unsubscribe (fst subscribed) (snd subscribed).

(** ... or, instead, a refresh brings a flag under the prefix. *)
Definition refreshed : State :=
  refreshFeatureFlagsResume endpoint (FlagsData flagsOn) 10 (snd subscribed).

(** A provider that has the flag cached, then one subscription, then a
    refresh that brings the same flags again. *)
Definition cached : State :=
  refreshFeatureFlagsResume endpoint (FlagsData flagsOn) 10 initial.

Definition cachedSubscribed : State :=
  snd (onFeatureFlagChanged endpoint prefixFilter listener cached).

Definition cachedRefreshed : State :=
  refreshFeatureFlagsResume endpoint (FlagsData flagsOn) 20 cachedSubscribed.

End SampleFlags.

(** ** Paths and URIs *)

Module Paths.
Import JS.

Definition isAbsolute (p : string) : bool := startsWith p "/".

Definition isEmptyString (s : string) : bool := String.eqb s EmptyString.

(** The segment walk of [posix.normalize]: [stack] holds the segments kept
    so far, the last one first. *)
Fixpoint normalizeSegments (allowAboveRoot : bool) (segments stack : list string)
    : list string :=
  match segments with
  | [] => List.rev stack
  | segment :: rest =>
      if isEmptyString segment || String.eqb segment "." then
        normalizeSegments allowAboveRoot rest stack
      else if String.eqb segment ".." then
        match stack with
        | top :: below =>
            if String.eqb top ".." then
              normalizeSegments allowAboveRoot rest
                                (if allowAboveRoot then ".." :: stack else stack)
            else normalizeSegments allowAboveRoot rest below
        | [] =>
            normalizeSegments allowAboveRoot rest (if allowAboveRoot then [".."] else [])
        end
      else normalizeSegments allowAboveRoot rest (segment :: stack)
  end.

(** Modelled from the spec: [posix.normalize] of the path library that
    the helper imports, which is not part of these sources: [.] and empty
    segments dropped, [..] resolved, a trailing slash kept. *)
Definition posixNormalize (p : string) : string :=
  if isEmptyString p then "."
  else
    let absolute := isAbsolute p in
    let trailingSeparator := endsWith p "/" in
    let body := join "/" (normalizeSegments (negb absolute) (split "/" p) []) in
    if isEmptyString body then
      (if absolute then "/" else if trailingSeparator then "./" else ".")
    else
      let body := if trailingSeparator then body +:+ "/" else body in
      if absolute then "/" +:+ body else body.

(** Modelled from the spec: [posix.join] of the same library, which is
    not part of these sources: the parts that are not empty, joined with a
    slash and normalized. *)
Definition posixJoin (parts : list string) : string :=
  match List.filter (fun part => negb (isEmptyString part)) parts with
  | [] => "."
  | kept => posixNormalize (join "/" kept)
  end.

(** What two lists have in common at the front is dropped. *)
Fixpoint dropCommon (xs ys : list string) : list string * list string :=
  match xs, ys with
  | x :: xs', y :: ys' => if String.eqb x y then dropCommon xs' ys' else (xs, ys)
  | _, _ => (xs, ys)
  end.

(** Modelled from the spec: [posixAndURIPaths.relative] of the shared
    library, which is not part of these sources, for two absolute paths:
    up from [from] to the common ancestor, then down to [to]. *)
Definition posixRelative (from to : string) : string :=
  let fromSegments := normalizeSegments false (split "/" from) [] in
  let toSegments := normalizeSegments false (split "/" to) [] in
  let '(up, down) := dropCommon fromSegments toSegments in
  join "/" (List.map (fun _ => "..") up ++ down).

(** Modelled from the spec: [Utils.joinPath] of [vscode-uri], which is not
    part of these sources: the paths joined and normalized, the other
    components kept. *)
Definition joinPath (u : URI) (paths : list string) : URI :=
  mkURI (scheme u) (authority u) (posixJoin (path u :: paths)).

(** The characters that end the scheme of a URI text. *)
Definition isSchemeStop (c : ascii) : bool :=
  Ascii.eqb c "/" || Ascii.eqb c "?" || Ascii.eqb c "#".

Fixpoint noSchemeStop (s : string) : bool :=
  match s with
  | EmptyString => true
  | String c s' => negb (isSchemeStop c) && noSchemeStop s'
  end.

(** Modelled from the spec: [URI.parse] of [vscode-uri], which is not part
    of these sources, for a text without query, fragment or percent
    encoding: [scheme://authority/path]. *)
Definition uriParse (s : string) : URI :=
  let i := indexOf ":" s in
  if (0 <? i) && noSchemeStop (sliceTo s i) then
    let rest := sliceFrom s (Z.to_nat (i + 1)) in
    if startsWith rest "//" then
      let afterSlashes := sliceFrom rest 2 in
      let j := indexOf "/" afterSlashes in
      if j =? -1 then mkURI (sliceTo s i) afterSlashes "/"
      else mkURI (sliceTo s i) (sliceTo afterSlashes j) (sliceFrom afterSlashes (Z.to_nat j))
    else mkURI (sliceTo s i) EmptyString rest
  else mkURI "file" EmptyString s.

(** Modelled from the spec: [uriHasPrefix] of the shared library, which is
    not part of these sources, on a host that is not Windows: same scheme
    and authority, and the path is the prefix path or lies below it. *)
Definition uriHasPrefix (u prefix : URI) : bool :=
  String.eqb (scheme u) (scheme prefix) &&
  String.eqb (authority u) (authority prefix) &&
  (String.eqb (path u) (path prefix) ||
   startsWith (path u)
              (if endsWith (path prefix) "/" then path prefix else path prefix +:+ "/") ||
   (endsWith (path prefix) "/" &&
    String.eqb (path u) (sliceTo (path prefix) (Z.of_nat (String.length (path prefix)) - 1)))).

(** A segment of a path in normal form: not empty, neither [.] nor [..],
    no slash inside. *)
Fixpoint noSlash (s : string) : bool :=
  match s with
  | EmptyString => true
  | String c s' => negb (Ascii.eqb c "/") && noSlash s'
  end.

Definition isPlainSegment (segment : string) : bool :=
  negb (isEmptyString segment) && negb (String.eqb segment ".") &&
  negb (String.eqb segment "..") && noSlash segment.

(** The absolute path made of the segments: [/a/b] for [a], [b]. *)
Definition absolutePath (segments : list string) : string := "/" +:+ join "/" segments.

End Paths.

(** ** The [ignore] package

    The gitignore matcher that the helper builds its rule sets with. It is
    not part of these sources; the definitions below follow the gitignore
    semantics that the specification refers to. Patterns are made of
    literal characters, [/], [*] and [?]; a globstar segment, a range and a
    backslash escape are outside the model. Matching ignores case, as the
    package does by default. *)

Module GitIgnore.
Import JS.

Record IgnoreRule : Type := mkIgnoreRule {
  origin : string;
  pattern : string;
  negative : bool
}.

(** An [Ignore] object: its rules, in the order they were added. *)
Definition Ignore : Type := list IgnoreRule.

Definition sameLetter (p c : ascii) : bool := Ascii.eqb (toLowerChar c) (toLowerChar p).

Definition notSlash (c : ascii) : bool := negb (Ascii.eqb c "/").

(** The pattern as a regular expression. [afterSlash]: the character
    before was a slash. A star is any run without a slash; the last star
    of a pattern needs one character at least when it stands for a whole
    segment. *)
Fixpoint globBody (afterSlash : bool) (p : string) : RegExp :=
  match p with
  | EmptyString => REmpty
  | String c rest =>
      if Ascii.eqb c "*" then
        match rest with
        | EmptyString =>
            if afterSlash then RPlus (RClass notSlash) else RStar (RClass notSlash)
        | _ => RSeq (RStar (RClass notSlash)) (globBody false rest)
        end
      else if Ascii.eqb c "?" then RSeq (RClass notSlash) (globBody false rest)
      else if Ascii.eqb c "/" then RSeq (RChar "/") (globBody true rest)
      else RSeq (RClass (sameLetter c)) (globBody false rest)
  end.

(** A slash at the beginning or in the middle of the pattern. *)
Fixpoint hasInnerSlash (p : string) : bool :=
  match p with
  | EmptyString => false
  | String c rest =>
      (Ascii.eqb c "/" && negb (String.eqb rest EmptyString)) || hasInnerSlash rest
  end.

Definition stripLeadingSlash (p : string) : string :=
  match p with
  | String c rest => if Ascii.eqb c "/" then rest else p
  | EmptyString => p
  end.

(** What follows each slash of the path. *)
Fixpoint afterEachSlash (path : string) : list string :=
  match path with
  | EmptyString => []
  | String c rest => (if Ascii.eqb c "/" then [rest] else []) ++ afterEachSlash rest
  end.

(** Where a match may start: at the start of the path; for a pattern
    without an inner slash, also behind any slash. *)
Definition matchStarts (anchored : bool) (path : string) : list string :=
  if anchored then [path] else path :: afterEachSlash path.

(** Where a match may end: at the end of the path; for a pattern without a
    trailing slash, also before one last slash. *)
Definition matchEnds (directoryOnly : bool) (s : string) : list string :=
  s :: (if negb directoryOnly && endsWith s "/"
        then [sliceTo s (Z.of_nat (String.length s) - 1)] else []).

(** Modelled from the spec: [rule.regex.test(path)] of the [ignore]
    package, which is not part of these sources: a pattern with a slash at
    the beginning or in the middle is matched from the root, any other at
    every level; a pattern with a trailing slash matches directories only. *)
Definition ruleMatches (rule : IgnoreRule) (path : string) : bool :=
  let p := pattern rule in
  let body := globBody (startsWith p "/") (stripLeadingSlash p) in
  existsb (fun s => existsb (matchesWhole body) (matchEnds (endsWith p "/") s))
          (matchStarts (hasInnerSlash p) path).

Fixpoint allWhiteSpace (s : string) : bool :=
  match s with
  | EmptyString => true
  | String c rest => isWhiteSpace c && allWhiteSpace rest
  end.

(** Modelled from the spec: [checkPattern] of the [ignore] package, which
    is not part of these sources: not empty, not blank, no comment. *)
Definition checkPattern (p : string) : bool :=
  negb (String.eqb p EmptyString) && negb (allWhiteSpace p) && negb (startsWith p "#").

(** Modelled from the spec: [createRule] of the [ignore] package, which is
    not part of these sources: a leading [!] makes the rule a negation. *)
Definition createRule (p : string) : IgnoreRule :=
  if startsWith p "!" then mkIgnoreRule p (sliceFrom p 1) true
  else mkIgnoreRule p p false.

(** Modelled from the spec: [ignore()] and [ig.add(pattern)] of the
    [ignore] package, which is not part of these sources, for a pattern of
    one line: later rules come behind earlier ones. *)
Definition empty : Ignore := [].

(** Modelled from the spec: [ig.add(pattern)], see [empty]. *)
Definition add (p : string) (ig : Ignore) : Ignore :=
  if checkPattern p then ig ++ [createRule p] else ig.

(** Modelled from the spec: [_testOne(path, false)] of the [ignore]
    package, which is not part of these sources: the rules in order, a
    later rule overriding an earlier one, a rule with [!] un-ignoring; a
    rule that could not change the verdict is not tried. *)
Definition testOne (ig : Ignore) (path : string) : bool * bool :=
  fold_left
    (fun '(ignored, unignored) rule =>
       if (Bool.eqb unignored (negative rule) && negb (Bool.eqb ignored unignored)) ||
          (negative rule && negb ignored && negb unignored)
       then (ignored, unignored)
       else if ruleMatches rule path then (negb (negative rule), negative rule)
       else (ignored, unignored))
    ig (false, false).

(** The parent directories of a path, outermost first, each with its
    trailing slash: [a/], [a/b/] for [a/b/c]. *)
Fixpoint parentsFrom (prefix : string) (segments : list string) : list string :=
  match segments with
  | [] => []
  | [_] => []
  | segment :: rest =>
      let dir := prefix +:+ segment +:+ "/" in
      dir :: parentsFrom dir rest
  end.

(** Modelled from the spec: [_t(path)] of the [ignore] package, which is
    not part of these sources: a path below an ignored directory is
    ignored; otherwise the path is tested itself. *)
Definition test (ig : Ignore) (path : string) : bool :=
  existsb (fun dir => fst (testOne ig dir)) (parentsFrom EmptyString (split "/" path)) ||
  fst (testOne ig path).

Fixpoint dropDots (s : string) : string :=
  match s with
  | String c rest => if Ascii.eqb c "." then dropDots rest else s
  | EmptyString => s
  end.

(** Modelled from the spec: [checkPath] of the [ignore] package, which is
    not part of these sources: the path is not empty and is relative: it
    does not start with dots and a slash, and is not made of dots only. *)
Definition isValidPath (path : string) : bool :=
  negb (String.eqb path EmptyString) &&
  negb (startsWith (dropDots path) "/") &&
  negb (String.eqb (dropDots path) EmptyString).

(** Modelled from the spec: [ig.ignores(path)] of the [ignore] package,
    which is not part of these sources; it throws on a path that is not
    valid. *)
Definition ignores (ig : Ignore) (path : string) : Outcome bool :=
  if isValidPath path then Resolved (test ig path)
  else Rejected "path should be a `path.relative()`d string".

End GitIgnore.

(** ** The ignore helper *)

Module IgnoreHelper.
Import JS Paths.

Definition CODY_IGNORE_URI_PATH : string := ".cody/ignore".

Definition CODY_IGNORE_POSIX_GLOB : string := "**/" +:+ CODY_IGNORE_URI_PATH.

Record IgnoreFileContent : Type := mkIgnoreFileContent {
  ignoreUri : URI;
  ignoreContent : string
}.

(** The helper: the map from workspace root (the text of its URI) to its
    rules, keys in insertion order, and the activation flag. *)
Record Helper : Type := mkHelper {
  workspaceIgnores : list (string * GitIgnore.Ignore);
  isActive : bool
}.

(** [new IgnoreHelper()] *)
Definition create : Helper := mkHelper [] false.

Definition setActiveState (active : bool) (h : Helper) : Helper :=
  mkHelper (workspaceIgnores h) active.

(** [map.get(key)], [map.set(key, value)], [map.delete(key)] *)
Fixpoint ignoresGet (key : string) (m : list (string * GitIgnore.Ignore))
    : option GitIgnore.Ignore :=
  match m with
  | [] => None
  | (k, v) :: rest => if String.eqb k key then Some v else ignoresGet key rest
  end.

Fixpoint ignoresSet (key : string) (value : GitIgnore.Ignore)
    (m : list (string * GitIgnore.Ignore)) : list (string * GitIgnore.Ignore) :=
  match m with
  | [] => [(key, value)]
  | (k, v) :: rest =>
      if String.eqb k key then (k, value) :: rest else (k, v) :: ignoresSet key value rest
  end.

Definition ignoresDelete (key : string) (m : list (string * GitIgnore.Ignore))
    : list (string * GitIgnore.Ignore) :=
  List.filter (fun entry => negb (String.eqb (fst entry) key)) m.

(** [relativePath(from, to)] on a host that is not Windows *)
Definition relativePath (from to : URI) : string := posixRelative (path from) (path to).

(** The three checks, which throw. *)
Definition ensureFileUri (name : string) (u : URI) : Outcome unit :=
  if negb (String.eqb (scheme u) "file")
  then Rejected (name +:+ " should be a file URI") else Resolved tt.

Definition ensureAbsolute (name : string) (u : URI) : Outcome unit :=
  if negb (startsWith (path u) "/")
  then Rejected (name +:+ " should be absolute") else Resolved tt.

Definition ensureValidCodyIgnoreFile (name : string) (u : URI) : Outcome unit :=
  await _ <- ensureAbsolute "ignoreFile.uri" u ;;
  if negb (endsWith (path u) CODY_IGNORE_URI_PATH)
  then Rejected (name +:+ " should end with " +:+ CODY_IGNORE_URI_PATH)
  else Resolved tt.

(** [ignore().add('.env')] *)
Definition getDefaultIgnores : GitIgnore.Ignore := GitIgnore.add ".env" GitIgnore.empty.

(** [Utils.joinPath(ignoreFile, '..', '..')] *)
Definition ignoreFileEffectiveDirectory (ignoreFile : URI) : URI :=
  joinPath ignoreFile [".."; ".."].

(** The body of the loop over the lines of one ignore file. *)
Definition addIgnoreLine (relativeFolderUriPath : string) (rules : GitIgnore.Ignore)
    (ignoreLine : string) : GitIgnore.Ignore :=
  let ignoreLine := trim ignoreLine in
  if (String.length ignoreLine =? 0)%nat || startsWith ignoreLine "#" then rules
  else
    let isInverted := startsWith ignoreLine "!" in
    let ignoreLine := if isInverted then sliceFrom ignoreLine 1 else ignoreLine in
    let ignoreRule :=
      if (0 <? String.length relativeFolderUriPath)%nat
      then relativeFolderUriPath +:+ "/" +:+ ignoreLine
      else ignoreLine in
    GitIgnore.add ((if isInverted then "!" else EmptyString) +:+ ignoreRule) rules.

(** The body of the loop over the ignore files. *)
Definition addIgnoreFile (workspaceRoot : URI) (rules : GitIgnore.Ignore)
    (ignoreFile : IgnoreFileContent) : Outcome GitIgnore.Ignore :=
  await _ <- ensureValidCodyIgnoreFile "ignoreFile.uri" (ignoreUri ignoreFile) ;;
  let effectiveDir := ignoreFileEffectiveDirectory (ignoreUri ignoreFile) in
  let relativeFolderUriPath := relativePath workspaceRoot effectiveDir in
  Resolved (fold_left (addIgnoreLine relativeFolderUriPath)
                      (split "010" (ignoreContent ignoreFile)) rules).

Fixpoint addIgnoreFiles (workspaceRoot : URI) (rules : GitIgnore.Ignore)
    (ignoreFiles : list IgnoreFileContent) : Outcome GitIgnore.Ignore :=
  match ignoreFiles with
  | [] => Resolved rules
  | ignoreFile :: rest =>
      await rules' <- addIgnoreFile workspaceRoot rules ignoreFile ;;
      addIgnoreFiles workspaceRoot rules' rest
  end.

Definition setIgnoreFiles (workspaceRoot : URI) (ignoreFiles : list IgnoreFileContent)
    (h : Helper) : Outcome Helper :=
  await _ <- ensureAbsolute "workspaceRoot" workspaceRoot ;;
  await rules <- addIgnoreFiles workspaceRoot getDefaultIgnores ignoreFiles ;;
  Resolved (mkHelper (ignoresSet (uriToString workspaceRoot) rules (workspaceIgnores h))
                     (isActive h)).

Definition clearIgnoreFiles (workspaceRoot : URI) (h : Helper) : Helper :=
  mkHelper (ignoresDelete (uriToString workspaceRoot) (workspaceIgnores h)) (isActive h).

(** The registered roots that hold the file, the shortest first. *)
Definition findWorkspaceRoot (file : URI) (h : Helper) : option URI :=
  let candidates :=
    List.filter (fun workspaceRoot => uriHasPrefix file (uriParse workspaceRoot))
                (List.map fst (workspaceIgnores h)) in
  let sorted :=
    sortBy (fun a b => Z.of_nat (String.length a) - Z.of_nat (String.length b))
           candidates in
  match sorted with
  | selected :: _ =>
      if String.eqb selected EmptyString then None else Some (uriParse selected)
  | [] => None
  end.

Definition isIgnored (u : URI) (h : Helper) : Outcome bool :=
  if negb (isActive h) then Resolved false
  else if negb (String.eqb (scheme u) "file") then Resolved false
  else
    await _ <- ensureFileUri "uri" u ;;
    await _ <- ensureAbsolute "uri" u ;;
    match findWorkspaceRoot u h with
    | None => GitIgnore.ignores getDefaultIgnores (uriBasename u)
    | Some workspaceRoot =>
        let relativePath := relativePath workspaceRoot u in
        let rules := match ignoresGet (uriToString workspaceRoot) (workspaceIgnores h) with
                     | Some rules => rules
                     | None => getDefaultIgnores
                     end in
        GitIgnore.ignores rules relativePath
    end.

End IgnoreHelper.

(** ** Sample workspaces of the ignore helper used by the examples *)

Module SampleIgnore.
Import IgnoreHelper.

Definition workspaceRoot : URI := fileURI "/w".

(** One ignore file at the root, with the one line [build/]. *)
Definition rootIgnoreFile : IgnoreFileContent :=
  mkIgnoreFileContent (fileURI "/w/.cody/ignore") "build/".

Definition helper : Outcome Helper :=
  setIgnoreFiles workspaceRoot [rootIgnoreFile] (setActiveState true create).

(** One ignore file in the folder [pkg], with the same line. *)
Definition nestedIgnoreFile : IgnoreFileContent :=
  mkIgnoreFileContent (fileURI "/w/pkg/.cody/ignore") "build/".

Definition nestedHelper : Outcome Helper :=
  setIgnoreFiles workspaceRoot [nestedIgnoreFile] (setActiveState true create).

(** [helper.isIgnored(uri)] once the set-up went through. *)
Definition isIgnoredIn (set : Outcome Helper) (u : URI) : Outcome bool :=
  await h <- set ;; isIgnored u h.

End SampleIgnore.

(** ** What a regular expression matches *)

Module RegExpLang.
Import JS.

(** [Lang r s]: the pattern [r] matches exactly the string [s]. *)
Inductive Lang : RegExp -> string -> Prop :=
  | LangEmpty : Lang REmpty EmptyString
  | LangClass (p : ascii -> bool) (c : ascii) :
      p c = true -> Lang (RClass p) (String c EmptyString)
  | LangSeq (r1 r2 : RegExp) (s1 s2 : string) :
      Lang r1 s1 -> Lang r2 s2 -> Lang (RSeq r1 r2) (s1 +:+ s2)
  | LangAltLeft (r1 r2 : RegExp) (s : string) : Lang r1 s -> Lang (RAlt r1 r2) s
  | LangAltRight (r1 r2 : RegExp) (s : string) : Lang r2 s -> Lang (RAlt r1 r2) s
  | LangStarDone (r : RegExp) : Lang (RStar r) EmptyString
  | LangStarMore (r : RegExp) (s1 s2 : string) :
      Lang r s1 -> Lang (RStar r) s2 -> Lang (RStar r) (s1 +:+ s2).

(** Every character of [s] is white space. *)
Fixpoint whiteSpaceOnly (s : string) : bool :=
  match s with
  | EmptyString => true
  | String c rest => isWhiteSpace c && whiteSpaceOnly rest
  end.

End RegExpLang.

(** ** The retrieval that is not fused *)

Module EnhancedContext.
Import JS Priority Fusion Retrieval.

(** An item that symf contributes: read from a file, of source [search],
    with a text that is not empty. *)
Definition isSymfItem (item : ContextItem) : Prop :=
  text item <> EmptyString /\ source item = Some SourceSearch.

Section Host.

Variable NUM_CODE_RESULTS NUM_TEXT_RESULTS : Z.
Variable isAgentTesting : bool.
Variable localeCompare : string -> string -> Z.
Variable ViewRange : Type.
Variable MAX_BYTES_PER_FILE : Z.
Variable truncateTextNearestLine : string -> Z -> string * ViewRange.
Variable viewRangeToRange : ViewRange -> Range.
Variable workspace : Workspace.

(** [try { searchContext.push(...(await promise)) } catch (error) { }] *)
Definition pushIfResolved (searchContext : list ContextItem)
    (promise : Outcome (list ContextItem)) : list ContextItem :=
  match promise with
  | Resolved r => searchContext ++ r
  | Rejected _ => searchContext
  end.

(** The items that [getEnhancedContext] gathers before the priority step,
    for a strategy that is not [none]. *)
Definition gatherSearchContext (strategy : ConfigurationUseContext)
    (editor : VSCodeEditor) (text : string) (providers : Providers) : list ContextItem :=
  let searchContext := [] in
  let searchContext :=
    if negb (isStrategyKeyword strategy)
    then pushIfResolved searchContext
           (searchEmbeddingsLocal NUM_CODE_RESULTS NUM_TEXT_RESULTS
                                  (localEmbeddings providers) text)
    else searchContext in
  if negb (isStrategyEmbeddings strategy) then
    let searchContext :=
      if isSome (remoteSearch providers)
      then pushIfResolved searchContext (searchRemote (remoteSearch providers) text)
      else searchContext in
    if isSome (symf providers)
    then pushIfResolved searchContext
           (searchSymf isAgentTesting localeCompare (symf providers) editor text false)
    else searchContext
  else searchContext.

Definition getEnhancedContext (internalUnstable : bool)
    (strategy : ConfigurationUseContext) (editor : VSCodeEditor) (text : string)
    (providers : Providers) (maxChars : Q) : Outcome (list ContextItem) :=
  if internalUnstable then
    getEnhancedContextFused NUM_CODE_RESULTS NUM_TEXT_RESULTS isAgentTesting
      localeCompare ViewRange MAX_BYTES_PER_FILE truncateTextNearestLine
      viewRangeToRange workspace strategy editor text providers maxChars
  else if isStrategyNone strategy then
    Resolved ([] ++ getVisibleEditorContext editor)
  else
    let searchContext := gatherSearchContext strategy editor text providers in
    await priorityContext <-
      getPriorityContext ViewRange MAX_BYTES_PER_FILE truncateTextNearestLine
                         viewRangeToRange workspace text editor searchContext ;;
    Resolved (priorityContext ++ searchContext).

End Host.

End EnhancedContext.

(** ** More sample values of the retrieval used by the examples *)

Module SampleRetrieval.

(** An editor with no selection that cannot read any file. *)
Definition editorUnreadable : VSCodeEditor :=
  mkEditor (Some Sample.root) None None (fun _ _ => Rejected "EACCES").

(** The item that symf finds through [SampleProviders.editor]. *)
Definition symfItem : ContextItem :=
  mkContextItem "let x = 1" (fileURI "/home/me/myrepo/a.ts")
                (Some (mkRange (mkPosition 0 0) (mkPosition 1 0)))
                (Some SourceSearch) None None None.

(** A symf index that is ready and finds one range in each of two files. *)
Definition twoFileSymf : SymfRunner :=
  mkSymfRunner
    (fun _ => Resolved "ready")
    (fun _ _ => Resolved [ Resolved [ mkSymfResult (fileURI "/home/me/myrepo/locked.ts")
                                                   (mkPoint 0 0) (mkPoint 1 0);
                                      mkSymfResult (fileURI "/home/me/myrepo/a.ts")
                                                   (mkPoint 0 0) (mkPoint 1 0) ] ]).

(** An editor with no selection that can read [a.ts] and no other file. *)
Definition editorReadingOne : VSCodeEditor :=
  mkEditor (Some Sample.root) None None
           (fun u _ => if String.eqb (path u) "/home/me/myrepo/a.ts"
                       then Resolved (Some "let x = 1") else Rejected "EACCES").

Definition symfSearch : option SymfRunner -> VSCodeEditor -> string -> bool ->
                        Outcome (list ContextItem) :=
  Retrieval.searchSymf false SampleProviders.compareCodes.

Definition plainQuery
    : ConfigurationUseContext -> VSCodeEditor -> string -> Providers -> Q ->
      Outcome (list ContextItem) :=
  EnhancedContext.getEnhancedContext 12 3 false SampleProviders.compareCodes unit 4096
    Sample.truncate Sample.wholeFile Sample.workspace false.

Definition gathered
    : ConfigurationUseContext -> VSCodeEditor -> string -> Providers -> list ContextItem :=
  EnhancedContext.gatherSearchContext 12 3 false SampleProviders.compareCodes.

Definition fusion
    : ConfigurationUseContext -> VSCodeEditor -> string -> Providers -> Q ->
      list ContextItem :=
  Retrieval.fusedOfSucceeded 12 3 false SampleProviders.compareCodes.

End SampleRetrieval.

(** ** Invariants of the feature-flag provider *)

Module FlagsInvariants.
Import Flags.

(** At most one timer waits, and it is the one whose handle the provider
    keeps. *)
Definition oneTimerAtMost (s : State) : Prop :=
  pendingTimers s = [] \/
  exists (handle : TimerHandle) (action : TimerAction),
    pendingTimers s = [(handle, action)] /\ nextRefreshTimeout s = Some handle.

(** The entries of the map refer to different objects, all of them in
    the heap. *)
Definition distinctObjects (s : State) : Prop :=
  NoDup (List.map snd (subscriptions s)) /\
  Forall (fun r => (r < length (heap s))%nat) (List.map snd (subscriptions s)).

(** The snapshot that [notifyFeatureFlagChanged] computes for a key. *)
Definition snapshotOfKey (s : State) (key0 : string) : string :=
  computeFeatureFlagSnapshot s (List.hd EmptyString (JS.split "#" key0))
                             (List.nth_error (JS.split "#" key0) 1).

(** Every object of the entries holds the snapshot of its key. *)
Definition settled (s : State) (entries : SubscriptionMap) : Prop :=
  forall (key0 : string) (r : Ref) (sub : Subscription),
    In (key0, r) entries -> deref r s = Some sub -> lastSnapshot sub = snapshotOfKey s key0.

End FlagsInvariants.

(** ** A helper with nested workspace roots used by the examples *)

Module SampleRoots.
Import IgnoreHelper.

Definition innerRoot : URI := fileURI "/w/pkg".

Definition outerRoot : URI := fileURI "/w".

(** The inner root registered first, then the outer one, neither with an
    ignore file. *)
Definition registeredRoots : Outcome Helper :=
  await h <- setIgnoreFiles innerRoot [] (setActiveState true create) ;;
  setIgnoreFiles outerRoot [] h.

(** The same helper, written out. *)
Definition nestedRoots : Helper :=
  mkHelper [ (uriToString innerRoot, getDefaultIgnores);
             (uriToString outerRoot, getDefaultIgnores) ] true.

End SampleRoots.

(** * Theorems *)

(** ** Strings *)

Module StringFacts.

Lemma append_length (a b : string) :
  String.length (a +:+ b) = (String.length a + String.length b)%nat.
Proof. induction a as [|c a IH]; simpl; [reflexivity|now rewrite IH]. Qed.

Lemma append_assoc (a b c : string) : (a +:+ b) +:+ c = a +:+ (b +:+ c).
Proof.
  induction a as [|x a IH]; [reflexivity|].
  change (String x ((a +:+ b) +:+ c) = String x (a +:+ (b +:+ c))).
  now f_equal.
Qed.

End StringFacts.

(** ** Context fusion *)

Module FusionFacts.
Import Fusion.

Lemma totalChars_app (xs ys : list ContextItem) :
  totalChars (xs ++ ys) = totalChars xs + totalChars ys.
Proof.
  induction xs as [|x xs IH]; simpl; [reflexivity|].
  unfold totalChars in *. simpl. rewrite IH. lia.
Qed.

Lemma textLength_nonneg (item : ContextItem) : 0 <= textLength item.
Proof. unfold textLength. lia. Qed.

Lemma totalChars_nonneg (xs : list ContextItem) : 0 <= totalChars xs.
Proof.
  induction xs as [|x xs IH]; unfold totalChars in *; simpl; [lia|].
  pose proof (textLength_nonneg x). lia.
Qed.

(** The loop only ever appends to [fused]: what it had before stays in
    front, whatever the loop pushes comes behind. *)
Lemma fold_fuseStep_acc (cap : Q) (items : list ContextItem) :
  forall (c : Z) (acc : list ContextItem),
    fold_left (fuseStep cap) items (c, acc) =
    (fst (fold_left (fuseStep cap) items (c, [])),
     acc ++ snd (fold_left (fuseStep cap) items (c, []))).
Proof.
  induction items as [|item rest IH]; intros c acc; simpl.
  - now rewrite app_nil_r.
  - destruct (Qle_bool (inject_Z (c + textLength item)) cap).
    + rewrite (IH _ (acc ++ [item])), (IH _ ([] ++ [item])). simpl.
      now rewrite <- app_assoc.
    + apply IH.
Qed.

(** The loop of the source computes the first-fit selection. *)
Lemma fold_fuseStep_firstFit (cap : Q) (items : list ContextItem) :
  forall c : Z,
    fold_left (fuseStep cap) items (c, []) =
    (snd (firstFit cap c items), fst (firstFit cap c items)).
Proof.
  induction items as [|item rest IH]; intros c; simpl; [reflexivity|].
  destruct (Qle_bool (inject_Z (c + textLength item)) cap) eqn:Hfit.
  - rewrite fold_fuseStep_acc, IH. simpl.
    now destruct (firstFit cap (c + textLength item) rest).
  - apply IH.
Qed.

(** The running count is the start count plus the lengths of what was taken. *)
Lemma firstFit_count (cap : Q) (items : list ContextItem) :
  forall c : Z, snd (firstFit cap c items) = c + totalChars (fst (firstFit cap c items)).
Proof.
  induction items as [|item rest IH]; intros c; simpl.
  - unfold totalChars. simpl. lia.
  - destruct (Qle_bool _ cap).
    + specialize (IH (c + textLength item)).
      destruct (firstFit cap (c + textLength item) rest) as [taken used'].
      simpl in *. unfold totalChars in *. simpl. lia.
    + apply IH.
Qed.

(** The running count never passes the cap it is checked against. *)
Lemma firstFit_within_cap (cap : Q) (items : list ContextItem) :
  forall c : Z, (inject_Z c <= cap)%Q -> (inject_Z (snd (firstFit cap c items)) <= cap)%Q.
Proof.
  induction items as [|item rest IH]; intros c Hc; simpl; [exact Hc|].
  destruct (Qle_bool (inject_Z (c + textLength item)) cap) eqn:Hfit.
  - apply Qle_bool_iff in Hfit. specialize (IH _ Hfit).
    now destruct (firstFit cap (c + textLength item) rest).
  - now apply IH.
Qed.

(** Items are taken whole and in order: the selection is a sublist. *)
Lemma firstFit_sublist (cap : Q) (items : list ContextItem) :
  forall c : Z, sublist (fst (firstFit cap c items)) items.
Proof.
  induction items as [|item rest IH]; intros c; simpl; [constructor|].
  destruct (Qle_bool _ cap).
  - specialize (IH (c + textLength item)).
    destruct (firstFit cap (c + textLength item) rest). simpl in *.
    now apply sublist_skip.
  - apply sublist_cons, IH.
Qed.

Lemma afterKeyword_firstFit (K E : list ContextItem) (maxChars : Q) :
  afterKeyword K E maxChars =
  (snd (firstFit (maxKeywordChars E maxChars) 0 K),
   fst (firstFit (maxKeywordChars E maxChars) 0 K)).
Proof. unfold afterKeyword. apply fold_fuseStep_firstFit. Qed.

Lemma fuseContext_portions (K E : list ContextItem) (maxChars : Q) :
  fuseContext K E maxChars =
  keywordPortion K E maxChars ++ embeddingsPortion K E maxChars.
Proof.
  unfold fuseContext, keywordPortion, embeddingsPortion.
  destruct (afterKeyword K E maxChars) as [c1 kw]. simpl.
  now rewrite fold_fuseStep_acc.
Qed.

Lemma fuseContext_firstFit (K E : list ContextItem) (maxChars : Q) :
  let kw := firstFit (maxKeywordChars E maxChars) 0 K in
  fuseContext K E maxChars = fst kw ++ fst (firstFit maxChars (snd kw) E).
Proof.
  intros kw. rewrite fuseContext_portions.
  unfold keywordPortion, embeddingsPortion.
  rewrite afterKeyword_firstFit. simpl.
  now rewrite fold_fuseStep_firstFit.
Qed.

Lemma maxKeywordChars_nonempty (E : list ContextItem) (maxChars : Q) :
  E <> [] -> maxKeywordChars E maxChars = (maxChars * 0.8)%Q.
Proof. destruct E; [congruence|reflexivity]. Qed.

Lemma maxKeywordChars_bounds (E : list ContextItem) (maxChars : Q) :
  (0 <= maxChars)%Q ->
  (0 <= maxKeywordChars E maxChars)%Q /\ (maxKeywordChars E maxChars <= maxChars)%Q.
Proof.
  intros Hm. unfold maxKeywordChars.
  destruct (0 <? Z.of_nat (length E)); split; lra.
Qed.

Lemma firstFit_keeps_empty (cap : Q) (items : list ContextItem) :
  forall c : Z, (inject_Z c <= cap)%Q ->
    List.filter isEmptyText (fst (firstFit cap c items)) = List.filter isEmptyText items.
Proof.
  induction items as [|item rest IH]; intros c Hc; simpl; [reflexivity|].
  unfold isEmptyText at 2.
  destruct (Qle_bool (inject_Z (c + textLength item)) cap) eqn:Hfit.
  - apply Qle_bool_iff in Hfit. specialize (IH _ Hfit).
    destruct (firstFit cap (c + textLength item) rest) as [taken used'].
    simpl in *. unfold isEmptyText at 1. now rewrite IH.
  - destruct (textLength item =? 0) eqn:Hlen.
    + apply Z.eqb_eq in Hlen. rewrite Hlen, Z.add_0_r in Hfit.
      apply Qle_bool_iff in Hc. congruence.
    + now apply IH.
Qed.

(** With nothing left to spend, exactly the zero-length items fit. *)
Lemma firstFit_zero_cap (cap : Q) (items : list ContextItem) :
  (cap == 0)%Q -> firstFit cap 0 items = (List.filter isEmptyText items, 0).
Proof.
  intros Hcap. induction items as [|item rest IH]; simpl; [reflexivity|].
  unfold isEmptyText. pose proof (textLength_nonneg item) as Hlen.
  rewrite !Z.add_0_l.
  destruct (Qle_bool (inject_Z (textLength item)) cap) eqn:Hfit.
  - apply Qle_bool_iff in Hfit. rewrite Hcap in Hfit.
    change 0%Q with (inject_Z 0) in Hfit. rewrite <- Zle_Qle in Hfit.
    assert (textLength item = 0) as Hz by lia.
    rewrite Hz, IH. reflexivity.
  - destruct (textLength item =? 0) eqn:H0; [|exact IH].
    apply Z.eqb_eq in H0. rewrite H0 in Hfit.
    assert (Qle_bool (inject_Z 0) cap = true) as Ht; [|congruence].
    apply Qle_bool_iff. rewrite Hcap. apply Qle_refl.
Qed.

Lemma firstFit_single_fits (cap : Q) (c : Z) (item : ContextItem) :
  (inject_Z (c + textLength item) <= cap)%Q ->
  firstFit cap c [item] = ([item], c + textLength item).
Proof. intros H. simpl. apply Qle_bool_iff in H. now rewrite H. Qed.

Lemma firstFit_single_skipped (cap : Q) (c : Z) (item : ContextItem) :
  (cap < inject_Z (c + textLength item))%Q ->
  firstFit cap c [item] = ([], c).
Proof.
  intros H. simpl.
  destruct (Qle_bool (inject_Z (c + textLength item)) cap) eqn:Hfit; [|reflexivity].
  apply Qle_bool_iff in Hfit. lra.
Qed.

(** Below zero nothing fits, not even an empty text. *)
Lemma firstFit_nothing_fits (cap : Q) (items : list ContextItem) :
  forall c : Z, (cap < inject_Z c)%Q -> firstFit cap c items = ([], c).
Proof.
  induction items as [|item rest IH]; intros c Hc; simpl; [reflexivity|].
  destruct (Qle_bool (inject_Z (c + textLength item)) cap) eqn:Hfit; [|now apply IH].
  apply Qle_bool_iff in Hfit. pose proof (textLength_nonneg item) as Hlen.
  rewrite (Zle_Qle 0), inject_Z_plus in *. change (inject_Z 0) with 0%Q in Hlen. lra.
Qed.

Lemma fuseContext_negative_budget (K E : list ContextItem) (maxChars : Q) :
  (maxChars < 0)%Q -> fuseContext K E maxChars = [].
Proof.
  intros Hneg. rewrite fuseContext_firstFit. cbv zeta.
  rewrite (firstFit_nothing_fits (maxKeywordChars E maxChars) K 0).
  - simpl. now rewrite (firstFit_nothing_fits maxChars E 0).
  - unfold maxKeywordChars. change (inject_Z 0) with 0%Q.
    destruct (0 <? Z.of_nat (length E)); lra.
Qed.

(** The two loops against the caps they are run with, for every budget
    that is not negative: the count never passes the cap of the loop, and
    each loop pushes a sublist of its input. *)
Lemma fuseContext_within_caps (K E : list ContextItem) (maxChars : Q) :
  (0 <= maxChars)%Q ->
  (inject_Z (totalChars (fuseContext K E maxChars)) <= maxChars)%Q /\
  (inject_Z (totalChars (keywordPortion K E maxChars)) <= maxKeywordChars E maxChars)%Q /\
  sublist (keywordPortion K E maxChars) K /\
  sublist (embeddingsPortion K E maxChars) E.
Proof.
  intros Hbudget.
  pose proof (maxKeywordChars_bounds E maxChars Hbudget) as [Hk0 Hkm].
  pose proof (firstFit_within_cap (maxKeywordChars E maxChars) K 0 Hk0) as Hkw.
  pose proof (firstFit_count (maxKeywordChars E maxChars) K 0) as Hkc.
  assert (keywordPortion K E maxChars =
          fst (firstFit (maxKeywordChars E maxChars) 0 K)) as Hkp.
  { unfold keywordPortion. now rewrite afterKeyword_firstFit. }
  assert (embeddingsPortion K E maxChars =
          fst (firstFit maxChars (snd (firstFit (maxKeywordChars E maxChars) 0 K)) E))
    as Hep.
  { unfold embeddingsPortion. rewrite afterKeyword_firstFit. simpl.
    now rewrite fold_fuseStep_firstFit. }
  repeat split.
  - rewrite fuseContext_firstFit. cbv zeta. rewrite totalChars_app.
    set (kw := firstFit (maxKeywordChars E maxChars) 0 K) in *.
    pose proof (firstFit_count maxChars E (snd kw)) as Hec.
    assert (inject_Z (snd kw) <= maxChars)%Q as Hle by lra.
    pose proof (firstFit_within_cap maxChars E (snd kw) Hle) as Hew.
    rewrite Hec in Hew. rewrite Z.add_0_l in Hkc.
    rewrite Hkc in Hew at 1. exact Hew.
  - rewrite Hkp. rewrite Hkc, Z.add_0_l in Hkw. exact Hkw.
  - rewrite Hkp. apply firstFit_sublist.
  - rewrite Hep. apply firstFit_sublist.
Qed.

(** C1. For every budget [maxChars] that a number of characters can be, a
    whole number from 0 to [2 ^ 50], and all lists [K] of keyword items and
    [E] of embeddings items, the items returned by
    [fuseContext K E maxChars] total at most [maxChars] characters. The
    result is the keyword portion (a sublist of [K]) followed by the
    embeddings portion (a sublist of [E]); when [E] is not empty the
    keyword portion totals at most [0.8 * maxChars]; when [E] is empty a
    keyword item may take the whole budget. (On these budgets the product
    of doubles [maxChars * 0.8] and the exact product admit the same
    counts; see [maxKeywordChars].) *)
Theorem fuseContext_within_budget
    (K E : list ContextItem) (budget : Z) (Hbudget : 0 <= budget <= 2 ^ 50) :
  let maxChars := inject_Z budget in
  (inject_Z (totalChars (fuseContext K E maxChars)) <= maxChars)%Q /\
  (fuseContext K E maxChars =
     keywordPortion K E maxChars ++ embeddingsPortion K E maxChars /\
   sublist (keywordPortion K E maxChars) K /\
   sublist (embeddingsPortion K E maxChars) E) /\
  (E <> [] ->
   (inject_Z (totalChars (keywordPortion K E maxChars)) <= 0.8 * maxChars)%Q /\
   5 * totalChars (keywordPortion K E maxChars) <= 4 * budget) /\
  (E = [] -> forall item : ContextItem,
     (inject_Z (textLength item) <= maxChars)%Q ->
     fuseContext [item] E maxChars = [item]).
Proof.
  intros maxChars.
  assert (0 <= maxChars)%Q as Hnonneg.
  { unfold maxChars. change 0%Q with (inject_Z 0). rewrite <- Zle_Qle. lia. }
  destruct (fuseContext_within_caps K E maxChars Hnonneg) as (Htotal & Hkw & Hsubk & Hsube).
  split; [exact Htotal|]. split; [|split].
  - split; [apply fuseContext_portions|]. split; assumption.
  - intros HE. rewrite (maxKeywordChars_nonempty E maxChars HE) in Hkw.
    assert (inject_Z (totalChars (keywordPortion K E maxChars)) <= 0.8 * maxChars)%Q
      as Hcap by lra.
    split; [exact Hcap|].
    assert (inject_Z (5 * totalChars (keywordPortion K E maxChars)) <=
            inject_Z (4 * budget))%Q as Hwhole.
    { rewrite !inject_Z_mult. fold maxChars.
      change (inject_Z 5) with 5%Q. change (inject_Z 4) with 4%Q. lra. }
    now rewrite <- Zle_Qle in Hwhole.
  - intros -> item Hfit. rewrite fuseContext_firstFit. cbv zeta.
    unfold maxKeywordChars. simpl length. simpl Z.ltb.
    rewrite firstFit_single_fits by (now rewrite Z.add_0_l).
    reflexivity.
Qed.

(** A run of C1: two items of 50 characters under a budget of 100. *)
Lemma fuseContext_within_budget_witness :
  let K := [searchItem "/w/a.ts" (repeatChar "a" 50)] in
  let E := [embeddingsItem "/w/b.ts" (repeatChar "b" 50)] in
  0 <= 100 <= 2 ^ 50 /\
  (inject_Z (totalChars (fuseContext K E (inject_Z 100))) <= inject_Z 100)%Q /\
  (inject_Z (totalChars (keywordPortion K E (inject_Z 100))) <= 0.8 * inject_Z 100)%Q /\
  fuseContext K E (inject_Z 100) = K ++ E.
Proof.
  intros K E.
  assert (0 <= 100 <= 2 ^ 50) as Hbudget by (split; [lia|vm_compute; discriminate]).
  destruct (fuseContext_within_budget K E 100 Hbudget) as (Htot & _ & Hkw & _).
  split; [exact Hbudget|]. split; [exact Htot|]. split.
  - apply Hkw. discriminate.
  - reflexivity.
Defined.

(** C2. [fuseContext] is greedy first-fit: the keyword items are walked in
    order against the keyword cap, then the embeddings items in order
    against the full budget, continuing from the count the keyword items
    reached; an item is taken, whole, exactly when the running count plus
    its length stays within the cap, and a skipped item does not stop the
    walk: a smaller item after an oversized one is still taken. With one
    keyword item of 90 characters, one embeddings item of 50 characters
    and a budget of 100 the result is the embeddings item alone. *)
Theorem fuseContext_greedy_first_fit
    (K E : list ContextItem) (maxChars : Q) (big small k e : ContextItem) :
  (let kw := firstFit (maxKeywordChars E maxChars) 0 K in
   let em := firstFit maxChars (snd kw) E in
   fuseContext K E maxChars = fst kw ++ fst em /\
   snd kw = totalChars (fst kw) /\
   sublist (fst kw) K /\ sublist (fst em) E) /\
  ((maxChars < inject_Z (textLength big))%Q ->
   (inject_Z (textLength small) <= maxChars)%Q ->
   fuseContext [big; small] [] maxChars = [small] /\
   fuseContext [] [big; small] maxChars = [small]) /\
  (String.length (text k) = 90%nat -> String.length (text e) = 50%nat ->
   fuseContext [k] [e] 100 = [e]).
Proof.
  split; [|split].
  - cbv zeta. split; [apply fuseContext_firstFit|]. split; [|split].
    + rewrite firstFit_count. lia.
    + apply firstFit_sublist.
    + apply firstFit_sublist.
  - intros Hbig Hsmall.
    assert (forall cap : Q, (cap == maxChars)%Q ->
              firstFit cap 0 [big; small] = ([small], textLength small)) as Hff.
    { intros cap Hcap. simpl. rewrite !Z.add_0_l.
      destruct (Qle_bool (inject_Z (textLength big)) cap) eqn:Hb.
      - apply Qle_bool_iff in Hb. lra.
      - destruct (Qle_bool (inject_Z (textLength small)) cap) eqn:Hs; [reflexivity|].
        assert (Qle_bool (inject_Z (textLength small)) cap = true); [|congruence].
        apply Qle_bool_iff. lra. }
    split; rewrite fuseContext_firstFit; cbv zeta.
    + unfold maxKeywordChars. simpl length. simpl Z.ltb.
      rewrite Hff by reflexivity. reflexivity.
    + replace (firstFit (maxKeywordChars [big; small] maxChars) 0 [])
        with (@nil ContextItem, 0) by reflexivity.
      cbn [fst snd]. rewrite Hff by reflexivity. reflexivity.
  - intros Hk He. rewrite fuseContext_firstFit. cbv zeta.
    unfold maxKeywordChars. simpl length. simpl Z.ltb.
    simpl firstFit. unfold textLength. rewrite Hk, He. reflexivity.
Qed.

(** The 90/50/100 scenario of C2 on concrete items, and the skip-and-go-on
    behaviour on a budget of 10. *)
Lemma fuseContext_greedy_first_fit_witness :
  let k := searchItem "/w/a.ts" (repeatChar "a" 90) in
  let e := embeddingsItem "/w/b.ts" (repeatChar "b" 50) in
  let big := searchItem "/w/c.ts" (repeatChar "c" 11) in
  let small := searchItem "/w/d.ts" (repeatChar "d" 10) in
  (String.length (text k) = 90%nat /\ String.length (text e) = 50%nat /\
   fuseContext [k] [e] 100 = [e]) /\
  ((10 < inject_Z (textLength big))%Q /\ (inject_Z (textLength small) <= 10)%Q /\
   fuseContext [big; small] [] 10 = [small]).
Proof.
  intros k e big small.
  destruct (fuseContext_greedy_first_fit [k] [e] 10 big small k e)
    as (_ & Hskip & Hscenario).
  assert (10 < inject_Z (textLength big))%Q as Hb by (vm_compute; reflexivity).
  assert (inject_Z (textLength small) <= 10)%Q as Hs by (vm_compute; discriminate).
  split.
  - split; [reflexivity|]. split; [reflexivity|].
    apply Hscenario; reflexivity.
  - split; [exact Hb|]. split; [exact Hs|].
    exact (proj1 (Hskip Hb Hs)).
Defined.

(** C10. For every (non-negative) budget, zero included, the items with an
    empty text are all taken, wherever they stand in the keyword or the
    embeddings list and whatever was spent before them: the empty-text
    items of the result are those of [K] followed by those of [E]. With
    a budget of 0 the result is exactly these items. *)
Theorem fuseContext_keeps_empty_items
    (K E : list ContextItem) (maxChars : Q) (Hbudget : (0 <= maxChars)%Q) :
  List.filter isEmptyText (fuseContext K E maxChars) =
    List.filter isEmptyText K ++ List.filter isEmptyText E /\
  (forall item : ContextItem,
     text item = EmptyString -> In item K \/ In item E ->
     In item (fuseContext K E maxChars)) /\
  fuseContext K E 0 = List.filter isEmptyText K ++ List.filter isEmptyText E.
Proof.
  pose proof (maxKeywordChars_bounds E maxChars Hbudget) as [Hk0 Hkm].
  assert (List.filter isEmptyText (fuseContext K E maxChars) =
          List.filter isEmptyText K ++ List.filter isEmptyText E) as Hfilter.
  { rewrite fuseContext_firstFit. cbv zeta. rewrite List.filter_app.
    rewrite (firstFit_keeps_empty _ K 0 Hk0).
    rewrite (firstFit_keeps_empty maxChars E); [reflexivity|].
    pose proof (firstFit_within_cap _ K 0 Hk0). lra. }
  split; [exact Hfilter|]. split.
  - intros item Htext Hin.
    assert (isEmptyText item = true) as Hempty.
    { unfold isEmptyText, textLength. now rewrite Htext. }
    assert (In item (List.filter isEmptyText K ++ List.filter isEmptyText E)) as Hin'.
    { apply in_or_app. destruct Hin as [Hin|Hin]; [left|right];
        apply List.filter_In; split; assumption. }
    rewrite <- Hfilter in Hin'. apply List.filter_In in Hin'. tauto.
  - rewrite fuseContext_firstFit. cbv zeta.
    rewrite (firstFit_zero_cap (maxKeywordChars E 0) K).
    + simpl. now rewrite (firstFit_zero_cap 0 E).
    + unfold maxKeywordChars. destruct (0 <? Z.of_nat (length E)); lra.
Qed.

(** A run of C10: the budget of 5 is spent after [more]; the empty item
    behind it is taken all the same, the one-character item is not. *)
Lemma fuseContext_keeps_empty_items_witness :
  let full := searchItem "/w/a.ts" "abcd" in
  let none := searchItem "/w/b.ts" EmptyString in
  let more := embeddingsItem "/w/c.ts" "x" in
  let late := embeddingsItem "/w/d.ts" EmptyString in
  let extra := embeddingsItem "/w/e.ts" "z" in
  (0 <= 5)%Q /\
  fuseContext [full; none] [more; late; extra] 5 = [full; none; more; late] /\
  In late (fuseContext [full; none] [more; late; extra] 5) /\
  fuseContext [full; none] [more; late; extra] 0 = [none; late].
Proof.
  intros full none more late extra.
  assert (0 <= 5)%Q as H0 by (vm_compute; discriminate).
  destruct (fuseContext_keeps_empty_items [full; none] [more; late; extra] 5 H0)
    as (_ & Hin & Hzero).
  split; [exact H0|]. split; [vm_compute; reflexivity|]. split.
  - apply Hin; [reflexivity|]. right. right. left. reflexivity.
  - exact Hzero.
Defined.

End FusionFacts.

(** ** Priority context *)

Module PriorityFacts.
Import JS Priority.

(** [split(/\W+/)] leaves no separator inside a token. *)
Lemma splitNonWordFrom_tokens (s : string) :
  forall (inRun : bool) (w : string),
    In w (splitNonWordFrom inRun s) -> allWordChars w = true.
Proof.
  induction s as [|c s IH]; intros inRun w Hin; simpl in Hin.
  - destruct Hin as [<-|[]]. reflexivity.
  - destruct (isWordChar c) eqn:Hc.
    + destruct (splitNonWordFrom false s) as [|w0 ws] eqn:Hs.
      * destruct Hin as [<-|[]]. simpl. now rewrite Hc.
      * destruct Hin as [<-|Hin].
        -- simpl. rewrite Hc. apply (IH false). rewrite Hs. now left.
        -- apply (IH false). rewrite Hs. now right.
    + destruct inRun.
      * now apply (IH true).
      * destruct Hin as [<-|Hin]; [reflexivity|]. now apply (IH true).
Qed.

Lemma wordsOf_tokens (input w : string) :
  In w (wordsOf input) -> allWordChars w = true.
Proof.
  unfold wordsOf, splitNonWord. intros Hin.
  apply List.filter_In in Hin. destruct Hin as [Hin _].
  now apply splitNonWordFrom_tokens in Hin.
Qed.

Lemma member_In (k : string) (ks : list string) : member k ks = true <-> In k ks.
Proof.
  unfold member. rewrite existsb_exists. split.
  - intros (x & Hin & Heq). apply String.eqb_eq in Heq. now subst.
  - intros Hin. exists k. split; [exact Hin|apply String.eqb_refl].
Qed.

(** A key with a separator in it is never found among the words. *)
Lemma bagHas_not_a_word (input p : string) :
  allWordChars p = false -> member p objectPrototypeKeys = false ->
  bagHas (wordsOf input) p = false.
Proof.
  intros Hp Hproto. unfold bagHas. rewrite Hproto, orb_false_r.
  destruct (member p (wordsOf input)) eqn:Hm; [|reflexivity].
  apply member_In, wordsOf_tokens in Hm. congruence.
Qed.

Lemma getCurrentSelectionContext_selected (editor : VSCodeEditor)
    (selection : ActiveTextEditorSelection) :
  getActiveTextEditorSelection editor = Some selection ->
  selectedText selection <> EmptyString ->
  getCurrentSelectionContext editor =
    [ mkContextItem (selectedText selection) (selectionFileUri selection)
                    (selectionRange selection) (Some SourceSelection) None None None ].
Proof.
  intros Hsel Htext. unfold getCurrentSelectionContext. rewrite Hsel.
  destruct (String.eqb (selectedText selection) EmptyString) eqn:He.
  - apply String.eqb_eq in He. contradiction.
  - destruct (selectionRange selection) as [[[l1 c1] [l2 c2]]|]; reflexivity.
Qed.

Lemma getCurrentSelectionContext_length (editor : VSCodeEditor) :
  (length (getCurrentSelectionContext editor) <= 1)%nat.
Proof.
  unfold getCurrentSelectionContext.
  destruct (getActiveTextEditorSelection editor) as [selection|]; simpl; [|lia].
  destruct (String.eqb (selectedText selection) EmptyString); simpl; lia.
Qed.

Lemma getVisibleEditorContext_length (editor : VSCodeEditor) :
  (length (getVisibleEditorContext editor) <= 1)%nat.
Proof.
  unfold getVisibleEditorContext.
  destruct (getActiveTextEditorVisibleContent editor) as [visible|]; simpl; [|lia].
  destruct (visibleFileUri visible); simpl; [|lia].
  destruct (String.eqb (trim (content visible)) EmptyString); simpl; lia.
Qed.

Section Readme.

Variable ViewRange : Type.
Variable MAX_BYTES_PER_FILE : Z.
Variable truncateTextNearestLine : string -> Z -> string * ViewRange.
Variable viewRangeToRange : ViewRange -> Range.
Variable workspace : Workspace.

Local Abbreviation readme :=
  (getReadmeContext ViewRange MAX_BYTES_PER_FILE truncateTextNearestLine
                    viewRangeToRange workspace).

Local Abbreviation priority :=
  (getPriorityContext ViewRange MAX_BYTES_PER_FILE truncateTextNearestLine
                      viewRangeToRange workspace).

Lemma getReadmeContext_length (items : list ContextItem) :
  readme = Resolved items -> (length items <= 1)%nat.
Proof.
  unfold getReadmeContext, andThen.
  destruct (findFiles workspace readmeGlobalPattern 1) as [found|]; [|discriminate].
  destruct found as [|readmeUri rest]; [intros [= <-]; simpl; lia|].
  destruct (String.eqb (path readmeUri) EmptyString); [intros [= <-]; simpl; lia|].
  destruct (openTextDocument workspace readmeUri) as [readmeText|]; [|discriminate].
  destruct (truncateTextNearestLine readmeText MAX_BYTES_PER_FILE) as [t r].
  destruct (String.length t =? 0)%nat; intros [= <-]; simpl; lia.
Qed.

(** The if/else-if chain of [getPriorityContext], branch by branch. *)
Lemma getPriorityContext_branches (text : string) (editor : VSCodeEditor)
    (retrieved : list ContextItem) :
  let out := priority text editor retrieved in
  let selection := getCurrentSelectionContext editor in
  (selection <> [] /\ out = Resolved selection) \/
  (selection = [] /\ needsUserAttentionContext text = true /\
   out = Resolved (getVisibleEditorContext editor)) \/
  (selection = [] /\ needsUserAttentionContext text = false /\
   needsReadmeContext editor text = true /\
   out = if containsREADME retrieved then Resolved [] else readme) \/
  (selection = [] /\ needsUserAttentionContext text = false /\
   needsReadmeContext editor text = false /\ out = Resolved []).
Proof.
  cbv zeta. unfold getPriorityContext.
  destruct (getCurrentSelectionContext editor) as [|item rest] eqn:Hsel.
  - simpl. right.
    destruct (needsUserAttentionContext text); [left; auto|right].
    destruct (needsReadmeContext editor text); [left|right; auto].
    repeat split; try reflexivity.
    destruct (containsREADME retrieved); simpl; [reflexivity|].
    now destruct (getReadmeContext _ _ _ _ _).
  - left. split; [discriminate|reflexivity].
Qed.

(** C4. With an active, non-empty selection in the editor the priority
    context is exactly one item covering that selection, whatever the
    query text and whatever was retrieved. And for every query one branch
    at most contributes: the output is the selection context, or the
    visible editor content, or the README context (or nothing), never
    a mix, so that it holds one item at most. *)
Theorem getPriorityContext_selection_first
    (text : string) (editor : VSCodeEditor) (retrieved : list ContextItem) :
  (forall selection : ActiveTextEditorSelection,
     getActiveTextEditorSelection editor = Some selection ->
     selectedText selection <> EmptyString ->
     priority text editor retrieved =
       Resolved [ mkContextItem (selectedText selection) (selectionFileUri selection)
                                (selectionRange selection) (Some SourceSelection)
                                None None None ]) /\
  (let out := priority text editor retrieved in
   let selection := getCurrentSelectionContext editor in
   ((selection <> [] /\ out = Resolved selection) \/
    (selection = [] /\ needsUserAttentionContext text = true /\
     out = Resolved (getVisibleEditorContext editor)) \/
    (selection = [] /\ needsUserAttentionContext text = false /\
     needsReadmeContext editor text = true /\
     out = if containsREADME retrieved then Resolved [] else readme) \/
    (selection = [] /\ needsUserAttentionContext text = false /\
     needsReadmeContext editor text = false /\ out = Resolved [])) /\
   (forall items : list ContextItem, out = Resolved items -> (length items <= 1)%nat)).
Proof.
  split.
  - intros selection Hsel Htext.
    unfold getPriorityContext.
    rewrite (getCurrentSelectionContext_selected editor selection Hsel Htext).
    reflexivity.
  - cbv zeta. split; [apply getPriorityContext_branches|].
    intros items Hout.
    destruct (getPriorityContext_branches text editor retrieved)
      as [[_ H]|[(_ & _ & H)|[(_ & _ & _ & H)|(_ & _ & _ & H)]]];
      cbv zeta in H; rewrite H in Hout.
    + injection Hout as <-. apply getCurrentSelectionContext_length.
    + injection Hout as <-. apply getVisibleEditorContext_length.
    + destruct (containsREADME retrieved).
      * injection Hout as <-. simpl. lia.
      * now apply getReadmeContext_length.
    + injection Hout as <-. simpl. lia.
Qed.

(** The entry ['?'] of [questionIndicators] is never found in the bag of
    words: the words are cut at every character that is not a word
    character, the question mark among them. *)
Lemma questionMark_never_in_bag (input : string) :
  bagHas (wordsOf input) "?" = false.
Proof. apply bagHas_not_a_word; reflexivity. Qed.

(** The question indicator is looked up among the words of the whole
    input; the extracted question only has to be there. *)
Lemma needsReadmeContext_true (editor : VSCodeEditor) (input : string) :
  needsReadmeContext editor input = true ->
  (exists q : string, In q ["what"; "how"; "describe"; "explain"] /\
                      In q (wordsOf (toLowerCase input))) /\
  existsb (bagHas (wordsOf (toLowerCase input)))
          (projectSignifiers ++ rootSignifier editor) = true.
Proof.
  unfold needsReadmeContext.
  destruct (extractQuestion (toLowerCase input)) as [question|]; [|discriminate].
  destruct (String.eqb question EmptyString); [discriminate|].
  intros H. apply andb_prop in H. destruct H as [Hq Hp]. split; [|exact Hp].
  apply existsb_exists in Hq. destruct Hq as (q & Hin & Hhas).
  exists q. simpl in Hin.
  destruct Hin as [<-|[<-|[<-|[<-|[<-|[]]]]]];
    try (split; [simpl; tauto|];
         unfold bagHas in Hhas; apply orb_prop in Hhas;
         destruct Hhas as [Hm|Hm]; [now apply member_In|discriminate]).
  rewrite questionMark_never_in_bag in Hhas. discriminate.
Qed.

(** C5. The query "what is this project?", with no selection and no README
    among the retrieved items, has the README fetched and returned as the
    priority context. The query "this project?" holds a literal question
    mark and the signifier [project], yet the README branch does not fire:
    the ['?'] of [questionIndicators] cannot be met by any input. *)
Theorem needsReadmeContext_question_mark_alone
    (editor : VSCodeEditor) (retrieved : list ContextItem) :
  (forall input : string, bagHas (wordsOf input) "?" = false) /\
  (needsUserAttentionContext "this project?" = false /\
   extractQuestion (toLowerCase "this project?") = Some "this project?" /\
   member "project" (wordsOf (toLowerCase "this project?")) = true /\
   needsReadmeContext editor "this project?" = false) /\
  (getCurrentSelectionContext editor = [] ->
   priority "this project?" editor retrieved = Resolved []) /\
  (getCurrentSelectionContext editor = [] -> containsREADME retrieved = false ->
   needsReadmeContext editor "what is this project?" = true /\
   priority "what is this project?" editor retrieved = readme).
Proof.
  assert (needsReadmeContext editor "this project?" = false) as Hno.
  { unfold needsReadmeContext.
    change (extractQuestion (toLowerCase "this project?")) with (Some "this project?").
    cbv iota beta. change (String.eqb "this project?" EmptyString) with false.
    cbv iota zeta.
    replace (existsb (bagHas (wordsOf (toLowerCase "this project?"))) questionIndicators)
      with false by (vm_compute; reflexivity).
    reflexivity. }
  assert (needsReadmeContext editor "what is this project?" = true) as Hyes.
  { unfold needsReadmeContext.
    change (extractQuestion (toLowerCase "what is this project?"))
      with (Some "what is this project?").
    cbv iota beta. change (String.eqb "what is this project?" EmptyString) with false.
    cbv iota zeta. rewrite existsb_app.
    replace (existsb (bagHas (wordsOf (toLowerCase "what is this project?")))
                     questionIndicators) with true by (vm_compute; reflexivity).
    replace (existsb (bagHas (wordsOf (toLowerCase "what is this project?")))
                     projectSignifiers) with true by (vm_compute; reflexivity).
    reflexivity. }
  split; [exact questionMark_never_in_bag|]. split; [|split].
  - repeat split; try exact Hno; vm_compute; reflexivity.
  - intros Hsel. unfold getPriorityContext. rewrite Hsel, Hno. reflexivity.
  - intros Hsel Hreadme. split; [exact Hyes|].
    unfold getPriorityContext. rewrite Hsel, Hyes, Hreadme.
    change (needsUserAttentionContext "what is this project?") with false.
    cbv iota. simpl. now destruct readme.
Qed.

End Readme.

(** A run of C4: the query names the editor and asks about the project,
    the selection alone is returned. *)
Lemma getPriorityContext_selection_first_witness :
  getActiveTextEditorSelection Sample.editorSelecting = Some Sample.selection /\
  selectedText Sample.selection <> EmptyString /\
  needsUserAttentionContext "what does the editor show of this project?" = true /\
  Sample.priority "what does the editor show of this project?" Sample.editorSelecting [] =
    Resolved [ mkContextItem "let x = 1" (fileURI "/home/me/myrepo/a.ts")
                             (Some (mkRange (mkPosition 3 0) (mkPosition 3 9)))
                             (Some SourceSelection) None None None ].
Proof.
  assert (selectedText Sample.selection <> EmptyString) as Hne by discriminate.
  split; [reflexivity|]. split; [exact Hne|]. split; [vm_compute; reflexivity|].
  exact (proj1 (getPriorityContext_selection_first unit 4096 Sample.truncate
                  Sample.wholeFile Sample.workspace
                  "what does the editor show of this project?"
                  Sample.editorSelecting [])
               Sample.selection eq_refl Hne).
Defined.

(** A run of C5: with no selection and nothing retrieved, "this project?"
    yields no priority context, "what is this project?" yields the README. *)
Lemma needsReadmeContext_question_mark_alone_witness :
  getCurrentSelectionContext Sample.editorIdle = [] /\
  containsREADME [] = false /\
  Sample.priority "this project?" Sample.editorIdle [] = Resolved [] /\
  Sample.priority "what is this project?" Sample.editorIdle [] =
    Resolved [ mkContextItem "# myrepo" Sample.readmeUri (Some (Sample.wholeFile tt))
                             (Some SourceEditor) None None None ].
Proof.
  destruct (needsReadmeContext_question_mark_alone unit 4096 Sample.truncate
              Sample.wholeFile Sample.workspace Sample.editorIdle [])
    as (_ & _ & Hmark & Hwhat).
  split; [reflexivity|]. split; [reflexivity|]. split.
  - exact (Hmark eq_refl).
  - destruct (Hwhat eq_refl eq_refl) as [_ Hreadme].
    unfold Sample.priority. rewrite Hreadme. reflexivity.
Defined.

End PriorityFacts.

(** ** Fused retrieval *)

Module RetrievalFacts.
Import JS Priority Fusion Retrieval.

(** The wrapper never rejects: it resolves to what the provider returned,
    or to the empty list. *)
Lemma retrieveContextGracefully_resolves (promise : Outcome (list ContextItem)) :
  retrieveContextGracefully promise = Resolved (succeeded promise).
Proof. now destruct promise. Qed.

Lemma searchRemote_none (text : string) : searchRemote None text = Resolved [].
Proof. reflexivity. Qed.

Section Host.

Variable NUM_CODE_RESULTS NUM_TEXT_RESULTS : Z.
Variable isAgentTesting : bool.
Variable localeCompare : string -> string -> Z.
Variable ViewRange : Type.
Variable MAX_BYTES_PER_FILE : Z.
Variable truncateTextNearestLine : string -> Z -> string * ViewRange.
Variable viewRangeToRange : ViewRange -> Range.
Variable workspace : Workspace.

Local Abbreviation fusedQuery :=
  (getEnhancedContextFused NUM_CODE_RESULTS NUM_TEXT_RESULTS isAgentTesting
     localeCompare ViewRange MAX_BYTES_PER_FILE truncateTextNearestLine
     viewRangeToRange workspace).

Local Abbreviation fusion :=
  (fusedOfSucceeded NUM_CODE_RESULTS NUM_TEXT_RESULTS isAgentTesting localeCompare).

Local Abbreviation priority :=
  (getPriorityContext ViewRange MAX_BYTES_PER_FILE truncateTextNearestLine
     viewRangeToRange workspace).

Lemma searchSymf_none (editor : VSCodeEditor) (text : string) :
  searchSymf isAgentTesting localeCompare None editor text false = Resolved [].
Proof. reflexivity. Qed.

(** The fused query is the priority step applied to the fusion of what
    the providers that succeeded returned. *)
Lemma getEnhancedContextFused_unfold (strategy : ConfigurationUseContext)
    (editor : VSCodeEditor) (text : string) (providers : Providers) (maxChars : Q) :
  strategy <> StrategyNone ->
  fusedQuery strategy editor text providers maxChars =
    (await priorityContext <-
       priority text editor (fusion strategy editor text providers maxChars) ;;
     Resolved (priorityContext ++ fusion strategy editor text providers maxChars)).
Proof.
  intros Hstrategy. unfold getEnhancedContextFused, fusedOfSucceeded.
  destruct providers as [emb sy rem]. cbn [localEmbeddings symf remoteSearch].
  destruct strategy; [congruence| | |];
    cbn [isStrategyNone isStrategyKeyword isStrategyEmbeddings negb andb];
    rewrite ?andb_false_r, ?andb_true_r.
  - (* embeddings only *)
    rewrite retrieveContextGracefully_resolves. reflexivity.
  - (* keyword only *)
    destruct sy as [runner|], rem as [remote|]; cbn [isSome];
      rewrite ?retrieveContextGracefully_resolves; reflexivity.
  - (* unrestricted *)
    destruct sy as [runner|], rem as [remote|]; cbn [isSome];
      rewrite ?retrieveContextGracefully_resolves; reflexivity.
Qed.

(** C3. On the fused path (strategy not [none]), whatever each provider's
    query does, resolve or reject, the fused query is the priority step
    applied to the fusion of the results of the providers that succeeded,
    a failed provider counting for an empty list: it resolves whenever the
    priority step does, and a rejection it ends in is one of the priority
    step, never one of a provider. *)
Theorem getEnhancedContextFused_provider_failures
    (strategy : ConfigurationUseContext) (editor : VSCodeEditor) (text : string)
    (providers : Providers) (maxChars : Q) (Hfused : strategy <> StrategyNone) :
  let fused := fusion strategy editor text providers maxChars in
  fusedQuery strategy editor text providers maxChars =
    (await priorityContext <- priority text editor fused ;;
     Resolved (priorityContext ++ fused)) /\
  (forall priorityContext : list ContextItem,
     priority text editor fused = Resolved priorityContext ->
     fusedQuery strategy editor text providers maxChars =
       Resolved (priorityContext ++ fused)) /\
  (forall reason : string,
     fusedQuery strategy editor text providers maxChars = Rejected reason ->
     priority text editor fused = Rejected reason).
Proof.
  cbv zeta. rewrite (getEnhancedContextFused_unfold _ _ _ _ _ Hfused).
  split; [reflexivity|]. split.
  - intros priorityContext ->. reflexivity.
  - intros reason.
    destruct (getPriorityContext _ _ _ _ _ _ _ _) as [p|r]; simpl; congruence.
Qed.

End Host.

(** A run of C3: the embeddings and the remote queries reject, symf finds
    one item; the fused context is that item. *)
Lemma getEnhancedContextFused_provider_failures_witness :
  StrategyAuto <> StrategyNone /\
  searchEmbeddingsLocal 12 3 (localEmbeddings SampleProviders.providers) "where is x set" =
    Rejected "embeddings: index unavailable" /\
  searchRemote (remoteSearch SampleProviders.providers) "where is x set" =
    Rejected "remote search: network error" /\
  SampleProviders.fusedQuery StrategyAuto SampleProviders.editor
      "where is x set" SampleProviders.providers 100 =
    Resolved [ mkContextItem "let x = 1" (fileURI "/home/me/myrepo/a.ts")
                 (Some (mkRange (mkPosition 0 0) (mkPosition 1 0)))
                 (Some SourceSearch) None None None ].
Proof.
  assert (StrategyAuto <> StrategyNone) as Hne by discriminate.
  split; [exact Hne|]. split; [reflexivity|]. split; [reflexivity|].
  destruct (getEnhancedContextFused_provider_failures 12 3 false
              SampleProviders.compareCodes unit 4096 Sample.truncate Sample.wholeFile
              Sample.workspace StrategyAuto SampleProviders.editor "where is x set"
              SampleProviders.providers 100 Hne) as (_ & Hresolves & _).
  apply (Hresolves []). vm_compute. reflexivity.
Defined.

End RetrievalFacts.

(** ** Feature flags *)

Module FlagsFacts.
Import JS Flags StringFacts.

Lemma recordGet_recordSet (name : string) (value : bool) (record : FlagRecord) :
  recordGet name (recordSet name value record) = Some value.
Proof.
  induction record as [|[k v] rest IH]; simpl.
  - now rewrite String.eqb_refl.
  - destruct (String.eqb k name) eqn:Hk; simpl; now rewrite Hk.
Qed.

(** Notifying touches the subscription objects and the log of calls only. *)
Lemma notifyEntry_featureFlags (s : State) (entry : string * Ref) :
  featureFlags (notifyEntry s entry) = featureFlags s.
Proof.
  unfold notifyEntry. destruct entry as [key0 r].
  destruct (deref r s) as [sub|]; [|reflexivity].
  now destruct (negb _).
Qed.

Lemma notifyFeatureFlagChanged_featureFlags (s : State) :
  featureFlags (notifyFeatureFlagChanged s) = featureFlags s.
Proof.
  unfold notifyFeatureFlagChanged. generalize (subscriptions s) as entries.
  intros entries. revert s.
  induction entries as [|entry rest IH]; intros s; simpl; [reflexivity|].
  now rewrite IH, notifyEntry_featureFlags.
Qed.

(** A remote evaluation is made exactly on a cache miss (flags enabled). *)
Lemma evaluateFeatureFlagStart_miss (endpoint : string) (flagName : FeatureFlag)
    (now : Z) (s : State) :
  evaluateFeatureFlagStart false endpoint flagName now s = AwaitingRemote endpoint <->
  fst (getFromCache flagName endpoint now s) = None.
Proof.
  unfold evaluateFeatureFlagStart.
  destruct (fst (getFromCache flagName endpoint now s)); split; congruence.
Qed.

(** C7. When [evaluateFeatureFlag] misses the cache and evaluates the flag
    remotely, and the remote call returns [null] or an error value, the
    method returns [false] and the cache holds [false] for that flag under
    that endpoint; nothing is thrown. [s0] is the state at the call, [s]
    the state when the response arrives. *)
Theorem evaluateFeatureFlag_fails_closed
    (endpoint : string) (flagName : FeatureFlag) (now now' : Z) (s0 s : State)
    (response : FlagResponse) :
  evaluateFeatureFlagStart false endpoint flagName now s0 = AwaitingRemote endpoint ->
  (response = FlagNull \/ exists message : string, response = FlagError message) ->
  exists s' : State,
    evaluateFeatureFlagResume endpoint flagName (Resolved response) s = (Resolved false, s') /\
    fst (getFromCache flagName endpoint now' s') = Some false /\
    evaluateFeatureFlagStart false endpoint flagName now' s' = Answered false.
Proof.
  intros _ Hfailed.
  set (flags := match featureFlags s !! endpoint with Some f => f | None => [] end).
  set (s1 := withFlags (<[endpoint := recordSet (flagString flagName) false flags]>
                          (featureFlags s)) s).
  assert (featureFlags (notifyFeatureFlagChanged s1) !! endpoint =
          Some (recordSet (flagString flagName) false flags)) as Hlookup.
  { rewrite notifyFeatureFlagChanged_featureFlags. unfold s1. simpl.
    apply lookup_insert_eq. }
  exists (notifyFeatureFlagChanged s1).
  assert (fst (getFromCache flagName endpoint now' (notifyFeatureFlagChanged s1)) =
          Some false) as Hcache.
  { unfold getFromCache. cbn [fst]. rewrite Hlookup. apply recordGet_recordSet. }
  split; [|split].
  - unfold evaluateFeatureFlagResume.
    destruct Hfailed as [->|[message ->]]; fold flags; fold s1;
      rewrite Hlookup, recordGet_recordSet; reflexivity.
  - exact Hcache.
  - unfold evaluateFeatureFlagStart. now rewrite Hcache.
Qed.

(** A run of C7: the cache is empty, the remote call returns an error. *)
Lemma evaluateFeatureFlag_fails_closed_witness :
  evaluateFeatureFlagStart false SampleFlags.endpoint CodyProJetBrains 5 initial =
    AwaitingRemote SampleFlags.endpoint /\
  exists s' : State,
    evaluateFeatureFlagResume SampleFlags.endpoint CodyProJetBrains
      (Resolved (FlagError "HTTP 500")) initial = (Resolved false, s') /\
    fst (getFromCache CodyProJetBrains SampleFlags.endpoint 6 s') = Some false /\
    evaluateFeatureFlagStart false SampleFlags.endpoint CodyProJetBrains 6 s' =
      Answered false.
Proof.
  assert (evaluateFeatureFlagStart false SampleFlags.endpoint CodyProJetBrains 5 initial =
          AwaitingRemote SampleFlags.endpoint) as Hmiss by reflexivity.
  split; [exact Hmiss|].
  apply (evaluateFeatureFlag_fails_closed SampleFlags.endpoint CodyProJetBrains 5 6
           initial initial (FlagError "HTTP 500") Hmiss).
  right. exists "HTTP 500". reflexivity.
Defined.

(** The key looked up is never the key stored. *)
Lemma key_differs (endpoint prefixFilter : string) :
  endpoint +:+ "#" +:+ prefixFilter <> prefixFilter.
Proof.
  intros Heq. apply (f_equal String.length) in Heq.
  rewrite !append_length in Heq. simpl in Heq. lia.
Qed.

Lemma mapGet_mapSet_other (key key' : string) (r : Ref) (m : SubscriptionMap) :
  key <> key' -> mapGet key (mapSet key' r m) = mapGet key m.
Proof.
  intros Hne. induction m as [|[k r0] rest IH]; simpl.
  - destruct (String.eqb key' key) eqn:He; [|reflexivity].
    apply String.eqb_eq in He. congruence.
  - destruct (String.eqb k key') eqn:Hk; simpl.
    + apply String.eqb_eq in Hk. subst k.
      destruct (String.eqb key' key) eqn:He; [|reflexivity].
      apply String.eqb_eq in He. congruence.
    + now rewrite IH.
Qed.

Lemma mapSet_In (key : string) (r : Ref) (m : SubscriptionMap) :
  In (key, r) (mapSet key r m).
Proof.
  induction m as [|[k r0] rest IH]; simpl; [now left|].
  destruct (String.eqb k key) eqn:Hk.
  - apply String.eqb_eq in Hk. subst k. now left.
  - now right.
Qed.

(** State after the second branch of [onFeatureFlagChanged]: the new
    object is stored under [prefixFilter], a timer is armed, and the key
    [endpoint#prefixFilter] is still not in the map. *)
Lemma onFeatureFlagChanged_fresh (endpoint prefixFilter : string) (callback : Callback)
    (s : State) :
  mapGet (endpoint +:+ "#" +:+ prefixFilter) (subscriptions s) = None ->
  let result := onFeatureFlagChanged endpoint prefixFilter callback s in
  fst result = Unregister (endpoint +:+ "#" +:+ prefixFilter) callback /\
  mapGet (endpoint +:+ "#" +:+ prefixFilter) (subscriptions (snd result)) = None /\
  In (prefixFilter, length (heap s)) (subscriptions (snd result)) /\
  deref (length (heap s)) (snd result) =
    Some (mkSubscription (computeFeatureFlagSnapshot s endpoint (Some prefixFilter))
                         [callback]) /\
  (exists handle : TimerHandle, nextRefreshTimeout (snd result) = Some handle).
Proof.
  intros Hmiss. cbv zeta. unfold onFeatureFlagChanged. rewrite Hmiss.
  assert (forall h : list Subscription, forall x : Subscription,
            (h ++ [x]) !! length h = Some x) as Hlast.
  { intros h x. induction h as [|y h IH]; simpl; [reflexivity|exact IH]. }
  destruct (nextRefreshTimeout s) as [handle|] eqn:Htimer; cbn.
  - rewrite Htimer. cbn. repeat split.
    + rewrite mapGet_mapSet_other by apply key_differs. exact Hmiss.
    + apply mapSet_In.
    + unfold deref. cbn. apply Hlast.
    + now exists handle.
  - rewrite Htimer. cbn. repeat split.
    + rewrite mapGet_mapSet_other by apply key_differs. exact Hmiss.
    + apply mapSet_In.
    + unfold deref. cbn. apply Hlast.
    + now exists (nextHandle s).
Qed.

(** Notifying leaves the map and the timer as they are. *)
Lemma notifyEntry_bookkeeping (s : State) (entry : string * Ref) :
  subscriptions (notifyEntry s entry) = subscriptions s /\
  nextRefreshTimeout (notifyEntry s entry) = nextRefreshTimeout s.
Proof.
  unfold notifyEntry. destruct entry as [key0 r].
  destruct (deref r s) as [sub|]; [|auto].
  destruct (negb _); auto.
Qed.

Lemma notifyFeatureFlagChanged_bookkeeping (s : State) :
  subscriptions (notifyFeatureFlagChanged s) = subscriptions s /\
  nextRefreshTimeout (notifyFeatureFlagChanged s) = nextRefreshTimeout s.
Proof.
  unfold notifyFeatureFlagChanged. generalize (subscriptions s) at 1 3 as entries.
  intros entries. revert s.
  induction entries as [|entry rest IH]; intros s; simpl; [auto|].
  destruct (IH (notifyEntry s entry)) as [-> ->]. apply notifyEntry_bookkeeping.
Qed.

Lemma mapSet_nonempty (key : string) (r : Ref) (m : SubscriptionMap) : mapSet key r m <> [].
Proof.
  destruct m as [|[k r0] rest]; simpl; [discriminate|].
  destruct (String.eqb k key); discriminate.
Qed.

Lemma run_timerOnlyWithEntries (s : State) (op : Operation) :
  timerOnlyWithEntries s -> timerOnlyWithEntries (run s op).
Proof.
  unfold timerOnlyWithEntries. intros Hs.
  destruct op as [endpoint prefixFilter callback|u|endpoint data now
                 |endpoint flagName response|handle|]; cbn [run].
  - unfold onFeatureFlagChanged.
    destruct (mapGet _ (subscriptions s)) as [r|] eqn:Hget.
    + destruct (deref r s); cbn; exact Hs.
    + destruct (nextRefreshTimeout s) eqn:Ht; cbn; rewrite ?Ht; cbn;
        intros Hempty; now apply mapSet_nonempty in Hempty.
  - destruct u as [r callback|key callback]; cbn [unsubscribe].
    + destruct (deref r s); cbn; exact Hs.
    + destruct (mapGet key (subscriptions s)) as [r|]; [|exact Hs].
      destruct (deref r s) as [sub|]; [|exact Hs].
      cbv zeta.
      set (s2 := if (length (setDelete callback (callbacks sub)) =? 0)%nat
                 then _ else _).
      destruct (nextRefreshTimeout s2) as [handle|] eqn:Ht; [|intros _; exact Ht].
      destruct (length (subscriptions s2) =? 0)%nat eqn:Hlen; [reflexivity|].
      intros Hempty. rewrite Hempty in Hlen. discriminate.
  - unfold refreshFeatureFlagsResume.
    set (s1 := notifyFeatureFlagChanged _).
    set (s2 := match nextRefreshTimeout s1 with
               | Some handle => withTimeout None (clearTimeout handle s1)
               | None => s1
               end).
    assert (nextRefreshTimeout s2 = None) as Hnone.
    { unfold s2. destruct (nextRefreshTimeout s1) eqn:Ht; [reflexivity|exact Ht]. }
    destruct (0 <? Z.of_nat (length (subscriptions s2))) eqn:Hlen.
    + cbn. intros Hempty. rewrite Hempty in Hlen. discriminate.
    + intros _. exact Hnone.
  - unfold evaluateFeatureFlagResume. set (s1 := withFlags _ s).
    destruct (notifyFeatureFlagChanged_bookkeeping s1) as [Hsubs Htimer].
    assert (subscriptions (notifyFeatureFlagChanged s1) = [] ->
            nextRefreshTimeout (notifyFeatureFlagChanged s1) = None) as Hinv.
    { rewrite Hsubs, Htimer. exact Hs. }
    destruct (featureFlags (notifyFeatureFlagChanged s1) !! endpoint) as [flags|];
      [destruct (recordGet (flagString flagName) flags)|]; exact Hinv.
  - unfold fireTimer.
    destruct (List.find (fun t => Nat.eqb (fst t) handle) (pendingTimers s))
      as [[h action]|]; [|exact Hs].
    destruct action; cbn; [reflexivity|exact Hs].
  - exact Hs.
Qed.

Lemma runAll_timerOnlyWithEntries (ops : list Operation) :
  timerOnlyWithEntries (runAll ops).
Proof.
  unfold runAll.
  assert (forall s, timerOnlyWithEntries s -> timerOnlyWithEntries (fold_left run ops s))
    as Hfold.
  { induction ops as [|op rest IH]; intros s Hs; simpl; [exact Hs|].
    apply IH. now apply run_timerOnlyWithEntries. }
  apply Hfold. intros _. reflexivity.
Qed.

(** C8, on the code. A first subscription for [endpoint] and
    [prefixFilter] is stored under the key [prefixFilter], while the
    function it returns looks up [endpoint#prefixFilter]: calling that
    function changes nothing. The callback stays registered and the
    refresh timer stays armed although the only subscription was given
    back; on a fresh provider the timer is then still pending. *)
Theorem unsubscribe_leaves_timer_armed
    (endpoint prefixFilter : string) (callback : Callback) (s : State) :
  mapGet (endpoint +:+ "#" +:+ prefixFilter) (subscriptions s) = None ->
  let result := onFeatureFlagChanged endpoint prefixFilter callback s in
  unsubscribe (fst result) (snd result) = snd result /\
  In callback (registered (unsubscribe (fst result) (snd result))) /\
  (exists handle : TimerHandle,
     nextRefreshTimeout (unsubscribe (fst result) (snd result)) = Some handle) /\
  (subscriptions SampleFlags.unsubscribed = [(SampleFlags.prefixFilter, 0%nat)] /\
   registered SampleFlags.unsubscribed = [SampleFlags.listener] /\
   nextRefreshTimeout SampleFlags.unsubscribed = Some 1%nat /\
   isPending 1%nat SampleFlags.unsubscribed = true).
Proof.
  intros Hmiss.
  destruct (onFeatureFlagChanged_fresh endpoint prefixFilter callback s Hmiss)
    as (Hu & Hkey & Hin & Hobj & Htimer).
  cbv zeta.
  assert (unsubscribe (fst (onFeatureFlagChanged endpoint prefixFilter callback s))
                      (snd (onFeatureFlagChanged endpoint prefixFilter callback s)) =
          snd (onFeatureFlagChanged endpoint prefixFilter callback s)) as Hnoop.
  { rewrite Hu. unfold unsubscribe. now rewrite Hkey. }
  rewrite Hnoop. split; [reflexivity|]. split; [|split; [exact Htimer|]].
  - unfold registered. apply in_concat.
    exists [callback]. split; [|now left].
    apply in_map_iff. exists (prefixFilter, length (heap s)).
    split; [|exact Hin]. cbn [snd]. now rewrite Hobj.
  - repeat split; vm_compute; reflexivity.
Qed.

(** A run of C8 on a fresh provider. *)
Lemma unsubscribe_leaves_timer_armed_witness :
  mapGet (SampleFlags.endpoint +:+ "#" +:+ SampleFlags.prefixFilter)
         (subscriptions initial) = None /\
  SampleFlags.unsubscribed = snd SampleFlags.subscribed /\
  In SampleFlags.listener (registered SampleFlags.unsubscribed) /\
  exists handle : TimerHandle,
    nextRefreshTimeout SampleFlags.unsubscribed = Some handle.
Proof.
  assert (mapGet (SampleFlags.endpoint +:+ "#" +:+ SampleFlags.prefixFilter)
                 (subscriptions initial) = None) as Hmiss by reflexivity.
  destruct (unsubscribe_leaves_timer_armed SampleFlags.endpoint SampleFlags.prefixFilter
              SampleFlags.listener initial Hmiss) as (Hnoop & Hin & Htimer & _).
  split; [exact Hmiss|]. split; [exact Hnoop|]. split; [exact Hin|exact Htimer].
Defined.

(** C9, on the code. The subscription is stored under [prefixFilter], and
    [notifyFeatureFlagChanged] reads that key as [endpoint#prefixFilter]:
    the snapshot it compares is that of no endpoint in the cache, the
    empty string. So a refresh that changes the serialization of the
    flags under the prefix calls nobody, and a refresh that changes
    nothing calls the subscriber. *)
Theorem notifyFeatureFlagChanged_wrong_snapshot :
  (* the serialization changes between subscription and refresh; no call *)
  (computeFeatureFlagSnapshot (snd SampleFlags.subscribed) SampleFlags.endpoint
     (Some SampleFlags.prefixFilter) = EmptyString /\
   computeFeatureFlagSnapshot SampleFlags.refreshed SampleFlags.endpoint
     (Some SampleFlags.prefixFilter) = jsonStringify SampleFlags.flagsOn /\
   jsonStringify SampleFlags.flagsOn <> EmptyString /\
   registered SampleFlags.refreshed = [SampleFlags.listener] /\
   called SampleFlags.refreshed = []) /\
  (* the serialization is the same at subscription and after the refresh; a call *)
  (computeFeatureFlagSnapshot SampleFlags.cachedSubscribed SampleFlags.endpoint
     (Some SampleFlags.prefixFilter) = jsonStringify SampleFlags.flagsOn /\
   computeFeatureFlagSnapshot SampleFlags.cachedRefreshed SampleFlags.endpoint
     (Some SampleFlags.prefixFilter) = jsonStringify SampleFlags.flagsOn /\
   called SampleFlags.cachedSubscribed = [] /\
   called SampleFlags.cachedRefreshed = [SampleFlags.listener]).
Proof.
  split.
  - split; [vm_compute; reflexivity|]. split; [vm_compute; reflexivity|].
    split; [vm_compute; discriminate|]. split; vm_compute; reflexivity.
  - repeat split; vm_compute; reflexivity.
Qed.

End FlagsFacts.

(** ** Ignore rules *)

Module IgnoreFacts.
Import JS Paths IgnoreHelper StringFacts.

Lemma split_nonempty (sep : ascii) (s : string) : split sep s <> [].
Proof.
  destruct s as [|c s]; simpl; [discriminate|].
  destruct (Ascii.eqb c sep); [discriminate|].
  destruct (split sep s); discriminate.
Qed.

(** Splitting at a separator that stands between two strings. *)
Lemma split_append (sep : ascii) (a b : string) :
  split sep (a +:+ String sep b) = split sep a ++ split sep b.
Proof.
  induction a as [|c a IH]; simpl.
  - now rewrite Ascii.eqb_refl.
  - destruct (Ascii.eqb c sep); [now rewrite IH|].
    rewrite IH. pose proof (split_nonempty sep a) as Hne.
    destruct (split sep a) as [|w ws]; [congruence|reflexivity].
Qed.

Lemma split_leading (sep : ascii) (s : string) :
  split sep (String sep s) = EmptyString :: split sep s.
Proof. simpl. now rewrite Ascii.eqb_refl. Qed.

Lemma split_noSlash (s : string) : noSlash s = true -> split "/" s = [s].
Proof.
  induction s as [|c s IH]; simpl; [reflexivity|].
  intros H. apply andb_prop in H. destruct H as [Hc Hs].
  apply negb_true_iff in Hc. rewrite Hc, (IH Hs). reflexivity.
Qed.

Lemma join_cons (sep x : string) (y : string) (ys : list string) :
  join sep (x :: y :: ys) = x +:+ sep +:+ join sep (y :: ys).
Proof. reflexivity. Qed.

Lemma split_join (segments : list string) :
  segments <> [] -> forallb noSlash segments = true ->
  split "/" (join "/" segments) = segments.
Proof.
  induction segments as [|x rest IH]; [congruence|]. intros _ Hall.
  simpl in Hall. apply andb_prop in Hall. destruct Hall as [Hx Hrest].
  destruct rest as [|y ys].
  - simpl. now apply split_noSlash.
  - rewrite join_cons. change (x +:+ "/" +:+ join "/" (y :: ys))
      with (x +:+ String "/" (join "/" (y :: ys))).
    rewrite split_append, (split_noSlash x Hx), IH; [reflexivity|discriminate|exact Hrest].
Qed.

Lemma isPlainSegment_noSlash (segments : list string) :
  forallb isPlainSegment segments = true -> forallb noSlash segments = true.
Proof.
  induction segments as [|x rest IH]; simpl; [reflexivity|].
  intros H. apply andb_prop in H. destruct H as [Hx Hrest].
  rewrite (IH Hrest), andb_true_r.
  unfold isPlainSegment in Hx. now apply andb_prop in Hx.
Qed.

(** The segments of an absolute path in normal form, behind the empty
    string that stands before the leading slash. *)
Lemma split_absolutePath (segments : list string) :
  segments <> [] -> forallb isPlainSegment segments = true ->
  split "/" (absolutePath segments) = EmptyString :: segments.
Proof.
  intros Hne Hall. unfold absolutePath.
  change ("/" +:+ join "/" segments) with (String "/" (join "/" segments)).
  rewrite split_leading.
  now rewrite split_join by (auto using isPlainSegment_noSlash).
Qed.

(** Plain segments are pushed as they are. *)
Lemma normalizeSegments_plain (above : bool) (segments rest stack : list string) :
  forallb isPlainSegment segments = true ->
  normalizeSegments above (segments ++ rest) stack =
  normalizeSegments above rest (List.rev segments ++ stack).
Proof.
  revert stack. induction segments as [|x xs IH]; intros stack Hall; [reflexivity|].
  simpl in Hall. apply andb_prop in Hall. destruct Hall as [Hx Hxs].
  unfold isPlainSegment in Hx.
  apply andb_prop in Hx. destruct Hx as [Hx _].
  apply andb_prop in Hx. destruct Hx as [Hx Hdd].
  apply andb_prop in Hx. destruct Hx as [He Hd].
  apply negb_true_iff in He, Hd, Hdd.
  simpl. rewrite He, Hd, Hdd. simpl.
  rewrite (IH _ Hxs). now rewrite <- app_assoc.
Qed.

(** An absolute path in normal form is made of its segments. *)
Lemma normalizeSegments_absolutePath (segments : list string) :
  forallb isPlainSegment segments = true ->
  normalizeSegments false (split "/" (absolutePath segments)) [] = segments.
Proof.
  intros Hall. destruct segments as [|x xs]; [reflexivity|].
  rewrite split_absolutePath by (auto; discriminate).
  change (normalizeSegments false (EmptyString :: x :: xs) [])
    with (normalizeSegments false (x :: xs) []).
  rewrite <- (app_nil_r (x :: xs)) at 1.
  rewrite normalizeSegments_plain by exact Hall.
  cbn [normalizeSegments]. now rewrite app_nil_r, rev_involutive.
Qed.

(** The end of a string is the end of its last part. *)
Lemma endsWith_append (a b suffix : string) :
  (String.length suffix <= String.length b)%nat ->
  endsWith (a +:+ b) suffix = endsWith b suffix.
Proof.
  intros Hlen. unfold endsWith. rewrite append_length.
  replace (String.length suffix <=? String.length a + String.length b)%nat with true
    by (symmetry; apply Nat.leb_le; lia).
  replace (String.length suffix <=? String.length b)%nat with true
    by (symmetry; now apply Nat.leb_le).
  f_equal. f_equal.
  induction a as [|c a IH]; simpl; [reflexivity|].
  replace (S (String.length a + String.length b) - String.length suffix)%nat
    with (S (String.length a + String.length b - String.length suffix)) by lia.
  exact IH.
Qed.

Lemma join_app (sep : string) (xs ys : list string) :
  xs <> [] -> ys <> [] ->
  join sep (xs ++ ys) = join sep xs +:+ sep +:+ join sep ys.
Proof.
  intros Hxs Hys. induction xs as [|x rest IH]; [congruence|].
  destruct rest as [|y rest'].
  - destruct ys as [|z zs]; [congruence|reflexivity].
  - change ((x :: y :: rest') ++ ys) with (x :: y :: (rest' ++ ys)).
    rewrite !join_cons.
    change (y :: rest' ++ ys) with ((y :: rest') ++ ys).
    rewrite IH by discriminate. now rewrite !append_assoc.
Qed.

Lemma join_plain_nonempty (segments : list string) :
  segments <> [] -> forallb isPlainSegment segments = true ->
  isEmptyString (join "/" segments) = false.
Proof.
  destruct segments as [|x rest]; [congruence|]. intros _ Hall.
  simpl in Hall. apply andb_prop in Hall. destruct Hall as [Hx _].
  unfold isPlainSegment in Hx. repeat (apply andb_prop in Hx; destruct Hx as [Hx _]).
  apply negb_true_iff in Hx.
  destruct x as [|c x]; [discriminate|]. now destruct rest.
Qed.

(** Two levels up from [<dir>/.cody/ignore] is [<dir>]. *)
Lemma effectiveDirectory_of_cody_ignore (sch auth : string) (dir : list string) :
  forallb isPlainSegment dir = true ->
  ignoreFileEffectiveDirectory
    (mkURI sch auth (absolutePath (dir ++ [".cody"; "ignore"]))) =
  mkURI sch auth (absolutePath dir).
Proof.
  intros Hdir. unfold ignoreFileEffectiveDirectory, joinPath. cbn [scheme authority path].
  f_equal. unfold posixJoin.
  set (p := absolutePath (dir ++ [".cody"; "ignore"])).
  assert (isEmptyString p = false) as Hp by reflexivity.
  cbn [List.filter]. rewrite Hp. cbn [negb].
  assert (join "/" (p :: [".."; ".."]) =
          absolutePath (dir ++ [".cody"; "ignore"; ".."; ".."])) as Hjoin.
  { rewrite join_cons. unfold p, absolutePath.
    change (dir ++ [".cody"; "ignore"; ".."; ".."])
      with (dir ++ [".cody"; "ignore"] ++ [".."; ".."]).
    rewrite app_assoc, (join_app "/" (dir ++ [".cody"; "ignore"]) [".."; ".."]).
    - now rewrite !append_assoc.
    - destruct dir; discriminate.
    - discriminate. }
  change (negb (isEmptyString "..")) with true. cbv iota.
  rewrite Hjoin. unfold posixNormalize.
  replace (isEmptyString (absolutePath (dir ++ [".cody"; "ignore"; ".."; ".."])))
    with false by reflexivity.
  assert (isAbsolute (absolutePath (dir ++ [".cody"; "ignore"; ".."; ".."])) = true) as Habs.
  { reflexivity. }
  rewrite Habs.
  assert (endsWith (absolutePath (dir ++ [".cody"; "ignore"; ".."; ".."])) "/" = false)
    as Hend.
  { unfold absolutePath.
    change (dir ++ [".cody"; "ignore"; ".."; ".."])
      with (dir ++ [".cody"; "ignore"; ".."] ++ [".."]).
    rewrite app_assoc, join_app; [|destruct dir; discriminate|discriminate].
    rewrite <- !append_assoc. now rewrite endsWith_append by (simpl; lia). }
  rewrite Hend. cbn [negb].
  assert (normalizeSegments false
            (split "/" (absolutePath (dir ++ [".cody"; "ignore"; ".."; ".."]))) [] = dir)
    as Hsegments.
  { unfold absolutePath.
    change ("/" +:+ join "/" (dir ++ [".cody"; "ignore"; ".."; ".."]))
      with (String "/" (join "/" (dir ++ [".cody"; "ignore"; ".."; ".."]))).
    rewrite split_leading, split_join.
    - change (dir ++ [".cody"; "ignore"; ".."; ".."])
        with (dir ++ [".cody"; "ignore"] ++ [".."; ".."]).
      change (normalizeSegments false (EmptyString :: dir ++ [".cody"; "ignore"] ++ [".."; ".."]) [])
        with (normalizeSegments false (dir ++ [".cody"; "ignore"] ++ [".."; ".."]) []).
      rewrite app_assoc, normalizeSegments_plain.
      + rewrite rev_app_distr. simpl. now rewrite app_nil_r, rev_involutive.
      + rewrite forallb_app, Hdir. reflexivity.
    - destruct dir; discriminate.
    - rewrite forallb_app, (isPlainSegment_noSlash dir Hdir). reflexivity. }
  rewrite Hsegments.
  destruct dir as [|x xs]; [reflexivity|].
  rewrite join_plain_nonempty by (auto; discriminate). reflexivity.
Qed.

Lemma dropCommon_prefix (xs ys : list string) : dropCommon xs (xs ++ ys) = ([], ys).
Proof.
  induction xs as [|x xs IH]; simpl; [now destruct ys|].
  now rewrite String.eqb_refl.
Qed.

(** The folder of an ignore file, relative to the workspace root. *)
Lemma relativePath_of_effectiveDirectory (sch auth : string) (rootDir dir : list string) :
  forallb isPlainSegment rootDir = true -> forallb isPlainSegment dir = true ->
  relativePath (mkURI sch auth (absolutePath rootDir))
    (ignoreFileEffectiveDirectory
       (mkURI sch auth (absolutePath ((rootDir ++ dir) ++ [".cody"; "ignore"])))) =
  join "/" dir.
Proof.
  intros Hroot Hdir.
  rewrite effectiveDirectory_of_cody_ignore by (rewrite forallb_app, Hroot, Hdir; reflexivity).
  unfold relativePath, posixRelative. cbn [path].
  rewrite !normalizeSegments_absolutePath
    by (rewrite ?forallb_app, ?Hroot, ?Hdir; reflexivity).
  now rewrite dropCommon_prefix.
Qed.

(** C6. With the feature active and the root [file:///w] registered with
    the one ignore file [file:///w/.cody/ignore] of content [build/],
    [isIgnored(file:///w/build/out.js)] is [true] and
    [isIgnored(file:///w/src/out.js)] is [false]. The directory an ignore
    file applies to lies two segments above it: for [<dir>/.cody/ignore]
    it is [<dir>], and every line is prefixed with the path from the root
    to [<dir>]; with the same line in [file:///w/pkg/.cody/ignore] it is
    [pkg/build] that is ignored, not [build]. *)
Theorem isIgnored_cody_ignore_file
    (sch auth : string) (rootDir dir : list string) :
  (SampleIgnore.isIgnoredIn SampleIgnore.helper (fileURI "/w/build/out.js") = Resolved true /\
   SampleIgnore.isIgnoredIn SampleIgnore.helper (fileURI "/w/src/out.js") = Resolved false) /\
  (forallb isPlainSegment rootDir = true -> forallb isPlainSegment dir = true ->
   ignoreFileEffectiveDirectory
     (mkURI sch auth (absolutePath ((rootDir ++ dir) ++ [".cody"; "ignore"]))) =
     mkURI sch auth (absolutePath (rootDir ++ dir)) /\
   forall (content : string) (rules : GitIgnore.Ignore),
     addIgnoreFile (mkURI sch auth (absolutePath rootDir)) rules
       (mkIgnoreFileContent
          (mkURI sch auth (absolutePath ((rootDir ++ dir) ++ [".cody"; "ignore"])))
          content) =
     Resolved (fold_left (addIgnoreLine (join "/" dir)) (split "010" content) rules)) /\
  (SampleIgnore.isIgnoredIn SampleIgnore.nestedHelper (fileURI "/w/pkg/build/out.js") =
     Resolved true /\
   SampleIgnore.isIgnoredIn SampleIgnore.nestedHelper (fileURI "/w/build/out.js") =
     Resolved false).
Proof.
  split; [split; vm_compute; reflexivity|].
  split; [|split; vm_compute; reflexivity].
  intros Hroot Hdir.
  assert (forallb isPlainSegment (rootDir ++ dir) = true) as Hall.
  { rewrite forallb_app, Hroot, Hdir. reflexivity. }
  split; [now apply effectiveDirectory_of_cody_ignore|].
  intros content rules. unfold addIgnoreFile. cbn [ignoreUri ignoreContent].
  assert (ensureValidCodyIgnoreFile "ignoreFile.uri"
            (mkURI sch auth (absolutePath ((rootDir ++ dir) ++ [".cody"; "ignore"]))) =
          Resolved tt) as Hvalid.
  { unfold ensureValidCodyIgnoreFile, ensureAbsolute. cbn [path].
    replace (startsWith (absolutePath ((rootDir ++ dir) ++ [".cody"; "ignore"])) "/")
      with true by reflexivity.
    cbn [negb andThen].
    assert (endsWith (absolutePath ((rootDir ++ dir) ++ [".cody"; "ignore"]))
                     CODY_IGNORE_URI_PATH = true) as Hends.
    { unfold absolutePath.
      destruct (rootDir ++ dir) as [|x xs] eqn:Hsegs.
      - reflexivity.
      - rewrite (join_app "/" (x :: xs) [".cody"; "ignore"]) by discriminate.
        rewrite <- !append_assoc.
        rewrite endsWith_append by (simpl; lia). reflexivity. }
    now rewrite Hends. }
  rewrite Hvalid. cbn [andThen].
  now rewrite relativePath_of_effectiveDirectory.
Qed.

(** A run of C6 for the root [/w] and the folder [pkg/lib]. *)
Lemma isIgnored_cody_ignore_file_witness :
  forallb isPlainSegment ["w"] = true /\ forallb isPlainSegment ["pkg"; "lib"] = true /\
  ignoreFileEffectiveDirectory (fileURI "/w/pkg/lib/.cody/ignore") = fileURI "/w/pkg/lib" /\
  addIgnoreFile (fileURI "/w") getDefaultIgnores
    (mkIgnoreFileContent (fileURI "/w/pkg/lib/.cody/ignore") "build/") =
    Resolved [ GitIgnore.mkIgnoreRule ".env" ".env" false;
               GitIgnore.mkIgnoreRule "pkg/lib/build/" "pkg/lib/build/" false ].
Proof.
  destruct (isIgnored_cody_ignore_file "file" EmptyString ["w"] ["pkg"; "lib"])
    as (_ & Hdir & _).
  destruct (Hdir eq_refl eq_refl) as [Heffective Hrules].
  split; [reflexivity|]. split; [reflexivity|]. split.
  - exact Heffective.
  - exact (Hrules "build/" getDefaultIgnores).
Defined.

End IgnoreFacts.

(** ** Context fusion: further properties *)

Module FusionMore.
Import Fusion FusionFacts.

(** The walk over a concatenation is the walk over the first list, then
    the walk over the second from the count the first one reached. *)
Lemma firstFit_app (cap : Q) (xs ys : list ContextItem) :
  forall c : Z,
    firstFit cap c (xs ++ ys) =
    (fst (firstFit cap c xs) ++ fst (firstFit cap (snd (firstFit cap c xs)) ys),
     snd (firstFit cap (snd (firstFit cap c xs)) ys)).
Proof.
  induction xs as [|x xs IH]; intros c.
  - simpl. now destruct (firstFit cap c ys).
  - simpl. destruct (Qle_bool (inject_Z (c + textLength x)) cap).
    + rewrite IH. now destruct (firstFit cap (c + textLength x) xs).
    + apply IH.
Qed.

(** The count only grows. *)
Lemma firstFit_count_grows (cap : Q) (items : list ContextItem) (c : Z) :
  c <= snd (firstFit cap c items).
Proof.
  rewrite firstFit_count. pose proof (totalChars_nonneg (fst (firstFit cap c items))). lia.
Qed.

(** When everything fits, everything is taken. *)
Lemma firstFit_all_fit (cap : Q) (items : list ContextItem) :
  forall c : Z, (inject_Z (c + totalChars items) <= cap)%Q ->
    firstFit cap c items = (items, c + totalChars items).
Proof.
  induction items as [|item rest IH]; intros c Hfit.
  - unfold totalChars. simpl. now rewrite Z.add_0_r.
  - assert (totalChars (item :: rest) = textLength item + totalChars rest) as Htotal
      by reflexivity.
    rewrite Htotal in *.
    pose proof (totalChars_nonneg rest) as Hrest.
    simpl firstFit.
    assert (Qle_bool (inject_Z (c + textLength item)) cap = true) as ->.
    { apply Qle_bool_iff. eapply Qle_trans; [|exact Hfit].
      rewrite <- Zle_Qle. lia. }
    rewrite IH by (now rewrite <- Z.add_assoc).
    now rewrite Z.add_assoc.
Qed.

(** An item longer than the cap is never taken, whatever was taken before. *)
Lemma firstFit_oversized (cap : Q) (item : ContextItem) (rest : list ContextItem) (c : Z) :
  0 <= c -> (cap < inject_Z (textLength item))%Q ->
  firstFit cap c (item :: rest) = firstFit cap c rest.
Proof.
  intros Hc Hbig. simpl.
  destruct (Qle_bool (inject_Z (c + textLength item)) cap) eqn:Hfit; [|reflexivity].
  apply Qle_bool_iff in Hfit.
  assert (inject_Z (textLength item) <= inject_Z (c + textLength item))%Q
    by (rewrite <- Zle_Qle; lia).
  lra.
Qed.

Lemma firstFit_remove_oversized (cap : Q) (item : ContextItem)
    (before after : list ContextItem) (c : Z) :
  0 <= c -> (cap < inject_Z (textLength item))%Q ->
  firstFit cap c (before ++ item :: after) = firstFit cap c (before ++ after).
Proof.
  intros Hc Hbig. rewrite !firstFit_app.
  rewrite firstFit_oversized; [reflexivity| |exact Hbig].
  pose proof (firstFit_count_grows cap before c). lia.
Qed.

(** What a walk took is taken again, whole, by a walk under a cap that is
    not smaller. *)
Lemma firstFit_again (cap cap' : Q) (items : list ContextItem) :
  (cap <= cap')%Q ->
  forall c : Z,
    firstFit cap' c (fst (firstFit cap c items)) =
    (fst (firstFit cap c items), snd (firstFit cap c items)).
Proof.
  intros Hcap. induction items as [|item rest IH]; intros c; [reflexivity|].
  simpl. destruct (Qle_bool (inject_Z (c + textLength item)) cap) eqn:Hfit.
  - specialize (IH (c + textLength item)).
    destruct (firstFit cap (c + textLength item) rest) as [taken used'] eqn:Hrest.
    simpl in *.
    assert (Qle_bool (inject_Z (c + textLength item)) cap' = true) as ->.
    { apply Qle_bool_iff. apply Qle_bool_iff in Hfit. lra. }
    now rewrite IH.
  - apply IH.
Qed.

(** X1. When the keyword items together stay within the keyword cap and
    all items together within the budget, nothing is dropped: the result
    is the keyword items followed by the embeddings items. *)
Theorem fuseContext_all_fit (K E : list ContextItem) (maxChars : Q) :
  (inject_Z (totalChars K) <= maxKeywordChars E maxChars)%Q ->
  (inject_Z (totalChars K + totalChars E) <= maxChars)%Q ->
  fuseContext K E maxChars = K ++ E.
Proof.
  intros HK HKE. rewrite fuseContext_firstFit. cbv zeta.
  rewrite (firstFit_all_fit _ K 0) by (now rewrite Z.add_0_l).
  cbn [fst snd]. rewrite Z.add_0_l.
  now rewrite (firstFit_all_fit _ E (totalChars K)).
Qed.

Lemma fuseContext_all_fit_witness :
  let K := [searchItem "/w/a.ts" (repeatChar "a" 40); searchItem "/w/b.ts" (repeatChar "b" 40)] in
  let E := [embeddingsItem "/w/c.ts" (repeatChar "c" 20)] in
  (inject_Z (totalChars K) <= maxKeywordChars E 100)%Q /\
  (inject_Z (totalChars K + totalChars E) <= 100)%Q /\
  fuseContext K E 100 = K ++ E.
Proof.
  intros K E.
  assert (inject_Z (totalChars K) <= maxKeywordChars E 100)%Q as HK
    by (vm_compute; discriminate).
  assert (inject_Z (totalChars K + totalChars E) <= 100)%Q as HKE
    by (vm_compute; discriminate).
  split; [exact HK|]. split; [exact HKE|].
  exact (fuseContext_all_fit K E 100 HK HKE).
Defined.

(** X2. An item longer than the cap it is checked against is never part
    of the result, and the result is the one without it: a keyword item
    longer than the keyword cap can be removed from the input; so can an
    embeddings item longer than the budget, as long as another embeddings
    item remains (the keyword cap depends on whether there is any). *)
Theorem fuseContext_remove_oversized
    (before after others : list ContextItem) (item : ContextItem) (maxChars : Q) :
  ((maxKeywordChars others maxChars < inject_Z (textLength item))%Q ->
   fuseContext (before ++ item :: after) others maxChars =
   fuseContext (before ++ after) others maxChars) /\
  ((maxChars < inject_Z (textLength item))%Q -> before ++ after <> [] ->
   fuseContext others (before ++ item :: after) maxChars =
   fuseContext others (before ++ after) maxChars).
Proof.
  split.
  - intros Hbig. rewrite !fuseContext_firstFit. cbv zeta.
    now rewrite firstFit_remove_oversized by (auto; lia).
  - intros Hbig Hrest. rewrite !fuseContext_firstFit. cbv zeta.
    assert (maxKeywordChars (before ++ item :: after) maxChars =
            maxKeywordChars (before ++ after) maxChars) as ->.
    { rewrite !maxKeywordChars_nonempty; [reflexivity|exact Hrest|].
      destruct before; discriminate. }
    rewrite firstFit_remove_oversized; [reflexivity| |exact Hbig].
    pose proof (firstFit_count_grows (maxKeywordChars (before ++ after) maxChars) others 0).
    lia.
Qed.

Lemma fuseContext_remove_oversized_witness :
  let small := searchItem "/w/a.ts" (repeatChar "a" 30) in
  let huge := searchItem "/w/b.ts" (repeatChar "b" 90) in
  let other := embeddingsItem "/w/c.ts" (repeatChar "c" 10) in
  (maxKeywordChars [other] 100 < inject_Z (textLength huge))%Q /\
  fuseContext ([small] ++ huge :: [small]) [other] 100 =
  fuseContext ([small] ++ [small]) [other] 100.
Proof.
  intros small huge other.
  assert (maxKeywordChars [other] 100 < inject_Z (textLength huge))%Q as Hbig
    by (vm_compute; reflexivity).
  split; [exact Hbig|].
  exact (proj1 (fuseContext_remove_oversized [small] [small] [other] huge 100) Hbig).
Defined.

(** X3. Fusing is idempotent: for a budget that is not negative, fusing
    the keyword portion and the embeddings portion of a result under the
    same budget gives that result again. *)
Theorem fuseContext_idempotent (K E : list ContextItem) (maxChars : Q) :
  (0 <= maxChars)%Q ->
  fuseContext (keywordPortion K E maxChars) (embeddingsPortion K E maxChars) maxChars =
  fuseContext K E maxChars.
Proof.
  intros Hbudget.
  assert (keywordPortion K E maxChars =
          fst (firstFit (maxKeywordChars E maxChars) 0 K)) as Hkp.
  { unfold keywordPortion. now rewrite afterKeyword_firstFit. }
  assert (embeddingsPortion K E maxChars =
          fst (firstFit maxChars (snd (firstFit (maxKeywordChars E maxChars) 0 K)) E))
    as Hep.
  { unfold embeddingsPortion. rewrite afterKeyword_firstFit. simpl.
    now rewrite fold_fuseStep_firstFit. }
  rewrite (fuseContext_firstFit K E). cbv zeta. rewrite <- Hkp, <- Hep.
  rewrite fuseContext_firstFit. cbv zeta.
  assert (maxKeywordChars E maxChars <=
          maxKeywordChars (embeddingsPortion K E maxChars) maxChars)%Q as Hcap.
  { unfold maxKeywordChars at 2.
    destruct (0 <? Z.of_nat (length (embeddingsPortion K E maxChars))) eqn:Hlen.
    - rewrite maxKeywordChars_nonempty; [apply Qle_refl|].
      intros ->. rewrite Hep in Hlen. discriminate.
    - apply (maxKeywordChars_bounds E maxChars Hbudget). }
  rewrite Hkp at 1 2.
  rewrite (firstFit_again _ _ K Hcap 0). cbn [fst snd].
  rewrite <- Hkp. rewrite Hep at 1 2.
  rewrite (firstFit_again maxChars maxChars E (Qle_refl _)). cbn [fst].
  now rewrite <- Hep.
Qed.

Lemma fuseContext_idempotent_witness :
  let K := [searchItem "/w/a.ts" (repeatChar "a" 50); searchItem "/w/b.ts" (repeatChar "b" 50)] in
  let E := [embeddingsItem "/w/c.ts" (repeatChar "c" 60); embeddingsItem "/w/d.ts" (repeatChar "d" 40)] in
  (0 <= 100)%Q /\
  fuseContext K E 100 = [searchItem "/w/a.ts" (repeatChar "a" 50);
                         embeddingsItem "/w/d.ts" (repeatChar "d" 40)] /\
  fuseContext (keywordPortion K E 100) (embeddingsPortion K E 100) 100 = fuseContext K E 100.
Proof.
  intros K E.
  assert (0 <= 100)%Q as H0 by (vm_compute; discriminate).
  split; [exact H0|]. split; [vm_compute; reflexivity|].
  exact (fuseContext_idempotent K E 100 H0).
Defined.

(** X4. What is decided for the keyword items at the front does not
    depend on the keyword items behind them: the keyword portion for
    [K1 ++ K2] starts with the keyword portion for [K1], and goes on with
    items of [K2] only. *)
Theorem keywordPortion_prefix_stable (K1 K2 E : list ContextItem) (maxChars : Q) :
  exists later : list ContextItem,
    keywordPortion (K1 ++ K2) E maxChars = keywordPortion K1 E maxChars ++ later /\
    sublist later K2.
Proof.
  unfold keywordPortion. rewrite !afterKeyword_firstFit. cbn [snd].
  rewrite firstFit_app. cbn [fst].
  eexists. split; [reflexivity|]. apply firstFit_sublist.
Qed.

End FusionMore.

(** ** Regular expressions: the matcher against what a pattern means *)

Module RegExpFacts.
Import JS RegExpLang StringFacts.

Lemma append_empty_r (s : string) : s +:+ EmptyString = s.
Proof.
  induction s as [|c s IH]; [reflexivity|].
  change (String c (s +:+ EmptyString) = String c s). now f_equal.
Qed.

Lemma append_cons (c : ascii) (s t : string) : String c s +:+ t = String c (s +:+ t).
Proof. reflexivity. Qed.

Lemma append_is_empty (s t : string) :
  s +:+ t = EmptyString -> s = EmptyString /\ t = EmptyString.
Proof.
  destruct s as [|c s]; intros H.
  - change (t = EmptyString) in H. auto.
  - change (String c (s +:+ t) = EmptyString) in H. discriminate.
Qed.

Lemma nullable_Lang (r : RegExp) : nullable r = true <-> Lang r EmptyString.
Proof.
  induction r as [| |p|r1 IH1 r2 IH2|r1 IH1 r2 IH2|r IH]; simpl.
  - split; [discriminate|]. intros H. inversion H.
  - split; [constructor|reflexivity].
  - split; [discriminate|]. intros H. inversion H.
  - rewrite andb_true_iff, IH1, IH2. split.
    + intros [H1 H2]. change EmptyString with (EmptyString +:+ EmptyString).
      now constructor.
    + intros H. inversion H as [| |? ? s1 s2 H1 H2 Hr Hs| | | |]; subst.
      apply append_is_empty in Hs. destruct Hs as [-> ->]. auto.
  - rewrite orb_true_iff, IH1, IH2. split.
    + intros [H|H]; [now apply LangAltLeft|now apply LangAltRight].
    + intros H. inversion H; subst; auto.
  - split; [constructor|reflexivity].
Qed.

(** A match of [r*] that starts with [c] starts with a match of [r] that
    starts with [c]. *)
Lemma Lang_star_cons (r : RegExp) (c : ascii) (s : string) :
  Lang (RStar r) (String c s) ->
  exists s1 s2 : string, s = s1 +:+ s2 /\ Lang r (String c s1) /\ Lang (RStar r) s2.
Proof.
  intros H. remember (RStar r) as r' eqn:Hr. remember (String c s) as t eqn:Ht.
  revert s Ht.
  induction H as [| | | | | |r0 s1 s2 H1 _ H2 IH2]; try discriminate.
  injection Hr as ->. intros s Ht.
  destruct s1 as [|d s1].
  - simpl in Ht. now apply IH2.
  - rewrite append_cons in Ht. injection Ht as -> <-.
    exists s1, s2. auto.
Qed.

Lemma derive_Lang (r : RegExp) :
  forall (c : ascii) (s : string), Lang (derive c r) s <-> Lang r (String c s).
Proof.
  induction r as [| |p|r1 IH1 r2 IH2|r1 IH1 r2 IH2|r IH]; intros c s; simpl.
  - split; intros H; inversion H.
  - split; intros H; inversion H.
  - destruct (p c) eqn:Hp; split; intros H.
    + inversion H; subst. now constructor.
    + inversion H; subst. constructor.
    + inversion H.
    + inversion H; subst. congruence.
  - assert (Lang (RSeq (derive c r1) r2) s <->
            exists s1 s2, s = s1 +:+ s2 /\ Lang r1 (String c s1) /\ Lang r2 s2) as Hleft.
    { split.
      - intros H. inversion H as [| |? ? s1 s2 H1 H2| | | |]; subst.
        exists s1, s2. rewrite <- IH1. auto.
      - intros (s1 & s2 & -> & H1 & H2). constructor; [now apply IH1|exact H2]. }
    assert (Lang (RSeq r1 r2) (String c s) <->
            (exists s1 s2, s = s1 +:+ s2 /\ Lang r1 (String c s1) /\ Lang r2 s2) \/
            (Lang r1 EmptyString /\ Lang r2 (String c s))) as Hseq.
    { split.
      - intros H. inversion H as [| |? ? s1 s2 H1 H2 Hr Hs| | | |]; subst.
        destruct s1 as [|d s1].
        + right. simpl in Hs. subst. auto.
        + left. rewrite append_cons in Hs. injection Hs as -> <-. eauto.
      - intros [(s1 & s2 & -> & H1 & H2)|[H1 H2]].
        + rewrite <- append_cons. now constructor.
        + change (String c s) with (EmptyString +:+ String c s). now constructor. }
    rewrite Hseq. destruct (nullable r1) eqn:Hn.
    + split.
      * intros H. inversion H; subst.
        -- left. now apply Hleft.
        -- right. split; [now apply nullable_Lang|now apply IH2].
      * intros [H|[_ H]].
        -- apply LangAltLeft. now apply Hleft.
        -- apply LangAltRight. now apply IH2.
    + rewrite Hleft. split; [auto|].
      intros [H|[H _]]; [exact H|].
      apply nullable_Lang in H. congruence.
  - split; intros H; inversion H; subst.
    + apply LangAltLeft. now apply IH1.
    + apply LangAltRight. now apply IH2.
    + apply LangAltLeft. now apply IH1.
    + apply LangAltRight. now apply IH2.
  - split.
    + intros H. inversion H as [| |? ? s1 s2 H1 H2| | | |]; subst.
      rewrite <- append_cons. constructor; [now apply IH|exact H2].
    + intros H. apply Lang_star_cons in H. destruct H as (s1 & s2 & -> & H1 & H2).
      constructor; [now apply IH|exact H2].
Qed.

Lemma matchesWhole_Lang (s : string) :
  forall r : RegExp, matchesWhole r s = true <-> Lang r s.
Proof.
  induction s as [|c s IH]; intros r; simpl.
  - apply nullable_Lang.
  - rewrite IH. apply derive_Lang.
Qed.

Lemma matchesPrefix_Lang (s : string) :
  forall r : RegExp,
    matchesPrefix r s = true <-> exists w rest : string, s = w +:+ rest /\ Lang r w.
Proof.
  induction s as [|c s IH]; intros r; simpl.
  - rewrite orb_false_r, nullable_Lang. split.
    + intros H. exists EmptyString, EmptyString. auto.
    + intros (w & rest & Hs & H). symmetry in Hs.
      apply append_is_empty in Hs. destruct Hs as [-> _]. exact H.
  - rewrite orb_true_iff, nullable_Lang, IH. split.
    + intros [H|(w & rest & -> & H)].
      * exists EmptyString, (String c s). auto.
      * exists (String c w), rest. split; [reflexivity|now apply derive_Lang].
    + intros (w & rest & Hs & H). destruct w as [|d w].
      * now left.
      * right. rewrite append_cons in Hs. injection Hs as <- ->.
        exists w, rest. split; [reflexivity|now apply derive_Lang].
Qed.

(** [s.match(r)] finds something exactly when some part of [s] is a
    match of [r]. *)
Lemma matches_Lang (s : string) :
  forall r : RegExp,
    matches r s = true <->
    exists before w rest : string, s = before +:+ w +:+ rest /\ Lang r w.
Proof.
  induction s as [|c s IH]; intros r; cbn [matches].
  - rewrite orb_false_r, matchesPrefix_Lang. split.
    + intros (w & rest & Hs & H). exists EmptyString, w, rest. auto.
    + intros (before & w & rest & Hs & H). symmetry in Hs.
      apply append_is_empty in Hs. destruct Hs as [-> Hs].
      apply append_is_empty in Hs. destruct Hs as [-> ->].
      exists EmptyString, EmptyString. auto.
  - rewrite orb_true_iff, matchesPrefix_Lang, IH. split.
    + intros [(w & rest & Hs & H)|(before & w & rest & -> & H)].
      * exists EmptyString, w, rest. auto.
      * exists (String c before), w, rest. auto.
    + intros (before & w & rest & Hs & H). destruct before as [|d before].
      * left. exists w, rest. auto.
      * right. rewrite append_cons in Hs. injection Hs as <- ->.
        exists before, w, rest. auto.
Qed.

(** A literal matches itself, and a character class one or more times
    matches every non-empty run of characters of the class. *)
Lemma Lang_RLit (w : string) : Lang (RLit w) w.
Proof.
  induction w as [|c w IH]; simpl; [constructor|].
  change (String c w) with (String c EmptyString +:+ w).
  constructor; [|exact IH]. constructor. apply Ascii.eqb_refl.
Qed.

Lemma Lang_star_whiteSpace (s : string) :
  whiteSpaceOnly s = true -> Lang (RStar (RClass isWhiteSpace)) s.
Proof.
  induction s as [|c s IH]; simpl; [constructor|].
  intros H. apply andb_prop in H. destruct H as [Hc Hs].
  change (String c s) with (String c EmptyString +:+ s).
  constructor; [now constructor|now apply IH].
Qed.

Lemma Lang_plus_whiteSpace (s : string) :
  s <> EmptyString -> whiteSpaceOnly s = true -> Lang (RPlus (RClass isWhiteSpace)) s.
Proof.
  destruct s as [|c s]; [congruence|]. intros _ H. simpl in H.
  apply andb_prop in H. destruct H as [Hc Hs].
  change (String c s) with (String c EmptyString +:+ s).
  constructor; [now constructor|now apply Lang_star_whiteSpace].
Qed.

Lemma toLowerCase_append (a b : string) :
  toLowerCase (a +:+ b) = toLowerCase a +:+ toLowerCase b.
Proof.
  induction a as [|c a IH]; [reflexivity|].
  rewrite append_cons. simpl. rewrite IH. reflexivity.
Qed.

End RegExpFacts.

(** ** Priority context: further properties *)

Module PriorityMore.
Import JS Paths Priority PriorityFacts RegExpLang RegExpFacts StringFacts.

(** Lower-casing keeps white space, question marks and everything else
    that is not a letter where it is. *)
Lemma isWhiteSpace_toLowerChar (c : ascii) :
  isWhiteSpace (toLowerChar c) = isWhiteSpace c.
Proof. destruct c as [[] [] [] [] [] [] [] []]; reflexivity. Qed.

Lemma questionMark_toLowerChar (c : ascii) :
  Ascii.eqb (toLowerChar c) "?" = Ascii.eqb c "?".
Proof. destruct c as [[] [] [] [] [] [] [] []]; reflexivity. Qed.

Lemma toLowerCase_length (s : string) : String.length (toLowerCase s) = String.length s.
Proof. induction s as [|c s IH]; simpl; [reflexivity|now rewrite IH]. Qed.

Lemma toLowerCase_trimStart (s : string) :
  trimStart (toLowerCase s) = toLowerCase (trimStart s).
Proof.
  induction s as [|c s IH]; simpl; [reflexivity|].
  rewrite isWhiteSpace_toLowerChar. now destruct (isWhiteSpace c).
Qed.

Lemma toLowerCase_trimEnd (s : string) :
  trimEnd (toLowerCase s) = toLowerCase (trimEnd s).
Proof.
  induction s as [|c s IH]; simpl; [reflexivity|].
  rewrite IH. destruct (trimEnd s) as [|d rest]; simpl; [|reflexivity].
  rewrite isWhiteSpace_toLowerChar. now destruct (isWhiteSpace c).
Qed.

Lemma toLowerCase_trim (s : string) : trim (toLowerCase s) = toLowerCase (trim s).
Proof. unfold trim. now rewrite toLowerCase_trimStart, toLowerCase_trimEnd. Qed.

Lemma toLowerCase_indexOf (s : string) :
  indexOf "?" (toLowerCase s) = indexOf "?" s.
Proof.
  induction s as [|c s IH]; simpl; [reflexivity|].
  now rewrite questionMark_toLowerChar, IH.
Qed.

Lemma whiteSpaceOnly_toLowerCase (s : string) :
  whiteSpaceOnly (toLowerCase s) = whiteSpaceOnly s.
Proof.
  induction s as [|c s IH]; simpl; [reflexivity|].
  now rewrite isWhiteSpace_toLowerChar, IH.
Qed.

(** X5. A text that is a statement of 100 characters or more (once
    trimmed, without a question mark) never asks for the README, whatever
    its words and whatever the workspace is called. *)
Theorem needsReadmeContext_long_statement (editor : VSCodeEditor) (input : string) :
  indexOf "?" (trim input) = -1 ->
  (100 <= String.length (trim input))%nat ->
  needsReadmeContext editor input = false.
Proof.
  intros Hno Hlong. unfold needsReadmeContext, extractQuestion.
  rewrite toLowerCase_trim, toLowerCase_indexOf, toLowerCase_length, Hno.
  cbn [Z.eqb negb].
  replace (Z.of_nat (String.length (trim input)) <? 100) with false; [reflexivity|].
  symmetry. apply Z.ltb_ge. lia.
Qed.

Lemma needsReadmeContext_long_statement_witness :
  let input := "what " +:+ repeatChar "x" 100 +:+ " project" in
  indexOf "?" (trim input) = -1 /\ (100 <= String.length (trim input))%nat /\
  needsReadmeContext Sample.editorIdle input = false /\
  needsReadmeContext Sample.editorIdle "what project" = true.
Proof.
  intros input.
  assert (indexOf "?" (trim input) = -1) as Hno by (vm_compute; reflexivity).
  assert (100 <= String.length (trim input))%nat as Hlong by (vm_compute; lia).
  split; [exact Hno|]. split; [exact Hlong|]. split.
  - exact (needsReadmeContext_long_statement Sample.editorIdle input Hno Hlong).
  - vm_compute. reflexivity.
Defined.

(** What the four patterns of [userAttentionRegexps] make of a text. *)
Lemma needsUserAttentionContext_found (input : string) (n : nat) (regexp : RegExp)
    (before w rest : string) :
  nth_error userAttentionRegexps n = Some regexp ->
  toLowerCase input = before +:+ w +:+ rest -> Lang regexp w ->
  needsUserAttentionContext input = true.
Proof.
  intros Hnth Hinput Hlang. unfold needsUserAttentionContext.
  apply existsb_exists. exists regexp. split; [now apply nth_error_In in Hnth|].
  apply matches_Lang. exists before, w, rest. auto.
Qed.

(** X6. A text that mentions the editor, or one of [open], [current],
    [this], [entire] followed by white space and [file], or [current] or
    [currently] followed by white space and [open], or [have] followed by
    white space and [open], in any mix of upper and lower case and
    anywhere in the text, needs the user-attention context. *)
Theorem needsUserAttentionContext_mentions
    (before after word gap noun : string) :
  (toLowerCase word = "editor" ->
   needsUserAttentionContext (before +:+ word +:+ after) = true) /\
  (gap <> EmptyString -> whiteSpaceOnly gap = true ->
   (In (toLowerCase word) ["open"; "current"; "this"; "entire"] ->
    toLowerCase noun = "file" ->
    needsUserAttentionContext (before +:+ word +:+ gap +:+ noun +:+ after) = true) /\
   (In (toLowerCase word) ["current"; "currently"; "have"] ->
    toLowerCase noun = "open" ->
    needsUserAttentionContext (before +:+ word +:+ gap +:+ noun +:+ after) = true)).
Proof.
  split.
  - intros Hword.
    apply (needsUserAttentionContext_found _ 0 (RLit "editor") (toLowerCase before)
             "editor" (toLowerCase after)); [reflexivity| |apply Lang_RLit].
    now rewrite !toLowerCase_append, Hword.
  - intros Hgap Hws.
    assert (Lang (RPlus (RClass isWhiteSpace)) (toLowerCase gap)) as Hspace.
    { apply Lang_plus_whiteSpace.
      - destruct gap; [congruence|discriminate].
      - now rewrite whiteSpaceOnly_toLowerCase. }
    assert (toLowerCase (before +:+ word +:+ gap +:+ noun +:+ after) =
            toLowerCase before +:+
            (toLowerCase word +:+ toLowerCase gap +:+ toLowerCase noun) +:+
            toLowerCase after) as Hshape.
    { rewrite !toLowerCase_append, !append_assoc. reflexivity. }
    split.
    + intros Hword Hnoun.
      eapply (needsUserAttentionContext_found _ 1); [reflexivity|exact Hshape|].
      rewrite Hnoun. constructor.
      * simpl in Hword.
        destruct Hword as [<-|[<-|[<-|[<-|[]]]]].
        -- apply LangAltLeft, Lang_RLit.
        -- apply LangAltRight, LangAltLeft, Lang_RLit.
        -- apply LangAltRight, LangAltRight, LangAltLeft, Lang_RLit.
        -- apply LangAltRight, LangAltRight, LangAltRight, Lang_RLit.
      * constructor; [exact Hspace|apply Lang_RLit].
    + intros Hword Hnoun. simpl in Hword.
      destruct Hword as [Hw|[Hw|[Hw|[]]]].
      * eapply (needsUserAttentionContext_found _ 2);
          [reflexivity|exact Hshape|].
        rewrite <- Hw, Hnoun. constructor; [apply Lang_RLit|].
        change (toLowerCase gap +:+ "open")
          with (EmptyString +:+ (toLowerCase gap +:+ "open")).
        constructor; [apply LangAltRight; constructor|].
        constructor; [exact Hspace|apply Lang_RLit].
      * eapply (needsUserAttentionContext_found _ 2);
          [reflexivity|exact Hshape|].
        rewrite <- Hw, Hnoun.
        change ("currently" +:+ toLowerCase gap +:+ "open")
          with ("current" +:+ ("ly" +:+ (toLowerCase gap +:+ "open"))).
        constructor; [apply Lang_RLit|].
        constructor; [apply LangAltLeft, Lang_RLit|].
        constructor; [exact Hspace|apply Lang_RLit].
      * eapply (needsUserAttentionContext_found _ 3);
          [reflexivity|exact Hshape|].
        rewrite <- Hw, Hnoun. constructor; [apply Lang_RLit|].
        constructor; [exact Hspace|apply Lang_RLit].
Qed.

Lemma needsUserAttentionContext_mentions_witness :
  toLowerCase "Editor" = "editor" /\
  needsUserAttentionContext ("Fix the " +:+ "Editor" +:+ " layout") = true /\
  In (toLowerCase "THIS") ["open"; "current"; "this"; "entire"] /\
  toLowerCase "File" = "file" /\
  needsUserAttentionContext ("explain " +:+ "THIS" +:+ "  " +:+ "File" +:+ " to me") = true.
Proof.
  destruct (needsUserAttentionContext_mentions "Fix the " " layout" "Editor" " " "x")
    as [Heditor _].
  destruct (needsUserAttentionContext_mentions "explain " " to me" "THIS" "  " "File")
    as [_ Hfile].
  assert (In (toLowerCase "THIS") ["open"; "current"; "this"; "entire"]) as Hin
    by (right; right; left; reflexivity).
  split; [reflexivity|]. split; [exact (Heditor eq_refl)|].
  split; [exact Hin|]. split; [reflexivity|].
  destruct (Hfile ltac:(discriminate) eq_refl) as [Hfile' _].
  exact (Hfile' Hin eq_refl).
Defined.

(** The basename of an absolute path in normal form is its last segment. *)
Lemma uriBasename_absolutePath (sch auth : string) (dir : list string) (name : string) :
  forallb isPlainSegment (dir ++ [name]) = true ->
  uriBasename (mkURI sch auth (absolutePath (dir ++ [name]))) = name.
Proof.
  intros Hplain. unfold uriBasename. cbn [path].
  rewrite IgnoreFacts.split_absolutePath by (auto; destruct dir; discriminate).
  cbn [List.filter String.eqb negb].
  assert (forall xs : list string, forallb isPlainSegment xs = true ->
            List.filter (fun w => negb (String.eqb w EmptyString)) xs = xs) as Hkeep.
  { induction xs as [|x xs IH]; [reflexivity|]. simpl. intros H.
    apply andb_prop in H. destruct H as [Hx Hxs]. rewrite (IH Hxs).
    unfold isPlainSegment, isEmptyString in Hx.
    repeat (apply andb_prop in Hx; destruct Hx as [Hx _]). now rewrite Hx. }
  rewrite (Hkeep _ Hplain). apply last_last.
Qed.

Section Readme.

Variable ViewRange : Type.
Variable MAX_BYTES_PER_FILE : Z.
Variable truncateTextNearestLine : string -> Z -> string * ViewRange.
Variable viewRangeToRange : ViewRange -> Range.

Local Abbreviation priorityIn workspace :=
  (getPriorityContext ViewRange MAX_BYTES_PER_FILE truncateTextNearestLine
                      viewRangeToRange workspace).

Local Abbreviation readmeIn workspace :=
  (getReadmeContext ViewRange MAX_BYTES_PER_FILE truncateTextNearestLine
                    viewRangeToRange workspace).

(** X7. With a README among the retrieved items, whatever the case of its
    name and whatever its folder, a query with no selection and no
    user-attention match gets no priority context, and the workspace is
    not asked: the outcome is the same for every workspace, one whose
    calls fail included. *)
Theorem getPriorityContext_readme_already_retrieved
    (workspace : Workspace) (text : string) (editor : VSCodeEditor)
    (retrieved : list ContextItem) (item : ContextItem)
    (dir : list string) (name : string) :
  In item retrieved ->
  path (uri item) = absolutePath (dir ++ [name]) ->
  forallb isPlainSegment (dir ++ [name]) = true ->
  toLowerCase name = "readme" \/ startsWith (toLowerCase name) "readme." = true ->
  getCurrentSelectionContext editor = [] ->
  needsUserAttentionContext text = false ->
  containsREADME retrieved = true /\
  priorityIn workspace text editor retrieved = Resolved [].
Proof.
  intros Hin Hpath Hplain Hname Hsel Hatt.
  assert (containsREADME retrieved = true) as Hreadme.
  { unfold containsREADME. apply existsb_exists. exists item. split; [exact Hin|].
    destruct (uri item) as [sch auth p] eqn:Huri. cbn [path] in Hpath. subst p.
    rewrite uriBasename_absolutePath by exact Hplain.
    destruct Hname as [->| ->]; [reflexivity|apply orb_true_r]. }
  split; [exact Hreadme|].
  unfold getPriorityContext. rewrite Hsel, Hatt, Hreadme. cbn.
  now destruct (needsReadmeContext editor text).
Qed.

(** X8. The priority step fails only where the README is fetched: a
    rejection of [getPriorityContext] is the rejection of the file search
    or of the opening of a found file, and the query then has no selection,
    no user-attention match, asks for the README, and no README was
    retrieved. *)
Theorem getPriorityContext_rejects_only_fetching_readme
    (workspace : Workspace) (text : string) (editor : VSCodeEditor)
    (retrieved : list ContextItem) (reason : string) :
  priorityIn workspace text editor retrieved = Rejected reason ->
  (findFiles workspace readmeGlobalPattern 1 = Rejected reason \/
   exists readmeUri : URI, openTextDocument workspace readmeUri = Rejected reason) /\
  getCurrentSelectionContext editor = [] /\
  needsUserAttentionContext text = false /\
  needsReadmeContext editor text = true /\
  containsREADME retrieved = false.
Proof.
  intros Hrejected.
  destruct (getPriorityContext_branches ViewRange MAX_BYTES_PER_FILE
              truncateTextNearestLine viewRangeToRange workspace text editor retrieved)
    as [[_ H]|[(_ & _ & H)|[(Hsel & Hatt & Hneed & H)|(_ & _ & _ & H)]]];
    cbv zeta in H; rewrite H in Hrejected; try discriminate.
  destruct (containsREADME retrieved) eqn:Hreadme; [discriminate|].
  repeat split; auto.
  unfold getReadmeContext, andThen in Hrejected.
  destruct (findFiles workspace readmeGlobalPattern 1) as [found|r] eqn:Hfind.
  - destruct found as [|readmeUri rest]; [discriminate|].
    destruct (String.eqb (path readmeUri) EmptyString); [discriminate|].
    destruct (openTextDocument workspace readmeUri) as [readmeText|r] eqn:Hopen.
    + destruct (truncateTextNearestLine readmeText MAX_BYTES_PER_FILE) as [t range].
      destruct (String.length t =? 0)%nat; discriminate.
    + right. exists readmeUri. congruence.
  - left. congruence.
Qed.

Lemma getCurrentSelectionContext_has_text (editor : VSCodeEditor) :
  Forall (fun item => text item <> EmptyString) (getCurrentSelectionContext editor).
Proof.
  unfold getCurrentSelectionContext.
  destruct (getActiveTextEditorSelection editor) as [selection|]; [|constructor].
  destruct (String.eqb (selectedText selection) EmptyString) eqn:Hempty; [constructor|].
  apply String.eqb_neq in Hempty. constructor; [exact Hempty|constructor].
Qed.

Lemma getVisibleEditorContext_has_text (editor : VSCodeEditor) :
  Forall (fun item => text item <> EmptyString) (getVisibleEditorContext editor).
Proof.
  unfold getVisibleEditorContext.
  destruct (getActiveTextEditorVisibleContent editor) as [visible|]; [|constructor].
  destruct (visibleFileUri visible) as [fileUri|]; [|constructor].
  destruct (String.eqb (trim (content visible)) EmptyString) eqn:Hblank; [constructor|].
  constructor; [|constructor]. cbn [text]. intros Hempty.
  rewrite Hempty in Hblank. discriminate.
Qed.

Lemma getReadmeContext_has_text (workspace : Workspace) (items : list ContextItem) :
  readmeIn workspace = Resolved items ->
  Forall (fun item => text item <> EmptyString) items.
Proof.
  unfold getReadmeContext, andThen.
  destruct (findFiles workspace readmeGlobalPattern 1) as [found|]; [|discriminate].
  destruct found as [|readmeUri rest]; [intros [= <-]; constructor|].
  destruct (String.eqb (path readmeUri) EmptyString); [intros [= <-]; constructor|].
  destruct (openTextDocument workspace readmeUri) as [readmeText|]; [|discriminate].
  destruct (truncateTextNearestLine readmeText MAX_BYTES_PER_FILE) as [t r].
  destruct (String.length t =? 0)%nat eqn:Hlen; intros [= <-]; constructor; [|constructor].
  cbn [text]. intros ->. discriminate.
Qed.

(** X9. No priority item is empty: whichever branch contributes, the
    selection, the visible content or the README, the item it gives has a
    text of one character at least. *)
Theorem getPriorityContext_items_have_text
    (workspace : Workspace) (query : string) (editor : VSCodeEditor)
    (retrieved items : list ContextItem) :
  priorityIn workspace query editor retrieved = Resolved items ->
  Forall (fun item => text item <> EmptyString) items.
Proof.
  intros Hout.
  destruct (getPriorityContext_branches ViewRange MAX_BYTES_PER_FILE
              truncateTextNearestLine viewRangeToRange workspace query editor retrieved)
    as [[_ H]|[(_ & _ & H)|[(_ & _ & _ & H)|(_ & _ & _ & H)]]];
    cbv zeta in H; rewrite H in Hout.
  - injection Hout as <-. apply getCurrentSelectionContext_has_text.
  - injection Hout as <-. apply getVisibleEditorContext_has_text.
  - destruct (containsREADME retrieved).
    + injection Hout as <-. constructor.
    + now apply (getReadmeContext_has_text workspace).
  - injection Hout as <-. constructor.
Qed.

End Readme.

Lemma getPriorityContext_items_have_text_witness :
  exists items : list ContextItem,
    Sample.priority "what is this project?" Sample.editorIdle [] = Resolved items /\
    (length items = 1)%nat /\
    Forall (fun item => text item <> EmptyString) items.
Proof.
  eexists. split; [vm_compute; reflexivity|]. split; [reflexivity|].
  apply (getPriorityContext_items_have_text unit 4096 Sample.truncate Sample.wholeFile
           Sample.workspace "what is this project?" Sample.editorIdle []).
  vm_compute. reflexivity.
Defined.

Lemma getPriorityContext_readme_already_retrieved_witness :
  let failing := mkWorkspace (fun _ _ => Rejected "no workspace") (fun _ => Rejected "no file") in
  let item := searchItem "/home/me/myrepo/docs/ReadMe.MD" "# myrepo" in
  In item [item] /\
  path (uri item) = absolutePath (["home"; "me"; "myrepo"; "docs"] ++ ["ReadMe.MD"]) /\
  getCurrentSelectionContext Sample.editorIdle = [] /\
  needsUserAttentionContext "what is this project?" = false /\
  Priority.getPriorityContext unit 4096 Sample.truncate Sample.wholeFile failing
    "what is this project?" Sample.editorIdle [item] = Resolved [] /\
  Priority.getPriorityContext unit 4096 Sample.truncate Sample.wholeFile failing
    "what is this project?" Sample.editorIdle [] = Rejected "no workspace".
Proof.
  intros failing item.
  assert (In item [item]) as Hin by (left; reflexivity).
  split; [exact Hin|]. split; [reflexivity|]. split; [reflexivity|].
  split; [vm_compute; reflexivity|]. split; [|vm_compute; reflexivity].
  apply (getPriorityContext_readme_already_retrieved unit 4096 Sample.truncate
           Sample.wholeFile failing "what is this project?" Sample.editorIdle [item] item
           ["home"; "me"; "myrepo"; "docs"] "ReadMe.MD" Hin eq_refl eq_refl).
  - right. reflexivity.
  - reflexivity.
  - vm_compute. reflexivity.
Defined.

Lemma getPriorityContext_rejects_only_fetching_readme_witness :
  let failing := mkWorkspace (fun _ _ => Rejected "no workspace") (fun _ => Rejected "no file") in
  Priority.getPriorityContext unit 4096 Sample.truncate Sample.wholeFile failing
    "what is this project?" Sample.editorIdle [] = Rejected "no workspace" /\
  findFiles failing readmeGlobalPattern 1 = Rejected "no workspace" /\
  needsReadmeContext Sample.editorIdle "what is this project?" = true.
Proof.
  intros failing.
  assert (Priority.getPriorityContext unit 4096 Sample.truncate Sample.wholeFile failing
            "what is this project?" Sample.editorIdle [] = Rejected "no workspace")
    as Hrejected by (vm_compute; reflexivity).
  destruct (getPriorityContext_rejects_only_fetching_readme unit 4096 Sample.truncate
              Sample.wholeFile failing "what is this project?" Sample.editorIdle []
              "no workspace" Hrejected) as (_ & _ & _ & Hneed & _).
  split; [exact Hrejected|]. split; [reflexivity|exact Hneed].
Defined.

End PriorityMore.

(** ** Retrieval: further properties *)

Module RetrievalMore.
Import JS Priority Fusion Retrieval EnhancedContext FusionFacts FusionMore RetrievalFacts.

(** Inserting keeps the elements; so does sorting. *)
Lemma insertBy_Permutation {A : Type} (compare : A -> A -> Z) (x : A) (xs : list A) :
  Permutation (insertBy compare x xs) (x :: xs).
Proof.
  induction xs as [|y rest IH]; simpl; [reflexivity|].
  destruct (compare y x <=? 0); [|reflexivity].
  rewrite IH. apply perm_swap.
Qed.

Lemma sortBy_Permutation {A : Type} (compare : A -> A -> Z) (xs : list A) :
  Permutation (sortBy compare xs) xs.
Proof.
  unfold sortBy.
  assert (forall acc : list A,
            Permutation (fold_left (fun sorted x => insertBy compare x sorted) xs acc)
                        (acc ++ xs)) as Hfold.
  { induction xs as [|x rest IH]; intros acc; simpl.
    - now rewrite app_nil_r.
    - rewrite IH, insertBy_Permutation. apply Permutation_middle. }
  apply (Hfold []).
Qed.

(** [Promise.all] of promises that all resolve resolves to their values. *)
Lemma promiseAll_resolved {A : Type} (ps : list (Outcome A)) :
  Forall (fun p => exists v : A, p = Resolved v) ps ->
  exists vs : list A, promiseAll ps = Resolved vs /\ ps = List.map Resolved vs.
Proof.
  induction 1 as [|p rest [v ->] _ (vs & Hall & ->)]; simpl.
  - exists []. auto.
  - rewrite Hall. exists (v :: vs). auto.
Qed.

Local Abbreviation rangeOf result :=
  (mkRange (mkPosition (row (startPoint result)) (col (startPoint result)))
           (mkPosition (row (endPoint result)) (col (endPoint result)))).

(** The callback of the inner [flatMap] never rejects. *)
Lemma symfResultItem_succeeded (editor : VSCodeEditor) (result : SymfResult) :
  symfResultItem editor result = Resolved (succeeded (symfResultItem editor result)).
Proof.
  unfold symfResultItem.
  destruct (getTextEditorContentForFile editor (file result) _) as [[content|]|reason];
    [|reflexivity|reflexivity].
  now destruct (String.eqb content EmptyString).
Qed.

(** What one result contributes: its item when its file reads as a text
    that is not empty, nothing otherwise. *)
Lemma symfResultItem_In (editor : VSCodeEditor) (result : SymfResult) (item : ContextItem) :
  In item (succeeded (symfResultItem editor result)) <->
  exists content : string,
    getTextEditorContentForFile editor (file result) (rangeOf result) =
      Resolved (Some content) /\
    content <> EmptyString /\
    item = mkContextItem content (file result) (Some (rangeOf result))
                         (Some SourceSearch) None None None.
Proof.
  unfold symfResultItem.
  destruct (getTextEditorContentForFile editor (file result) _) as [[content|]|reason].
  - destruct (String.eqb content EmptyString) eqn:Hempty; cbn [succeeded].
    + apply String.eqb_eq in Hempty. split; [intros []|].
      intros (content' & [= <-] & Hne & _). contradiction.
    + apply String.eqb_neq in Hempty. split.
      * intros [<-|[]]. exists content. auto.
      * intros (content' & [= <-] & _ & ->). now left.
  - cbn [succeeded]. split; [intros []|]. intros (content' & Hread & _). discriminate.
  - cbn [succeeded]. split; [intros []|]. intros (content' & Hread & _). discriminate.
Qed.

(** One scope: the items of its results, in the order of the results. *)
Lemma symfScope_items (editor : VSCodeEditor) (found : list SymfResult) :
  (await nested <- promiseAll (List.map (symfResultItem editor) found) ;;
   Resolved (List.concat nested)) =
  Resolved (flat_map (fun result => succeeded (symfResultItem editor result)) found).
Proof.
  induction found as [|result rest IH]; [reflexivity|].
  cbn [List.map promiseAll flat_map]. rewrite symfResultItem_succeeded at 1.
  cbn [andThen].
  destruct (promiseAll (List.map (symfResultItem editor) rest)) as [nested|];
    cbn [andThen] in *; [|discriminate].
  injection IH as <-. reflexivity.
Qed.

(** All scopes: the items of every scope, in the order of the scopes. *)
Lemma symfScopes_items (editor : VSCodeEditor) (founds : list (list SymfResult)) :
  promiseAll
    (List.map (fun results =>
                 await found <- results ;;
                 await items <- promiseAll (List.map (symfResultItem editor) found) ;;
                 Resolved (List.concat items))
              (List.map Resolved founds)) =
  Resolved (List.map (flat_map (fun result => succeeded (symfResultItem editor result)))
                     founds).
Proof.
  induction founds as [|found rest IH]; [reflexivity|].
  cbn [List.map promiseAll]. cbn [andThen] in *.
  rewrite (symfScope_items editor found). cbn [andThen].
  rewrite IH. reflexivity.
Qed.

Lemma concat_map_flat_map {A B : Type} (f : A -> list B) (xss : list (list A)) :
  List.concat (List.map (flat_map f) xss) = flat_map f (List.concat xss).
Proof.
  induction xss as [|xs rest IH]; [reflexivity|].
  cbn [List.map concat]. now rewrite flat_map_app, IH.
Qed.

Section Host.

Variable NUM_CODE_RESULTS NUM_TEXT_RESULTS : Z.
Variable isAgentTesting : bool.
Variable localeCompare : string -> string -> Z.
Variable ViewRange : Type.
Variable MAX_BYTES_PER_FILE : Z.
Variable truncateTextNearestLine : string -> Z -> string * ViewRange.
Variable viewRangeToRange : ViewRange -> Range.
Variable workspace : Workspace.

Local Abbreviation priority :=
  (getPriorityContext ViewRange MAX_BYTES_PER_FILE truncateTextNearestLine
     viewRangeToRange workspace).

Local Abbreviation fusedQuery :=
  (getEnhancedContextFused NUM_CODE_RESULTS NUM_TEXT_RESULTS isAgentTesting
     localeCompare ViewRange MAX_BYTES_PER_FILE truncateTextNearestLine
     viewRangeToRange workspace).

Local Abbreviation plainQuery :=
  (getEnhancedContext NUM_CODE_RESULTS NUM_TEXT_RESULTS isAgentTesting
     localeCompare ViewRange MAX_BYTES_PER_FILE truncateTextNearestLine
     viewRangeToRange workspace false).

Local Abbreviation gathered :=
  (gatherSearchContext NUM_CODE_RESULTS NUM_TEXT_RESULTS isAgentTesting localeCompare).

Local Abbreviation fusion :=
  (fusedOfSucceeded NUM_CODE_RESULTS NUM_TEXT_RESULTS isAgentTesting localeCompare).

Local Abbreviation embeddingsOf providers userText :=
  (searchEmbeddingsLocal NUM_CODE_RESULTS NUM_TEXT_RESULTS (localEmbeddings providers) userText).

Local Abbreviation symfOf providers editor userText :=
  (searchSymf isAgentTesting localeCompare (symf providers) editor userText false).

(** X10. However the files that symf points at read, [searchSymf] resolves
    as soon as the index status, the search and each of its scopes did,
    and a file that cannot be read, or is empty, costs its own item only:
    with a root that is a file URI and an index that is ready (or waited
    for), the items returned are exactly those of the results whose file
    reads as a text that is not empty, one item for each such result, in
    the order of the results unless the deterministic mode sorts them.
    Every item returned has a text that is not empty and the source
    [search]. With a root that is no file URI, or an index that is not
    ready and not waited for, nothing is returned. *)
Theorem searchSymf_survives_unreadable_files
    (runner : SymfRunner) (editor : VSCodeEditor) (userText : string)
    (blockOnIndex : bool) (root : URI) (status : string)
    (scopes : list (Outcome (list SymfResult))) :
  getWorkspaceRootUri editor = Some root ->
  getIndexStatus runner root = Resolved status ->
  getResults runner userText [root] = Resolved scopes ->
  Forall (fun scope => exists found : list SymfResult, scope = Resolved found) scopes ->
  exists (items : list ContextItem) (founds : list (list SymfResult)),
    searchSymf isAgentTesting localeCompare (Some runner) editor userText blockOnIndex =
      Resolved items /\
    Forall isSymfItem items /\
    scopes = List.map Resolved founds /\
    (isFileURI root = true -> status = "ready" \/ blockOnIndex = true ->
     (forall item : ContextItem,
        In item items <->
        exists (result : SymfResult) (content : string),
          In result (List.concat founds) /\
          getTextEditorContentForFile editor (file result) (rangeOf result) =
            Resolved (Some content) /\
          content <> EmptyString /\
          item = mkContextItem content (file result) (Some (rangeOf result))
                               (Some SourceSearch) None None None) /\
     Permutation items
       (flat_map (fun result => succeeded (symfResultItem editor result))
                 (List.concat founds)) /\
     (isAgentTesting = false ->
      items = flat_map (fun result => succeeded (symfResultItem editor result))
                       (List.concat founds))) /\
    (isFileURI root = false \/ (status <> "ready" /\ blockOnIndex = false) -> items = []).
Proof.
  intros Hroot Hstatus Hresults Hscopes.
  destruct (promiseAll_resolved scopes Hscopes) as (founds & _ & Hfounds).
  subst scopes. rename Hscopes into Hfounds. unfold searchSymf. rewrite Hroot.
  destruct (isFileURI root) eqn:Hfile; cbn [negb].
  2:{ exists [], founds. split; [reflexivity|]. split; [constructor|].
      split; [reflexivity|]. split; [discriminate|reflexivity]. }
  rewrite Hstatus. cbn [andThen].
  destruct (negb (String.eqb status "ready") && negb blockOnIndex) eqn:Hskip.
  { apply andb_prop in Hskip. destruct Hskip as [Hready Hblock].
    apply negb_true_iff in Hready, Hblock. apply String.eqb_neq in Hready.
    exists [], founds. split; [reflexivity|]. split; [constructor|].
    split; [reflexivity|]. split; [|reflexivity].
    intros _ [Hs|Hb]; congruence. }
  rewrite Hresults. cbn [andThen].
  rewrite symfScopes_items. cbn [andThen]. rewrite concat_map_flat_map.
  set (all := flat_map (fun result => succeeded (symfResultItem editor result))
                       (List.concat founds)).
  assert (forall item : ContextItem,
            In item all <->
            exists (result : SymfResult) (content : string),
              In result (List.concat founds) /\
              getTextEditorContentForFile editor (file result) (rangeOf result) =
                Resolved (Some content) /\
              content <> EmptyString /\
              item = mkContextItem content (file result) (Some (rangeOf result))
                                   (Some SourceSearch) None None None) as Hin.
  { intros item. unfold all. rewrite in_flat_map. split.
    - intros (result & Hresult & Hitem). apply symfResultItem_In in Hitem.
      destruct Hitem as (content & Hread & Hne & ->). exists result, content. auto.
    - intros (result & content & Hresult & Hread & Hne & ->). exists result.
      split; [exact Hresult|]. apply symfResultItem_In. exists content. auto. }
  assert (Forall isSymfItem all) as Hall.
  { apply List.Forall_forall. intros item Hitem. apply Hin in Hitem.
    destruct Hitem as (result & content & _ & _ & Hne & ->). split; [exact Hne|reflexivity]. }
  assert (true = false \/ status <> "ready" /\ blockOnIndex = false -> False)
    as Hnever.
  { intros [Hf|[Hs Hb]]; [discriminate|]. subst blockOnIndex.
    apply String.eqb_neq in Hs. rewrite Hs in Hskip. discriminate. }
  destruct isAgentTesting.
  - pose proof (sortBy_Permutation (compareForTests localeCompare) all) as Hsorted.
    exists (sortBy (compareForTests localeCompare) all), founds.
    split; [reflexivity|]. split.
    { eapply Permutation_Forall; [symmetry; exact Hsorted|exact Hall]. }
    split; [reflexivity|]. split; [|intros H; destruct (Hnever H)].
    intros _ _. split; [|split; [exact Hsorted|discriminate]].
    intros item. rewrite <- Hin. split; intros Hitem.
    + eapply Permutation_in; [exact Hsorted|exact Hitem].
    + eapply Permutation_in; [symmetry; exact Hsorted|exact Hitem].
  - exists all, founds. split; [reflexivity|]. split; [exact Hall|].
    split; [reflexivity|]. split; [|intros H; destruct (Hnever H)].
    intros _ _. split; [exact Hin|]. split; reflexivity.
Qed.

(** X11. The deterministic mode only reorders: with the testing flag set
    [searchSymf] fails exactly when it fails without, and otherwise
    returns the stable sort, by path and then text, of what it returns
    without: the same items, none lost or added. *)
Theorem searchSymf_deterministic_mode (runner : option SymfRunner)
    (editor : VSCodeEditor) (userText : string) (blockOnIndex : bool) :
  match searchSymf false localeCompare runner editor userText blockOnIndex with
  | Resolved items =>
      searchSymf true localeCompare runner editor userText blockOnIndex =
        Resolved (sortBy (compareForTests localeCompare) items) /\
      Permutation (sortBy (compareForTests localeCompare) items) items
  | Rejected reason =>
      searchSymf true localeCompare runner editor userText blockOnIndex = Rejected reason
  end.
Proof.
  unfold searchSymf.
  destruct runner as [symf|]; [|split; reflexivity].
  destruct (getWorkspaceRootUri editor) as [root|]; [|split; reflexivity].
  destruct (negb (isFileURI root)); [split; reflexivity|].
  destruct (getIndexStatus symf root) as [status|]; [|reflexivity]. cbn [andThen].
  destruct (negb (String.eqb status "ready") && negb blockOnIndex); [split; reflexivity|].
  destruct (getResults symf userText [root]) as [scopes|]; [|reflexivity]. cbn [andThen].
  destruct (promiseAll _) as [nested|]; [|reflexivity]. cbn [andThen].
  split; [reflexivity|apply sortBy_Permutation].
Qed.

(** What is gathered without fusion: the embeddings items, then the
    remote items, then the symf items, of the providers that take part
    and succeeded. *)
Lemma gatherSearchContext_succeeded (strategy : ConfigurationUseContext)
    (editor : VSCodeEditor) (userText : string) (providers : Providers) :
  gathered strategy editor userText providers =
  (if isStrategyKeyword strategy then [] else succeeded (embeddingsOf providers userText)) ++
  (if isStrategyEmbeddings strategy then []
   else succeeded (searchRemote (remoteSearch providers) userText)) ++
  (if isStrategyEmbeddings strategy then [] else succeeded (symfOf providers editor userText)).
Proof.
  unfold gatherSearchContext. destruct providers as [emb sy rem].
  cbn [localEmbeddings symf remoteSearch].
  assert (forall (acc : list ContextItem) (p : Outcome (list ContextItem)),
            pushIfResolved acc p = acc ++ succeeded p) as Hpush.
  { intros acc [r|r]; simpl; [reflexivity|now rewrite app_nil_r]. }
  destruct strategy; cbn [isStrategyKeyword isStrategyEmbeddings negb];
    rewrite ?Hpush, ?app_nil_r; cbn [app];
    destruct rem as [remote|], sy as [runner|]; cbn [isSome];
    rewrite ?Hpush, ?app_nil_r; cbn [app succeeded searchRemote];
    rewrite ?app_nil_r, ?app_assoc; reflexivity.
Qed.

(** X12. On the path that is not fused, too, a provider that fails costs
    its own items only: for a strategy other than [none] the result is the
    priority context followed by everything the providers that take part
    and succeeded returned, no budget applied; and a rejection of the
    query is one of the priority step. *)
Theorem getEnhancedContext_provider_failures
    (strategy : ConfigurationUseContext) (editor : VSCodeEditor) (userText : string)
    (providers : Providers) (maxChars : Q) :
  strategy <> StrategyNone ->
  let found := gathered strategy editor userText providers in
  plainQuery strategy editor userText providers maxChars =
    (await priorityContext <- priority userText editor found ;;
     Resolved (priorityContext ++ found)) /\
  (forall items : list ContextItem,
     (strategy <> StrategyKeyword /\ embeddingsOf providers userText = Resolved items) \/
     (strategy <> StrategyEmbeddings /\
      (searchRemote (remoteSearch providers) userText = Resolved items \/
       symfOf providers editor userText = Resolved items)) ->
     forall (priorityContext : list ContextItem) (item : ContextItem),
       priority userText editor found = Resolved priorityContext ->
       In item items ->
       plainQuery strategy editor userText providers maxChars =
         Resolved (priorityContext ++ found) /\
       In item (priorityContext ++ found)) /\
  (forall reason : string,
     plainQuery strategy editor userText providers maxChars = Rejected reason ->
     priority userText editor found = Rejected reason).
Proof.
  intros Hstrategy. cbv zeta.
  assert (plainQuery strategy editor userText providers maxChars =
          (await priorityContext <-
             priority userText editor (gathered strategy editor userText providers) ;;
           Resolved (priorityContext ++ gathered strategy editor userText providers)))
    as Hunfold.
  { unfold getEnhancedContext. destruct strategy; [congruence| | |]; reflexivity. }
  split; [exact Hunfold|]. split.
  - intros items Hfrom priorityContext item Hpriority Hin.
    rewrite Hunfold, Hpriority. split; [reflexivity|].
    apply in_or_app. right. rewrite gatherSearchContext_succeeded.
    destruct Hfrom as [[Hs Hemb]|[Hs [Hrem|Hsymf]]].
    + apply in_or_app. left. destruct strategy; try congruence;
        cbn [isStrategyKeyword]; now rewrite Hemb.
    + apply in_or_app. right. apply in_or_app. left.
      destruct strategy; try congruence; cbn [isStrategyEmbeddings]; now rewrite Hrem.
    + apply in_or_app. right. apply in_or_app. right.
      destruct strategy; try congruence; cbn [isStrategyEmbeddings]; now rewrite Hsymf.
  - intros reason. rewrite Hunfold.
    destruct (getPriorityContext _ _ _ _ _ _ _ _); simpl; congruence.
Qed.

Lemma existsb_Permutation {A : Type} (f : A -> bool) (xs ys : list A) :
  Permutation xs ys -> existsb f xs = existsb f ys.
Proof.
  induction 1 as [|x xs ys _ IH|x y xs|xs ys zs _ IH1 _ IH2]; simpl.
  - reflexivity.
  - now rewrite IH.
  - now rewrite !orb_assoc, (orb_comm (f y)).
  - congruence.
Qed.

(** The priority step looks at the retrieved items only to see whether a
    README is among them. *)
Lemma getPriorityContext_Permutation (userText : string) (editor : VSCodeEditor)
    (xs ys : list ContextItem) :
  Permutation xs ys -> priority userText editor xs = priority userText editor ys.
Proof.
  intros Hperm. unfold getPriorityContext, containsREADME.
  now rewrite (existsb_Permutation _ xs ys Hperm).
Qed.

(** X13. With room for everything the two paths agree up to order: when
    all that the providers returned stays within 80% of the budget, the
    fused query and the query that is not fused fail alike or return the
    same priority context followed by the same items, the fused one with
    the keyword items first. *)
Theorem getEnhancedContextFused_agrees_when_all_fits
    (strategy : ConfigurationUseContext) (editor : VSCodeEditor) (userText : string)
    (providers : Providers) (maxChars : Q) :
  strategy <> StrategyNone ->
  (inject_Z (totalChars (gathered strategy editor userText providers)) <= 0.8 * maxChars)%Q ->
  match fusedQuery strategy editor userText providers maxChars,
        plainQuery strategy editor userText providers maxChars with
  | Resolved fused, Resolved plain => Permutation fused plain
  | Rejected reason, Rejected reason' => reason = reason'
  | _, _ => False
  end.
Proof.
  intros Hstrategy Hfits.
  destruct (getEnhancedContext_provider_failures strategy editor userText providers
              maxChars Hstrategy) as (-> & _ & _).
  rewrite (getEnhancedContextFused_unfold _ _ _ _ _ _ _ _ _ _ _ _ _ _ Hstrategy).
  rewrite gatherSearchContext_succeeded in *. unfold fusedOfSucceeded.
  set (E := if isStrategyKeyword strategy then [] else _) in *.
  set (R := if isStrategyEmbeddings strategy then []
            else succeeded (searchRemote _ _)) in *.
  set (S := if isStrategyEmbeddings strategy then []
            else succeeded (searchSymf _ _ _ _ _ _)) in *.
  rewrite !totalChars_app in Hfits.
  pose proof (totalChars_nonneg E) as HE. pose proof (totalChars_nonneg R) as HR.
  pose proof (totalChars_nonneg S) as HS.
  assert (0 <= maxChars)%Q as Hbudget.
  { assert (inject_Z 0 <= inject_Z (totalChars E + (totalChars R + totalChars S)))%Q
      by (rewrite <- Zle_Qle; lia).
    change (inject_Z 0) with 0%Q in *. lra. }
  assert (fuseContext (S ++ R) E maxChars = (S ++ R) ++ E) as ->.
  { apply fuseContext_all_fit; rewrite !totalChars_app.
    - assert (inject_Z (totalChars S + totalChars R) <=
              inject_Z (totalChars E + (totalChars R + totalChars S)))%Q
        by (rewrite <- Zle_Qle; lia).
      unfold maxKeywordChars. destruct (0 <? Z.of_nat (length E)); lra.
    - assert (inject_Z (totalChars S + totalChars R + totalChars E) <=
              inject_Z (totalChars E + (totalChars R + totalChars S)))%Q
        by (rewrite <- Zle_Qle; lia).
      lra. }
  assert (Permutation ((S ++ R) ++ E) (E ++ R ++ S)) as Hperm.
  { transitivity (E ++ (S ++ R)); [apply Permutation_app_comm|].
    apply Permutation_app_head, Permutation_app_comm. }
  rewrite (getPriorityContext_Permutation userText editor _ _ Hperm).
  destruct (getPriorityContext _ _ _ _ _ _ _ _) as [p|r]; simpl; [|reflexivity].
  now apply Permutation_app_head.
Qed.

(** X14. When the embeddings contribute nothing, because the strategy is
    [keyword], or the query failed, or it found nothing, the keyword items
    are fused against the whole budget, not 80% of it. *)
Theorem fusedOfSucceeded_without_embeddings
    (strategy : ConfigurationUseContext) (editor : VSCodeEditor) (userText : string)
    (providers : Providers) (maxChars : Q) :
  strategy = StrategyKeyword \/
  (exists reason : string, embeddingsOf providers userText = Rejected reason) \/
  embeddingsOf providers userText = Resolved [] ->
  let keywordItems :=
    (if isStrategyEmbeddings strategy then [] else succeeded (symfOf providers editor userText)) ++
    (if isStrategyEmbeddings strategy then []
     else succeeded (searchRemote (remoteSearch providers) userText)) in
  fusion strategy editor userText providers maxChars =
    fst (firstFit maxChars 0 keywordItems) /\
  ((inject_Z (totalChars keywordItems) <= maxChars)%Q ->
   fusion strategy editor userText providers maxChars = keywordItems).
Proof.
  intros Hnone. cbv zeta. unfold fusedOfSucceeded.
  assert ((if isStrategyKeyword strategy then []
           else succeeded (embeddingsOf providers userText)) = []) as ->.
  { destruct Hnone as [->|[[reason ->]| ->]]; [reflexivity| |];
      now destruct (isStrategyKeyword strategy). }
  assert (forall K : list ContextItem,
            fuseContext K [] maxChars = fst (firstFit maxChars 0 K)) as Hfull.
  { intros K. rewrite fuseContext_firstFit. cbv zeta. simpl. now rewrite app_nil_r. }
  split; [apply Hfull|].
  intros Hfits. rewrite Hfull, firstFit_all_fit; [reflexivity|].
  now rewrite Z.add_0_l.
Qed.

End Host.

Lemma searchSymf_survives_unreadable_files_witness :
  getWorkspaceRootUri SampleRetrieval.editorReadingOne = Some Sample.root /\
  getIndexStatus SampleRetrieval.twoFileSymf Sample.root = Resolved "ready" /\
  getTextEditorContentForFile SampleRetrieval.editorReadingOne
    (fileURI "/home/me/myrepo/locked.ts") (mkRange (mkPosition 0 0) (mkPosition 1 0)) =
    Rejected "EACCES" /\
  SampleRetrieval.symfSearch (Some SampleRetrieval.twoFileSymf)
    SampleRetrieval.editorReadingOne "where is x set" false =
    Resolved [SampleRetrieval.symfItem] /\
  SampleRetrieval.symfSearch (Some SampleRetrieval.twoFileSymf)
    SampleRetrieval.editorUnreadable "where is x set" false = Resolved [] /\
  exists items : list ContextItem,
    SampleRetrieval.symfSearch (Some SampleRetrieval.twoFileSymf)
      SampleRetrieval.editorReadingOne "where is x set" false = Resolved items /\
    In SampleRetrieval.symfItem items.
Proof.
  split; [reflexivity|]. split; [reflexivity|]. split; [reflexivity|].
  split; [reflexivity|]. split; [reflexivity|].
  destruct (searchSymf_survives_unreadable_files false SampleProviders.compareCodes
              SampleRetrieval.twoFileSymf SampleRetrieval.editorReadingOne
              "where is x set" false Sample.root "ready"
              [Resolved [mkSymfResult (fileURI "/home/me/myrepo/locked.ts")
                                      (mkPoint 0 0) (mkPoint 1 0);
                         mkSymfResult (fileURI "/home/me/myrepo/a.ts")
                                      (mkPoint 0 0) (mkPoint 1 0)]]
              eq_refl eq_refl eq_refl)
    as (items & founds & Hitems & _ & Hfounds & Hkept & _).
  { constructor; [eexists; reflexivity|constructor]. }
  exists items. split; [exact Hitems|].
  destruct founds as [|found [|other rest]]; try discriminate.
  injection Hfounds as <-.
  apply (proj1 (Hkept eq_refl (or_introl eq_refl))).
  exists (mkSymfResult (fileURI "/home/me/myrepo/a.ts") (mkPoint 0 0) (mkPoint 1 0)),
         "let x = 1".
  split; [right; left; reflexivity|]. split; [reflexivity|].
  split; [discriminate|reflexivity].
Defined.

Lemma getEnhancedContext_provider_failures_witness :
  StrategyAuto <> StrategyNone /\
  SampleRetrieval.plainQuery StrategyAuto SampleProviders.editor "where is x set"
    SampleProviders.providers 100 = Resolved [SampleRetrieval.symfItem] /\
  In SampleRetrieval.symfItem [SampleRetrieval.symfItem].
Proof.
  assert (StrategyAuto <> StrategyNone) as Hne by discriminate.
  destruct (getEnhancedContext_provider_failures 12 3 false SampleProviders.compareCodes
              unit 4096 Sample.truncate Sample.wholeFile Sample.workspace StrategyAuto
              SampleProviders.editor "where is x set" SampleProviders.providers 100 Hne)
    as (_ & Hkept & _).
  split; [exact Hne|].
  apply (Hkept [SampleRetrieval.symfItem]) with (priorityContext := []).
  - right. split; [discriminate|]. right. reflexivity.
  - reflexivity.
  - left. reflexivity.
Defined.

Lemma getEnhancedContextFused_agrees_when_all_fits_witness :
  StrategyAuto <> StrategyNone /\
  (inject_Z (totalChars (SampleRetrieval.gathered StrategyAuto SampleProviders.editor
                           "where is x set" SampleProviders.providers)) <= 0.8 * 100)%Q /\
  match SampleProviders.fusedQuery StrategyAuto SampleProviders.editor "where is x set"
          SampleProviders.providers 100,
        SampleRetrieval.plainQuery StrategyAuto SampleProviders.editor "where is x set"
          SampleProviders.providers 100 with
  | Resolved fused, Resolved plain => Permutation fused plain
  | Rejected reason, Rejected reason' => reason = reason'
  | _, _ => False
  end.
Proof.
  assert (StrategyAuto <> StrategyNone) as Hne by discriminate.
  assert (inject_Z (totalChars (SampleRetrieval.gathered StrategyAuto SampleProviders.editor
                                  "where is x set" SampleProviders.providers))
          <= 0.8 * 100)%Q as Hfits by (vm_compute; discriminate).
  split; [exact Hne|]. split; [exact Hfits|].
  exact (getEnhancedContextFused_agrees_when_all_fits 12 3 false
           SampleProviders.compareCodes unit 4096 Sample.truncate Sample.wholeFile
           Sample.workspace StrategyAuto SampleProviders.editor "where is x set"
           SampleProviders.providers 100 Hne Hfits).
Defined.

Lemma fusedOfSucceeded_without_embeddings_witness :
  (exists reason : string,
     searchEmbeddingsLocal 12 3 (localEmbeddings SampleProviders.providers) "where is x set" =
     Rejected reason) /\
  SampleRetrieval.fusion StrategyAuto SampleProviders.editor "where is x set"
    SampleProviders.providers 9 = [SampleRetrieval.symfItem].
Proof.
  assert (exists reason : string,
            searchEmbeddingsLocal 12 3 (localEmbeddings SampleProviders.providers)
              "where is x set" = Rejected reason) as Hfailed
    by (eexists; reflexivity).
  split; [exact Hfailed|].
  destruct (fusedOfSucceeded_without_embeddings 12 3 false SampleProviders.compareCodes
              StrategyAuto SampleProviders.editor "where is x set"
              SampleProviders.providers 9 (or_intror (or_introl Hfailed))) as [_ Hall].
  apply Hall. vm_compute. discriminate.
Defined.

End RetrievalMore.

(** ** Feature flags: further properties *)

Module FlagsMore.
Import JS Flags FlagsFacts FlagsInvariants.

Lemma recordGet_recordSet_other (name other : string) (value : bool) (record : FlagRecord) :
  other <> name -> recordGet other (recordSet name value record) = recordGet other record.
Proof.
  intros Hne. induction record as [|[k v] rest IH]; simpl.
  - destruct (String.eqb name other) eqn:He; [|reflexivity].
    apply String.eqb_eq in He. congruence.
  - destruct (String.eqb k name) eqn:Hk; simpl.
    + apply String.eqb_eq in Hk. subst k.
      destruct (String.eqb name other) eqn:He; [|reflexivity].
      apply String.eqb_eq in He. congruence.
    + now rewrite IH.
Qed.

Lemma flagString_injective (a b : FeatureFlag) : flagString a = flagString b -> a = b.
Proof. destruct a, b; simpl; intros H; try reflexivity; discriminate H. Qed.

(** The value that [evaluateFeatureFlag] stores for a response. *)
Lemma evaluateFeatureFlagResume_stores (endpoint : string) (flagName : FeatureFlag)
    (response : FlagResponse) (s : State) :
  let stored := match response with FlagValue b => b | _ => false end in
  let flags := match featureFlags s !! endpoint with Some f => f | None => [] end in
  evaluateFeatureFlagResume endpoint flagName (Resolved response) s =
    (Resolved stored,
     notifyFeatureFlagChanged
       (withFlags (<[endpoint := recordSet (flagString flagName) stored flags]>
                     (featureFlags s)) s)).
Proof.
  cbv zeta. unfold evaluateFeatureFlagResume.
  set (s1 := withFlags _ s).
  rewrite notifyFeatureFlagChanged_featureFlags. unfold s1 at 1. cbn [featureFlags withFlags].
  rewrite lookup_insert_eq, recordGet_recordSet.
  destruct response; reflexivity.
Qed.

(** X15. [evaluateFeatureFlag] caches what it returns: when the remote
    call returns, the value returned ([false] for [null] or an error, the
    boolean otherwise) is what the cache then holds for the flag under the
    endpoint, and a later evaluation is answered from the cache without a
    remote call. A flag that is already cached is answered at once. *)
Theorem evaluateFeatureFlag_caches_result
    (endpoint : string) (flagName : FeatureFlag) (response : FlagResponse)
    (now : Z) (s : State) :
  let result := evaluateFeatureFlagResume endpoint flagName (Resolved response) s in
  let stored := match response with FlagValue b => b | _ => false end in
  fst result = Resolved stored /\
  fst (getFromCache flagName endpoint now (snd result)) = Some stored /\
  evaluateFeatureFlagStart false endpoint flagName now (snd result) = Answered stored /\
  (forall cached : bool,
     fst (getFromCache flagName endpoint now s) = Some cached ->
     evaluateFeatureFlagStart false endpoint flagName now s = Answered cached).
Proof.
  cbv zeta. rewrite evaluateFeatureFlagResume_stores. cbn [fst snd].
  assert (fst (getFromCache flagName endpoint now
                 (notifyFeatureFlagChanged
                    (withFlags (<[endpoint := recordSet (flagString flagName)
                                   match response with FlagValue b => b | _ => false end
                                   match featureFlags s !! endpoint with
                                   | Some f => f | None => [] end]>
                                  (featureFlags s)) s))) =
          Some match response with FlagValue b => b | _ => false end) as Hcache.
  { unfold getFromCache. cbn [fst].
    rewrite notifyFeatureFlagChanged_featureFlags. cbn [featureFlags withFlags].
    now rewrite lookup_insert_eq, recordGet_recordSet. }
  split; [reflexivity|]. split; [exact Hcache|]. split.
  - unfold evaluateFeatureFlagStart.
    match goal with
    | |- match ?cachedValue with Some _ => _ | None => _ end = _ =>
        replace cachedValue
          with (Some match response with FlagValue b => b | _ => false end)
          by (symmetry; exact Hcache)
    end.
    reflexivity.
  - intros cached Hcached. unfold evaluateFeatureFlagStart. now rewrite Hcached.
Qed.

Lemma evaluateFeatureFlag_caches_result_witness :
  fst (getFromCache CodyAutocompleteTracing SampleFlags.endpoint 20 SampleFlags.cached) =
    Some true /\
  evaluateFeatureFlagStart false SampleFlags.endpoint CodyAutocompleteTracing 20
    SampleFlags.cached = Answered true.
Proof.
  assert (fst (getFromCache CodyAutocompleteTracing SampleFlags.endpoint 20
                 SampleFlags.cached) = Some true) as Hcached by (vm_compute; reflexivity).
  split; [exact Hcached|].
  destruct (evaluateFeatureFlag_caches_result SampleFlags.endpoint CodyAutocompleteTracing
              FlagNull 20 SampleFlags.cached) as (_ & _ & _ & Hanswered).
  exact (Hanswered true Hcached).
Defined.

(** X16. Evaluating one flag leaves the rest of the cache alone: every
    other flag of the endpoint, and every flag of every other endpoint,
    reads as before. *)
Theorem evaluateFeatureFlag_keeps_other_flags
    (endpoint endpoint' : string) (flagName flagName' : FeatureFlag)
    (response : FlagResponse) (now : Z) (s : State) :
  endpoint' <> endpoint \/ flagName' <> flagName ->
  fst (getFromCache flagName' endpoint' now
         (snd (evaluateFeatureFlagResume endpoint flagName (Resolved response) s))) =
  fst (getFromCache flagName' endpoint' now s).
Proof.
  intros Hother. rewrite evaluateFeatureFlagResume_stores. cbn [snd].
  unfold getFromCache. cbn [fst].
  rewrite notifyFeatureFlagChanged_featureFlags. cbn [featureFlags withFlags].
  destruct (decide (endpoint = endpoint')) as [<-|Hne].
  - destruct Hother as [Hother|Hother]; [congruence|].
    rewrite lookup_insert_eq.
    rewrite recordGet_recordSet_other
      by (intros Heq; apply flagString_injective in Heq; congruence).
    destruct (featureFlags s !! endpoint); reflexivity.
  - now rewrite lookup_insert_ne.
Qed.

Lemma evaluateFeatureFlag_keeps_other_flags_witness :
  CodyProJetBrains <> CodyAutocompleteTracing /\
  fst (getFromCache CodyAutocompleteTracing SampleFlags.endpoint 20 SampleFlags.cached) =
    Some true /\
  fst (getFromCache CodyAutocompleteTracing SampleFlags.endpoint 20
         (snd (evaluateFeatureFlagResume SampleFlags.endpoint CodyProJetBrains
                 (Resolved FlagNull) SampleFlags.cached))) = Some true.
Proof.
  assert (CodyAutocompleteTracing <> CodyProJetBrains) as Hne by discriminate.
  split; [discriminate|]. split; [vm_compute; reflexivity|].
  rewrite (evaluateFeatureFlag_keeps_other_flags SampleFlags.endpoint SampleFlags.endpoint
             CodyProJetBrains CodyAutocompleteTracing FlagNull 20 SampleFlags.cached
             (or_intror Hne)).
  vm_compute. reflexivity.
Defined.

(** What notifying leaves as it is. *)
Lemma notifyEntry_timers (s : State) (entry : string * Ref) :
  pendingTimers (notifyEntry s entry) = pendingTimers s /\
  lastUpdated (notifyEntry s entry) = lastUpdated s /\
  length (heap (notifyEntry s entry)) = length (heap s).
Proof.
  unfold notifyEntry. destruct entry as [key0 r].
  destruct (deref r s) as [sub|]; [|auto].
  destruct (negb _); [|auto]. cbn. now rewrite length_insert.
Qed.

Lemma notifyFeatureFlagChanged_timers (s : State) :
  pendingTimers (notifyFeatureFlagChanged s) = pendingTimers s /\
  lastUpdated (notifyFeatureFlagChanged s) = lastUpdated s /\
  length (heap (notifyFeatureFlagChanged s)) = length (heap s).
Proof.
  unfold notifyFeatureFlagChanged. generalize (subscriptions s) as entries.
  intros entries. revert s.
  induction entries as [|entry rest IH]; intros s; simpl; [auto|].
  destruct (IH (notifyEntry s entry)) as (-> & -> & ->). apply notifyEntry_timers.
Qed.

(** The state after a refresh, field by field. *)
Lemma refreshFeatureFlagsResume_fields (endpoint : string) (data : FlagsResponse)
    (now : Z) (s : State) :
  let s' := refreshFeatureFlagsResume endpoint data now s in
  featureFlags s' =
    <[endpoint := match data with FlagsError _ => [] | FlagsData d => d end]>
      (featureFlags s) /\
  lastUpdated s' = now /\
  subscriptions s' = subscriptions s.
Proof.
  cbv zeta. unfold refreshFeatureFlagsResume.
  set (s1 := notifyFeatureFlagChanged _).
  assert (featureFlags s1 =
            <[endpoint := match data with FlagsError _ => [] | FlagsData d => d end]>
              (featureFlags s) /\
          lastUpdated s1 = now /\ subscriptions s1 = subscriptions s) as (Hf & Hl & Hs).
  { unfold s1. rewrite notifyFeatureFlagChanged_featureFlags.
    destruct (notifyFeatureFlagChanged_timers
                (withLastUpdated now
                   (withFlags (<[endpoint := match data with
                                             | FlagsError _ => []
                                             | FlagsData d => d
                                             end]> (featureFlags s)) s)))
      as (_ & -> & _).
    destruct (notifyFeatureFlagChanged_bookkeeping
                (withLastUpdated now
                   (withFlags (<[endpoint := match data with
                                             | FlagsError _ => []
                                             | FlagsData d => d
                                             end]> (featureFlags s)) s)))
      as (-> & _).
    auto. }
  destruct (nextRefreshTimeout s1) as [handle|];
    cbn [subscriptions withTimeout clearTimeout];
    destruct (0 <? Z.of_nat (length (subscriptions s1))); cbn; auto.
Qed.

(** X17. A refresh replaces the cache of its endpoint with what the
    server sent (with nothing, if the server sent an error): afterwards a
    flag reads as the response has it, flags that the response does not
    list are cache misses, no further refresh is started during the next
    hour, and the other endpoints read as before. *)
Theorem refreshFeatureFlags_replaces_cache
    (endpoint endpoint' : string) (data : FlagsResponse) (now later : Z)
    (flagName : FeatureFlag) (s : State) :
  let s' := refreshFeatureFlagsResume endpoint data now s in
  fst (getFromCache flagName endpoint later s') =
    recordGet (flagString flagName)
              match data with FlagsError _ => [] | FlagsData d => d end /\
  (later <= now + ONE_HOUR -> snd (getFromCache flagName endpoint later s') = false) /\
  (endpoint' <> endpoint ->
   fst (getFromCache flagName endpoint' later s') =
   fst (getFromCache flagName endpoint' later s)).
Proof.
  cbv zeta.
  destruct (refreshFeatureFlagsResume_fields endpoint data now s) as (Hf & Hl & _).
  unfold getFromCache. cbn [fst snd]. rewrite Hf, Hl. split; [|split].
  - now rewrite lookup_insert_eq.
  - intros Hsoon. apply Z.ltb_ge. lia.
  - intros Hne. now rewrite lookup_insert_ne.
Qed.

Lemma refreshFeatureFlags_replaces_cache_witness :
  let s' := refreshFeatureFlagsResume SampleFlags.endpoint (FlagsError "HTTP 500") 50
              SampleFlags.cached in
  50 + 10 <= 50 + ONE_HOUR /\
  fst (getFromCache CodyAutocompleteTracing SampleFlags.endpoint 20 SampleFlags.cached) =
    Some true /\
  getFromCache CodyAutocompleteTracing SampleFlags.endpoint (50 + 10) s' = (None, false).
Proof.
  intros s'.
  assert (50 + 10 <= 50 + ONE_HOUR) as Hsoon by (vm_compute; discriminate).
  destruct (refreshFeatureFlags_replaces_cache SampleFlags.endpoint SampleFlags.endpoint
              (FlagsError "HTTP 500") 50 (50 + 10) CodyAutocompleteTracing
              SampleFlags.cached) as (Hvalue & Hquiet & _).
  split; [exact Hsoon|]. split; [vm_compute; reflexivity|].
  rewrite (surjective_pairing (getFromCache _ _ _ _)).
  fold s' in Hvalue, Hquiet. now rewrite Hvalue, (Hquiet Hsoon).
Defined.

(** Every operation keeps the timers in order. *)
Lemma run_oneTimerAtMost (s : State) (op : Operation) :
  oneTimerAtMost s -> oneTimerAtMost (run s op).
Proof.
  unfold oneTimerAtMost. intros Hs.
  assert (forall s0 : State,
            (pendingTimers s0 = [] \/
             exists handle action, pendingTimers s0 = [(handle, action)] /\
                                   nextRefreshTimeout s0 = Some handle) ->
            forall handle, nextRefreshTimeout s0 = Some handle ->
            pendingTimers (clearTimeout handle s0) = []) as Hclear.
  { intros s0 [Hempty|(h & a & Hp & Ht)] handle Hhandle; cbn [pendingTimers clearTimeout].
    - now rewrite Hempty.
    - rewrite Hp. simpl. assert (h = handle) as -> by congruence.
      now rewrite Nat.eqb_refl. }
  destruct op as [endpoint prefixFilter callback|u|endpoint data now
                 |endpoint flagName response|handle|]; cbn [run].
  - unfold onFeatureFlagChanged.
    destruct (mapGet _ (subscriptions s)) as [r|].
    + destruct (deref r s); cbn; exact Hs.
    + destruct (nextRefreshTimeout s) as [h|] eqn:Ht; cbn; rewrite ?Ht; cbn; rewrite ?Ht.
      * exact Hs.
      * destruct Hs as [->|(h & a & _ & Hh)]; [|congruence].
        right. eauto.
  - destruct u as [r callback|key callback]; cbn [unsubscribe].
    + destruct (deref r s); cbn; exact Hs.
    + destruct (mapGet key (subscriptions s)) as [r|]; [|exact Hs].
      destruct (deref r s) as [sub|]; [|exact Hs].
      cbv zeta.
      set (s2 := if (length (setDelete callback (callbacks sub)) =? 0)%nat
                 then _ else _).
      assert (pendingTimers s2 = pendingTimers s /\
              nextRefreshTimeout s2 = nextRefreshTimeout s) as [Hp2 Ht2].
      { unfold s2. destruct (length _ =? 0)%nat; cbn; auto. }
      assert (pendingTimers s2 = [] \/
              exists handle action, pendingTimers s2 = [(handle, action)] /\
                                    nextRefreshTimeout s2 = Some handle) as Hs2
        by (rewrite Hp2, Ht2; exact Hs).
      pose proof (Hclear s2 Hs2) as Hcleared.
      destruct (nextRefreshTimeout s2) as [handle|] eqn:Ht;
        [|rewrite <- Ht in Hs2; exact Hs2].
      destruct (length (subscriptions s2) =? 0)%nat;
        [|rewrite <- Ht in Hs2; exact Hs2].
      left. cbn [pendingTimers withTimeout]. now apply Hcleared.
  - unfold refreshFeatureFlagsResume.
    set (s1 := notifyFeatureFlagChanged _).
    assert (pendingTimers s1 = [] \/
            exists handle action, pendingTimers s1 = [(handle, action)] /\
                                  nextRefreshTimeout s1 = Some handle) as Hs1.
    { unfold s1.
      destruct (notifyFeatureFlagChanged_timers
                  (withLastUpdated now (withFlags (<[endpoint := match data with
                     | FlagsError _ => [] | FlagsData d => d end]> (featureFlags s)) s)))
        as (-> & _).
      destruct (notifyFeatureFlagChanged_bookkeeping
                  (withLastUpdated now (withFlags (<[endpoint := match data with
                     | FlagsError _ => [] | FlagsData d => d end]> (featureFlags s)) s)))
        as (_ & ->).
      exact Hs. }
    set (s2 := match nextRefreshTimeout s1 with
               | Some handle => withTimeout None (clearTimeout handle s1)
               | None => s1
               end).
    assert (pendingTimers s2 = []) as Hnone.
    { unfold s2. pose proof (Hclear s1 Hs1) as Hcleared.
      destruct (nextRefreshTimeout s1) as [handle|] eqn:Ht.
      - cbn [pendingTimers withTimeout]. now apply Hcleared.
      - destruct Hs1 as [Hp|(h & a & _ & Hh)]; [exact Hp|congruence]. }
    destruct (0 <? Z.of_nat (length (subscriptions s2))); [|now left].
    right. cbn. rewrite Hnone. eauto.
  - rewrite evaluateFeatureFlagResume_stores. cbn [snd].
    set (s1 := withFlags _ s).
    destruct (notifyFeatureFlagChanged_timers s1) as (-> & _).
    destruct (notifyFeatureFlagChanged_bookkeeping s1) as (_ & ->).
    exact Hs.
  - unfold fireTimer.
    destruct (List.find (fun t => Nat.eqb (fst t) handle) (pendingTimers s))
      as [[h action]|] eqn:Hfind; [|exact Hs].
    assert (pendingTimers (clearTimeout handle s) = []) as Hgone.
    { destruct Hs as [Hp|(h0 & a0 & Hp & _)]; cbn [pendingTimers clearTimeout].
      - rewrite Hp in Hfind. discriminate.
      - rewrite Hp in *. simpl in *.
        destruct (Nat.eqb h0 handle); [reflexivity|discriminate]. }
    left. destruct action; cbn [pendingTimers withTimeout]; exact Hgone.
  - exact Hs.
Qed.

(** X18. The provider never has two refresh timers waiting: after any
    sequence of subscriptions, unsubscriptions, arriving responses and
    firing timers, at most one timer is pending, and a pending timer is
    the one whose handle [nextRefreshTimeout] holds. *)
Theorem runAll_oneTimerAtMost (ops : list Operation) :
  (length (pendingTimers (runAll ops)) <= 1)%nat /\
  (forall (handle : TimerHandle) (action : TimerAction),
     In (handle, action) (pendingTimers (runAll ops)) ->
     nextRefreshTimeout (runAll ops) = Some handle).
Proof.
  assert (oneTimerAtMost (runAll ops)) as Hone.
  { unfold runAll.
    assert (forall s, oneTimerAtMost s -> oneTimerAtMost (fold_left run ops s)) as Hfold.
    { induction ops as [|op rest IH]; intros s Hs; simpl; [exact Hs|].
      apply IH. now apply run_oneTimerAtMost. }
    apply Hfold. now left. }
  destruct Hone as [->|(h & a & -> & Ht)].
  - split; [simpl; lia|]. intros handle action [].
  - split; [simpl; lia|]. intros handle action [[= <- <-]|[]]. exact Ht.
Qed.

Lemma runAll_oneTimerAtMost_witness :
  let ops := [Subscribe SampleFlags.endpoint SampleFlags.prefixFilter SampleFlags.listener] in
  In (1%nat, ForgetAndRefresh) (pendingTimers (runAll ops)) /\
  nextRefreshTimeout (runAll ops) = Some 1%nat.
Proof.
  intros ops.
  assert (In (1%nat, ForgetAndRefresh) (pendingTimers (runAll ops))) as Hin
    by (left; reflexivity).
  split; [exact Hin|].
  exact (proj2 (runAll_oneTimerAtMost ops) 1%nat ForgetAndRefresh Hin).
Defined.

Lemma runAll_snoc (ops : list Operation) (op : Operation) :
  runAll (ops ++ [op]) = run (runAll ops) op.
Proof. unfold runAll. now rewrite fold_left_app. Qed.

Lemma runAll_invariant (P : State -> Prop) :
  P initial -> (forall s op, P s -> P (run s op)) -> forall ops, P (runAll ops).
Proof.
  intros Hinit Hstep ops. unfold runAll.
  assert (forall s, P s -> P (fold_left run ops s)) as Hfold.
  { induction ops as [|op rest IH]; intros s Hs; simpl; [exact Hs|]. apply IH, Hstep, Hs. }
  now apply Hfold.
Qed.

(** X19. Every refresh that arrives leaves the timer as the subscription
    map asks: with an entry in the map exactly one timer is pending, a new
    one, whose handle is kept; with an empty map no timer is pending and
    no handle is kept. *)
Theorem refreshFeatureFlags_rearms_timer
    (ops : list Operation) (endpoint : string) (data : FlagsResponse) (now : Z) :
  let s' := runAll (ops ++ [RefreshArrives endpoint data now]) in
  (subscriptions s' <> [] ->
   exists handle : TimerHandle,
     nextRefreshTimeout s' = Some handle /\ pendingTimers s' = [(handle, RefreshOnly)] /\
     isPending handle s' = true) /\
  (subscriptions s' = [] -> nextRefreshTimeout s' = None /\ pendingTimers s' = []).
Proof.
  cbv zeta. rewrite runAll_snoc. cbn [run].
  pose proof (runAll_invariant oneTimerAtMost (or_introl eq_refl) run_oneTimerAtMost ops)
    as Hone.
  set (s := runAll ops) in *. unfold refreshFeatureFlagsResume.
  set (s1 := notifyFeatureFlagChanged _).
  assert (oneTimerAtMost s1) as Hs1.
  { unfold oneTimerAtMost, s1.
    destruct (notifyFeatureFlagChanged_timers
                (withLastUpdated now (withFlags (<[endpoint := match data with
                   | FlagsError _ => [] | FlagsData d => d end]> (featureFlags s)) s)))
      as (-> & _).
    destruct (notifyFeatureFlagChanged_bookkeeping
                (withLastUpdated now (withFlags (<[endpoint := match data with
                   | FlagsError _ => [] | FlagsData d => d end]> (featureFlags s)) s)))
      as (_ & ->).
    exact Hone. }
  set (s2 := match nextRefreshTimeout s1 with
             | Some handle => withTimeout None (clearTimeout handle s1)
             | None => s1
             end).
  assert (pendingTimers s2 = [] /\ nextRefreshTimeout s2 = None) as [Hpending Htimer].
  { unfold s2. destruct Hs1 as [Hp|(h & a & Hp & Ht)].
    - destruct (nextRefreshTimeout s1) eqn:Ht;
        cbn [pendingTimers nextRefreshTimeout withTimeout clearTimeout];
        rewrite ?Hp; auto.
    - rewrite Ht. cbn [pendingTimers nextRefreshTimeout withTimeout clearTimeout].
      rewrite Hp. simpl. now rewrite Nat.eqb_refl. }
  destruct (subscriptions s2) as [|entry rest] eqn:Hsubs.
  - simpl. rewrite Hsubs. split; [congruence|auto].
  - replace (0 <? Z.of_nat (length (entry :: rest))) with true by reflexivity.
    cbn. rewrite Hsubs, Hpending. split; [|discriminate].
    intros _. exists (nextHandle s2). simpl. now rewrite Nat.eqb_refl.
Qed.

Lemma refreshFeatureFlags_rearms_timer_witness :
  let ops := [Subscribe SampleFlags.endpoint SampleFlags.prefixFilter SampleFlags.listener] in
  let s' := runAll (ops ++ [RefreshArrives SampleFlags.endpoint (FlagsData []) 10]) in
  subscriptions s' <> [] /\
  exists handle : TimerHandle,
    nextRefreshTimeout s' = Some handle /\ pendingTimers s' = [(handle, RefreshOnly)] /\
    isPending handle s' = true.
Proof.
  intros ops s'.
  assert (subscriptions s' <> []) as Hsubscribed by (vm_compute; discriminate).
  split; [exact Hsubscribed|].
  exact (proj1 (refreshFeatureFlags_rearms_timer ops SampleFlags.endpoint (FlagsData []) 10)
               Hsubscribed).
Defined.

(** A flag whose name does not start with the prefix is not part of the
    snapshot. *)
Lemma filter_recordSet_outside (keep : string -> bool) (name : string) (value : bool)
    (record : FlagRecord) :
  keep name = false ->
  List.filter (fun entry => keep (fst entry)) (recordSet name value record) =
  List.filter (fun entry => keep (fst entry)) record.
Proof.
  intros Hout. induction record as [|[k v] rest IH]; simpl.
  - now rewrite Hout.
  - destruct (String.eqb k name) eqn:Hk; simpl.
    + apply String.eqb_eq in Hk. subst k. now rewrite Hout.
    + now rewrite IH.
Qed.

(** X20. The snapshot of a prefix does not see the flags outside it:
    evaluating a flag whose name does not start with the prefix leaves the
    snapshot for the prefix as it was, when the endpoint has a cache. When
    it has none, that evaluation creates one, and the snapshot goes from
    the empty string to the serialization of the empty record. *)
Theorem computeFeatureFlagSnapshot_ignores_other_flags
    (endpoint prefixFilter : string) (flagName : FeatureFlag)
    (response : FlagResponse) (s : State) :
  startsWith (flagString flagName) prefixFilter = false ->
  let s' := snd (evaluateFeatureFlagResume endpoint flagName (Resolved response) s) in
  (is_Some (featureFlags s !! endpoint) ->
   computeFeatureFlagSnapshot s' endpoint (Some prefixFilter) =
   computeFeatureFlagSnapshot s endpoint (Some prefixFilter)) /\
  (featureFlags s !! endpoint = None ->
   computeFeatureFlagSnapshot s endpoint (Some prefixFilter) = EmptyString /\
   computeFeatureFlagSnapshot s' endpoint (Some prefixFilter) = jsonStringify []).
Proof.
  intros Hout. cbv zeta. rewrite evaluateFeatureFlagResume_stores. cbn [snd].
  unfold computeFeatureFlagSnapshot.
  rewrite notifyFeatureFlagChanged_featureFlags. cbn [featureFlags withFlags].
  rewrite lookup_insert_eq. unfold startsWithArg.
  unfold FlagRecord in *. split.
  - intros [flags Hflags]. rewrite Hflags.
    now rewrite (filter_recordSet_outside (fun k => startsWith k prefixFilter)).
  - intros Hnone. rewrite Hnone. split; [reflexivity|].
    now rewrite (filter_recordSet_outside (fun k => startsWith k prefixFilter)).
Qed.

Lemma computeFeatureFlagSnapshot_ignores_other_flags_witness :
  startsWith (flagString CodyProJetBrains) SampleFlags.prefixFilter = false /\
  is_Some (featureFlags SampleFlags.cached !! SampleFlags.endpoint) /\
  computeFeatureFlagSnapshot
    (snd (evaluateFeatureFlagResume SampleFlags.endpoint CodyProJetBrains
            (Resolved (FlagValue true)) SampleFlags.cached))
    SampleFlags.endpoint (Some SampleFlags.prefixFilter) =
  computeFeatureFlagSnapshot SampleFlags.cached SampleFlags.endpoint
    (Some SampleFlags.prefixFilter).
Proof.
  assert (is_Some (featureFlags SampleFlags.cached !! SampleFlags.endpoint)) as Hcached
    by (vm_compute; eauto).
  split; [reflexivity|]. split; [exact Hcached|].
  exact (proj1 (computeFeatureFlagSnapshot_ignores_other_flags SampleFlags.endpoint
                  SampleFlags.prefixFilter CodyProJetBrains (FlagValue true)
                  SampleFlags.cached eq_refl) Hcached).
Defined.

(** The objects of other entries are not touched by the turn of one entry. *)
Lemma notifyEntry_deref_other (s : State) (key0 : string) (r r' : Ref) :
  r' <> r -> deref r' (notifyEntry s (key0, r)) = deref r' s.
Proof.
  intros Hne. unfold notifyEntry.
  destruct (deref r s) as [sub|]; [|reflexivity].
  destruct (negb _); [|reflexivity].
  unfold deref. cbn. now apply list_lookup_insert_ne.
Qed.

Lemma notifyEntries_deref_other (entries : SubscriptionMap) (r' : Ref) :
  forall s : State,
    ~ In r' (List.map snd entries) ->
    deref r' (fold_left notifyEntry entries s) = deref r' s.
Proof.
  induction entries as [|[key0 r] rest IH]; intros s Hnotin; simpl; [reflexivity|].
  simpl in Hnotin. rewrite IH by tauto. apply notifyEntry_deref_other.
  intros ->. tauto.
Qed.

Lemma notifyEntries_featureFlags (entries : SubscriptionMap) :
  forall s : State, featureFlags (fold_left notifyEntry entries s) = featureFlags s.
Proof.
  induction entries as [|entry rest IH]; intros s; simpl; [reflexivity|].
  now rewrite IH, notifyEntry_featureFlags.
Qed.

Lemma snapshotOfKey_featureFlags (s1 s2 : State) (key0 : string) :
  featureFlags s1 = featureFlags s2 -> snapshotOfKey s1 key0 = snapshotOfKey s2 key0.
Proof.
  intros Heq. unfold snapshotOfKey, computeFeatureFlagSnapshot. now rewrite Heq.
Qed.

(** After its turn the object of an entry holds the snapshot of its key. *)
Lemma notifyEntry_settles (s : State) (key0 : string) (r : Ref) (sub' : Subscription) :
  deref r (notifyEntry s (key0, r)) = Some sub' ->
  lastSnapshot sub' = snapshotOfKey s key0.
Proof.
  unfold notifyEntry. fold (snapshotOfKey s key0).
  destruct (deref r s) as [sub|] eqn:Hsub; [|congruence].
  destruct (String.eqb (snapshotOfKey s key0) (lastSnapshot sub)) eqn:Hsame; cbn [negb].
  - rewrite Hsub. intros [= <-]. apply String.eqb_eq in Hsame. congruence.
  - unfold deref in *. cbn.
    rewrite list_lookup_insert_eq by (now apply lookup_lt_Some in Hsub).
    now intros [= <-].
Qed.

Lemma notifyEntries_settled (entries : SubscriptionMap) :
  forall s : State,
    List.NoDup (List.map snd entries) -> settled (fold_left notifyEntry entries s) entries.
Proof.
  induction entries as [|[key0 r] rest IH]; intros s Hnodup; cbn [fold_left].
  - intros k r0 sub [].
  - simpl in Hnodup. apply NoDup_cons_iff in Hnodup. destruct Hnodup as [Hnotin Hrest].
    intros k r0 sub [[= <- <-]|Hin] Hderef.
    + rewrite notifyEntries_deref_other in Hderef by exact Hnotin.
      apply notifyEntry_settles in Hderef. rewrite Hderef.
      apply snapshotOfKey_featureFlags.
      rewrite notifyEntries_featureFlags. symmetry. apply notifyEntry_featureFlags.
    + now apply (IH (notifyEntry s (key0, r)) Hrest k r0 sub).
Qed.

(** Entries that are settled are passed over. *)
Lemma notifyEntries_of_settled (entries : SubscriptionMap) (s : State) :
  settled s entries -> fold_left notifyEntry entries s = s.
Proof.
  induction entries as [|[key0 r] rest IH]; intros Hsettled; cbn [fold_left];
    [reflexivity|].
  assert (notifyEntry s (key0, r) = s) as ->.
  { unfold notifyEntry. fold (snapshotOfKey s key0).
    destruct (deref r s) as [sub|] eqn:Hsub; [|reflexivity].
    rewrite (Hsettled key0 r sub (or_introl eq_refl) Hsub).
    now rewrite String.eqb_refl. }
  apply IH. intros k r0 sub Hin. apply Hsettled. now right.
Qed.

Lemma notifyFeatureFlagChanged_twice (s : State) :
  List.NoDup (List.map snd (subscriptions s)) ->
  notifyFeatureFlagChanged (notifyFeatureFlagChanged s) = notifyFeatureFlagChanged s.
Proof.
  intros Hnodup. unfold notifyFeatureFlagChanged at 1.
  destruct (notifyFeatureFlagChanged_bookkeeping s) as [-> _].
  apply notifyEntries_of_settled. unfold notifyFeatureFlagChanged.
  now apply notifyEntries_settled.
Qed.

Lemma mapSet_refs (key : string) (r r' : Ref) (m : SubscriptionMap) :
  In r' (List.map snd (mapSet key r m)) -> r' = r \/ In r' (List.map snd m).
Proof.
  induction m as [|[k r0] rest IH]; simpl.
  - intros [<-|[]]. now left.
  - destruct (String.eqb k key); simpl; intros [<-|Hin]; auto.
    destruct (IH Hin); auto.
Qed.

Lemma mapSet_NoDup (key : string) (r : Ref) (m : SubscriptionMap) :
  List.NoDup (List.map snd m) -> ~ In r (List.map snd m) ->
  List.NoDup (List.map snd (mapSet key r m)).
Proof.
  induction m as [|[k r0] rest IH]; simpl; intros Hnodup Hfresh.
  - constructor; [intros []|constructor].
  - apply NoDup_cons_iff in Hnodup. destruct Hnodup as [Hr0 Hrest].
    destruct (String.eqb k key); simpl; apply NoDup_cons_iff.
    + split; [tauto|exact Hrest].
    + split; [|apply IH; tauto].
      intros Hin. apply mapSet_refs in Hin. destruct Hin as [->|Hin]; tauto.
Qed.

(** Every operation keeps the entries of the map on objects of their own. *)
Lemma run_distinctObjects (s : State) (op : Operation) :
  distinctObjects s -> distinctObjects (run s op).
Proof.
  unfold distinctObjects. rewrite !NoDup_ListNoDup. intros [Hnodup Hbound].
  assert (forall (r : Ref) (sub : Subscription),
            length (heap (assign r sub s)) = length (heap s)) as Hassign
    by (intros; cbn; apply length_insert).
  destruct op as [endpoint prefixFilter callback|u|endpoint data now
                 |endpoint flagName response|handle|]; cbn [run].
  - unfold onFeatureFlagChanged.
    destruct (mapGet _ (subscriptions s)) as [r|].
    + destruct (deref r s); cbn [snd]; [|auto].
      rewrite Hassign. auto.
    + assert (~ In (length (heap s)) (List.map snd (subscriptions s))) as Hfresh.
      { intros Hin. rewrite List.Forall_forall in Hbound. apply Hbound in Hin. lia. }
      assert (List.NoDup (List.map snd (mapSet prefixFilter (length (heap s)) (subscriptions s))) /\
              Forall (fun r => (r < length (heap s ++ [mkSubscription
                        (computeFeatureFlagSnapshot s endpoint (Some prefixFilter))
                        [callback]]))%nat)
                     (List.map snd (mapSet prefixFilter (length (heap s)) (subscriptions s))))
        as Hnew.
      { split; [now apply mapSet_NoDup|].
        apply List.Forall_forall. intros r Hin. rewrite length_app. simpl.
        apply mapSet_refs in Hin. destruct Hin as [->|Hin]; [lia|].
        rewrite List.Forall_forall in Hbound. apply Hbound in Hin. lia. }
      destruct (nextRefreshTimeout s) eqn:Ht; cbn; rewrite ?Ht; cbn; exact Hnew.
  - destruct u as [r callback|key callback]; cbn [unsubscribe].
    + destruct (deref r s); [rewrite Hassign|]; auto.
    + destruct (mapGet key (subscriptions s)) as [r|]; [|auto].
      destruct (deref r s) as [sub|]; [|auto].
      cbv zeta.
      set (s2 := if (length (setDelete callback (callbacks sub)) =? 0)%nat
                 then _ else _).
      assert (List.NoDup (List.map snd (subscriptions s2)) /\
              Forall (fun r0 => (r0 < length (heap s2))%nat)
                     (List.map snd (subscriptions s2))) as Hs2.
      { unfold s2. destruct (length _ =? 0)%nat.
        - cbn [subscriptions heap withSubscriptions assign withHeap].
          rewrite length_insert. unfold mapDelete. split.
          + clear Hbound. induction (subscriptions s) as [|[k r0] rest IH]; simpl; [constructor|].
            simpl in Hnodup. apply NoDup_cons_iff in Hnodup. destruct Hnodup as [Hr0 Hrest].
            destruct (negb (String.eqb k key)); simpl; [|now apply IH].
            apply NoDup_cons_iff. split; [|now apply IH].
            intros Hin. apply Hr0. apply in_map_iff in Hin.
            destruct Hin as (x & Hx & Hin). apply List.filter_In in Hin.
            apply in_map_iff. exists x. tauto.
          + apply List.Forall_forall. intros r0 Hin. rewrite List.Forall_forall in Hbound.
            apply Hbound. apply in_map_iff in Hin. destruct Hin as (x & Hx & Hin).
            apply List.filter_In in Hin. apply in_map_iff. exists x. tauto.
        - cbn [subscriptions heap assign withHeap]. rewrite length_insert. auto. }
      destruct (nextRefreshTimeout s2); [|exact Hs2].
      destruct (length (subscriptions s2) =? 0)%nat; exact Hs2.
  - destruct (refreshFeatureFlagsResume_fields endpoint data now s) as (_ & _ & ->).
    split; [exact Hnodup|].
    assert (length (heap (refreshFeatureFlagsResume endpoint data now s)) = length (heap s))
      as ->; [|exact Hbound].
    unfold refreshFeatureFlagsResume.
    set (s1 := notifyFeatureFlagChanged _).
    assert (length (heap s1) = length (heap s)) as Hlen.
    { unfold s1.
      destruct (notifyFeatureFlagChanged_timers
                  (withLastUpdated now (withFlags (<[endpoint := match data with
                     | FlagsError _ => [] | FlagsData d => d end]> (featureFlags s)) s)))
        as (_ & _ & ->).
      reflexivity. }
    destruct (nextRefreshTimeout s1) as [handle|];
      cbn [subscriptions withTimeout clearTimeout];
      destruct (0 <? Z.of_nat (length (subscriptions s1)));
      cbn [heap setTimeout withTimeout clearTimeout]; exact Hlen.
  - rewrite evaluateFeatureFlagResume_stores. cbn [snd].
    set (s1 := withFlags _ s).
    destruct (notifyFeatureFlagChanged_bookkeeping s1) as (-> & _).
    destruct (notifyFeatureFlagChanged_timers s1) as (_ & _ & ->).
    auto.
  - unfold fireTimer.
    destruct (List.find (fun t => Nat.eqb (fst t) handle) (pendingTimers s))
      as [[h action]|]; [|auto].
    destruct action; cbn; auto.
  - cbn. auto.
Qed.

(** X21. A notification settles every subscription: in any state the
    provider can reach, notifying a second time, with no change of the
    flags in between, changes nothing and calls no callback again. *)
Theorem notifyFeatureFlagChanged_idempotent (ops : list Operation) :
  notifyFeatureFlagChanged (notifyFeatureFlagChanged (runAll ops)) =
    notifyFeatureFlagChanged (runAll ops) /\
  called (notifyFeatureFlagChanged (notifyFeatureFlagChanged (runAll ops))) =
    called (notifyFeatureFlagChanged (runAll ops)).
Proof.
  assert (distinctObjects (runAll ops)) as [Hnodup _].
  { apply runAll_invariant; [|exact run_distinctObjects].
    split; [constructor|constructor]. }
  apply NoDup_ListNoDup in Hnodup.
  rewrite (notifyFeatureFlagChanged_twice _ Hnodup). auto.
Qed.

(** X22. [syncAuthStatus] forgets every endpoint: once its refresh has
    arrived, with nothing else in between, the cache holds the response
    for the current endpoint and nothing else, so that a flag of any other
    endpoint is asked from the server again. *)
Theorem syncAuthStatus_forgets_other_endpoints
    (endpoint other : string) (data : FlagsResponse) (now later : Z)
    (flagName : FeatureFlag) (s : State) :
  other <> endpoint ->
  let s' := refreshFeatureFlagsResume endpoint data now (syncAuthStatusStart s) in
  featureFlags s' =
    {[ endpoint := match data with FlagsError _ => [] | FlagsData d => d end ]} /\
  fst (getFromCache flagName other later s') = None /\
  evaluateFeatureFlagStart false other flagName later s' = AwaitingRemote other.
Proof.
  intros Hother. cbv zeta.
  destruct (refreshFeatureFlagsResume_fields endpoint data now (syncAuthStatusStart s))
    as (Hflags & _ & _).
  cbn [syncAuthStatusStart featureFlags withFlags] in Hflags.
  rewrite insert_empty in Hflags.
  assert (fst (getFromCache flagName other later
                 (refreshFeatureFlagsResume endpoint data now (syncAuthStatusStart s))) =
          None) as Hmiss.
  { unfold getFromCache. cbn [fst]. rewrite Hflags.
    rewrite lookup_singleton_ne by congruence. reflexivity. }
  split; [exact Hflags|]. split; [exact Hmiss|].
  unfold evaluateFeatureFlagStart. now rewrite Hmiss.
Qed.

Lemma syncAuthStatus_forgets_other_endpoints_witness :
  let s' := refreshFeatureFlagsResume "https://other.example" (FlagsData []) 10
              (syncAuthStatusStart SampleFlags.cached) in
  SampleFlags.endpoint <> "https://other.example" /\
  is_Some (featureFlags SampleFlags.cached !! SampleFlags.endpoint) /\
  evaluateFeatureFlagStart false SampleFlags.endpoint TestFlagDoNotUse 20 s' =
    AwaitingRemote SampleFlags.endpoint.
Proof.
  intros s'.
  assert (SampleFlags.endpoint <> "https://other.example") as Hother by discriminate.
  split; [exact Hother|]. split; [vm_compute; eauto|].
  exact (proj2 (proj2 (syncAuthStatus_forgets_other_endpoints "https://other.example"
                         SampleFlags.endpoint (FlagsData []) 10 20 TestFlagDoNotUse
                         SampleFlags.cached Hother))).
Defined.

End FlagsMore.

(** ** The ignore helper: further properties *)

Module IgnoreMore.
Import JS Paths IgnoreHelper.

Lemma ignoresSet_ignoresSet (key : string) (first second : GitIgnore.Ignore)
    (m : list (string * GitIgnore.Ignore)) :
  ignoresSet key second (ignoresSet key first m) = ignoresSet key second m.
Proof.
  induction m as [|[k v] rest IH]; simpl.
  - now rewrite String.eqb_refl.
  - destruct (String.eqb k key) eqn:Hk; simpl; rewrite Hk; [reflexivity|].
    now rewrite IH.
Qed.

Lemma ignoresDelete_ignoresSet (key : string) (rules : GitIgnore.Ignore)
    (m : list (string * GitIgnore.Ignore)) :
  ignoresDelete key (ignoresSet key rules m) = ignoresDelete key m.
Proof.
  unfold ignoresDelete. induction m as [|[k v] rest IH]; simpl.
  - now rewrite String.eqb_refl.
  - destruct (String.eqb k key) eqn:Hk; simpl; rewrite Hk; simpl; [reflexivity|].
    now rewrite IH.
Qed.

Lemma ignoresDelete_absent (key : string) (m : list (string * GitIgnore.Ignore)) :
  ignoresGet key m = None -> ignoresDelete key m = m.
Proof.
  unfold ignoresDelete. induction m as [|[k v] rest IH]; simpl; [reflexivity|].
  destruct (String.eqb k key); [discriminate|]. simpl. intros Hrest. now rewrite IH.
Qed.

Lemma ignoresGet_ignoresSet (key : string) (rules : GitIgnore.Ignore)
    (m : list (string * GitIgnore.Ignore)) :
  ignoresGet key (ignoresSet key rules m) = Some rules.
Proof.
  induction m as [|[k v] rest IH]; simpl.
  - now rewrite String.eqb_refl.
  - destruct (String.eqb k key) eqn:Hk; simpl; now rewrite Hk.
Qed.

Lemma ignoresGet_ignoresSet_other (key other : string) (rules : GitIgnore.Ignore)
    (m : list (string * GitIgnore.Ignore)) :
  other <> key -> ignoresGet other (ignoresSet key rules m) = ignoresGet other m.
Proof.
  intros Hother. induction m as [|[k v] rest IH]; simpl.
  - apply String.eqb_neq in Hother. rewrite String.eqb_sym in Hother. now rewrite Hother.
  - destruct (String.eqb k key) eqn:Hk; simpl.
    + apply String.eqb_eq in Hk. subst k.
      assert (String.eqb key other = false) as ->; [|reflexivity].
      apply String.eqb_neq. congruence.
    + now rewrite IH.
Qed.

(** An ignore file goes through exactly when its URI passes the check. *)
Lemma addIgnoreFile_resolves (workspaceRoot : URI) (rules : GitIgnore.Ignore)
    (ignoreFile : IgnoreFileContent) :
  (exists rules', addIgnoreFile workspaceRoot rules ignoreFile = Resolved rules') <->
  startsWith (path (ignoreUri ignoreFile)) "/" &&
  endsWith (path (ignoreUri ignoreFile)) CODY_IGNORE_URI_PATH = true.
Proof.
  unfold addIgnoreFile, ensureValidCodyIgnoreFile, ensureAbsolute, andThen.
  destruct (startsWith (path (ignoreUri ignoreFile)) "/"); cbn [negb andb].
  - destruct (endsWith (path (ignoreUri ignoreFile)) CODY_IGNORE_URI_PATH); cbn [negb].
    + split; [reflexivity|eauto].
    + split; [intros [rules' H]|]; discriminate.
  - split; [intros [rules' H]|]; discriminate.
Qed.

Lemma addIgnoreFiles_resolves (workspaceRoot : URI) (ignoreFiles : list IgnoreFileContent) :
  forall rules : GitIgnore.Ignore,
    (exists rules', addIgnoreFiles workspaceRoot rules ignoreFiles = Resolved rules') <->
    forallb (fun ignoreFile =>
               startsWith (path (ignoreUri ignoreFile)) "/" &&
               endsWith (path (ignoreUri ignoreFile)) CODY_IGNORE_URI_PATH)
            ignoreFiles = true.
Proof.
  induction ignoreFiles as [|ignoreFile rest IH]; intros rules; cbn [addIgnoreFiles forallb].
  - split; [reflexivity|eauto].
  - rewrite andb_true_iff, <- (addIgnoreFile_resolves workspaceRoot rules ignoreFile).
    unfold andThen.
    destruct (addIgnoreFile workspaceRoot rules ignoreFile) as [rules1|reason].
    + rewrite (IH rules1). split; [intros H; split; [eauto|exact H]|tauto].
    + split; [intros [rules' H]; discriminate|intros [[rules' H] _]; discriminate].
Qed.

(** X23. [setIgnoreFiles] registers all of the ignore files or none: it
    goes through exactly when the workspace root is absolute and every
    ignore file has an absolute path that ends with [.cody/ignore]; one
    file that fails the check, wherever it stands in the list, makes the
    call throw before anything is stored. *)
Theorem setIgnoreFiles_all_or_nothing
    (workspaceRoot : URI) (ignoreFiles : list IgnoreFileContent) (h : Helper) :
  (exists h', setIgnoreFiles workspaceRoot ignoreFiles h = Resolved h') <->
  startsWith (path workspaceRoot) "/" = true /\
  forallb (fun ignoreFile =>
             startsWith (path (ignoreUri ignoreFile)) "/" &&
             endsWith (path (ignoreUri ignoreFile)) CODY_IGNORE_URI_PATH)
          ignoreFiles = true.
Proof.
  rewrite <- (addIgnoreFiles_resolves workspaceRoot ignoreFiles getDefaultIgnores).
  unfold setIgnoreFiles, ensureAbsolute, andThen.
  destruct (startsWith (path workspaceRoot) "/"); cbn [negb].
  - destruct (addIgnoreFiles workspaceRoot getDefaultIgnores ignoreFiles) as [rules|reason].
    + split; eauto.
    + split; [intros [h' H]; discriminate|intros [_ [rules' H]]; discriminate].
  - split; [intros [h' H]; discriminate|intros [H _]; discriminate].
Qed.

(** X24. [setIgnoreFiles] replaces, it does not add: a second call for
    the same root leaves the helper as if the first had not been made. *)
Theorem setIgnoreFiles_replaces
    (workspaceRoot : URI) (first second : list IgnoreFileContent) (h h1 : Helper) :
  setIgnoreFiles workspaceRoot first h = Resolved h1 ->
  setIgnoreFiles workspaceRoot second h1 = setIgnoreFiles workspaceRoot second h.
Proof.
  unfold setIgnoreFiles, andThen.
  destruct (ensureAbsolute "workspaceRoot" workspaceRoot); [|discriminate].
  destruct (addIgnoreFiles workspaceRoot getDefaultIgnores first) as [rules1|];
    [|discriminate].
  intros [= <-]. cbn [workspaceIgnores isActive].
  destruct (addIgnoreFiles workspaceRoot getDefaultIgnores second) as [rules2|];
    [|reflexivity].
  now rewrite ignoresSet_ignoresSet.
Qed.

Lemma setIgnoreFiles_replaces_witness :
  exists h1 : Helper,
    setIgnoreFiles SampleIgnore.workspaceRoot [SampleIgnore.rootIgnoreFile]
                   (setActiveState true create) = Resolved h1 /\
    setIgnoreFiles SampleIgnore.workspaceRoot [SampleIgnore.nestedIgnoreFile] h1 =
      SampleIgnore.nestedHelper.
Proof.
  eexists. split; [vm_compute; reflexivity|].
  apply (setIgnoreFiles_replaces SampleIgnore.workspaceRoot [SampleIgnore.rootIgnoreFile]
           [SampleIgnore.nestedIgnoreFile] (setActiveState true create)).
  vm_compute. reflexivity.
Defined.

(** X25. [clearIgnoreFiles] undoes [setIgnoreFiles]: clearing a root
    after setting it leaves the helper as clearing alone does, and as it
    was before when the root was not registered; the rules of the other
    roots are never touched by either. *)
Theorem clearIgnoreFiles_undoes_setIgnoreFiles
    (workspaceRoot : URI) (ignoreFiles : list IgnoreFileContent) (h h' : Helper) :
  setIgnoreFiles workspaceRoot ignoreFiles h = Resolved h' ->
  clearIgnoreFiles workspaceRoot h' = clearIgnoreFiles workspaceRoot h /\
  (ignoresGet (uriToString workspaceRoot) (workspaceIgnores h) = None ->
   clearIgnoreFiles workspaceRoot h' = h) /\
  (forall other : string,
     other <> uriToString workspaceRoot ->
     ignoresGet other (workspaceIgnores h') = ignoresGet other (workspaceIgnores h)).
Proof.
  unfold setIgnoreFiles, andThen.
  destruct (ensureAbsolute "workspaceRoot" workspaceRoot); [|discriminate].
  destruct (addIgnoreFiles workspaceRoot getDefaultIgnores ignoreFiles) as [rules|];
    [|discriminate].
  intros [= <-]. unfold clearIgnoreFiles. cbn [workspaceIgnores isActive].
  rewrite ignoresDelete_ignoresSet. split; [reflexivity|]. split.
  - intros Habsent. rewrite ignoresDelete_absent by exact Habsent. now destruct h.
  - intros other Hother. now apply ignoresGet_ignoresSet_other.
Qed.

Lemma clearIgnoreFiles_undoes_setIgnoreFiles_witness :
  exists h' : Helper,
    SampleIgnore.helper = Resolved h' /\
    clearIgnoreFiles SampleIgnore.workspaceRoot h' = setActiveState true create.
Proof.
  eexists. split; [vm_compute; reflexivity|].
  refine (proj1 (proj2 (clearIgnoreFiles_undoes_setIgnoreFiles SampleIgnore.workspaceRoot
                          [SampleIgnore.rootIgnoreFile] (setActiveState true create) _ _))
                _); vm_compute; reflexivity.
Defined.

Local Abbreviation byLength :=
  (fun a b : string => Z.of_nat (String.length a) - Z.of_nat (String.length b)).

(** What the sort puts first is one of the shortest. *)
Lemma sortBy_length_head (seen : list string) :
  forall xs acc : list string,
    match acc with
    | [] => seen = []
    | first :: _ =>
        In first seen /\
        forall x, In x seen -> (String.length first <= String.length x)%nat
    end ->
    match fold_left (fun sorted x => insertBy byLength x sorted) xs acc with
    | [] => seen ++ xs = []
    | first :: _ =>
        In first (seen ++ xs) /\
        forall x, In x (seen ++ xs) -> (String.length first <= String.length x)%nat
    end.
Proof.
  intros xs. revert seen.
  induction xs as [|x rest IH]; intros seen acc Hacc; cbn [fold_left].
  - rewrite app_nil_r. exact Hacc.
  - replace (seen ++ x :: rest) with ((seen ++ [x]) ++ rest)
      by (rewrite <- app_assoc; reflexivity).
    apply IH. destruct acc as [|y acc']; cbn [insertBy].
    + subst seen. split; [now left|]. intros x0 [<-|[]]. lia.
    + destruct Hacc as [Hin Hmin].
      destruct (Z.of_nat (String.length y) - Z.of_nat (String.length x) <=? 0) eqn:Hle.
      * split; [apply in_or_app; now left|].
        intros x0 Hx0. apply in_app_or in Hx0. destruct Hx0 as [Hx0|[<-|[]]].
        -- now apply Hmin.
        -- apply Z.leb_le in Hle. lia.
      * split; [apply in_or_app; right; now left|].
        intros x0 Hx0. apply in_app_or in Hx0. destruct Hx0 as [Hx0|[<-|[]]].
        -- apply Z.leb_gt in Hle. specialize (Hmin x0 Hx0). lia.
        -- lia.
Qed.

(** X26. The root that [findWorkspaceRoot] selects is a registered root
    that holds the file, and no registered root that holds the file has a
    shorter text: of nested roots the outermost one is taken. When some
    registered root holds the file, one is selected. *)
Theorem findWorkspaceRoot_shortest (file : URI) (h : Helper) :
  (forall root : URI,
     findWorkspaceRoot file h = Some root ->
     exists key : string,
       root = uriParse key /\
       In key (List.map fst (workspaceIgnores h)) /\
       uriHasPrefix file (uriParse key) = true /\
       forall other : string,
         In other (List.map fst (workspaceIgnores h)) ->
         uriHasPrefix file (uriParse other) = true ->
         (String.length key <= String.length other)%nat) /\
  (forall key : string,
     In key (List.map fst (workspaceIgnores h)) ->
     uriHasPrefix file (uriParse key) = true ->
     ~ In EmptyString (List.map fst (workspaceIgnores h)) ->
     is_Some (findWorkspaceRoot file h)).
Proof.
  unfold findWorkspaceRoot.
  set (candidates := List.filter (fun workspaceRoot => uriHasPrefix file (uriParse workspaceRoot))
                                 (List.map fst (workspaceIgnores h))).
  pose proof (sortBy_length_head [] candidates [] eq_refl) as Hhead.
  fold (sortBy byLength candidates) in Hhead. cbn [app] in Hhead.
  destruct (sortBy byLength candidates) as [|selected rest].
  - split; [discriminate|].
    intros key Hkey Hprefix _.
    assert (In key candidates) as Hin by (apply List.filter_In; auto).
    rewrite Hhead in Hin. destruct Hin.
  - destruct Hhead as [Hin Hmin]. apply List.filter_In in Hin. destruct Hin as [Hin Hprefix].
    split.
    + intros root Hroot. exists selected.
      destruct (String.eqb selected EmptyString); [discriminate|].
      injection Hroot as <-. repeat split; auto.
      intros other Hother Hholds. apply Hmin. apply List.filter_In. auto.
    + intros key _ _ Hnonempty.
      destruct (String.eqb selected EmptyString) eqn:Hempty; [|eauto].
      apply String.eqb_eq in Hempty. subst selected. contradiction.
Qed.

Lemma findWorkspaceRoot_shortest_witness :
  findWorkspaceRoot (fileURI "/w/pkg/src/a.ts") SampleRoots.nestedRoots =
    Some SampleRoots.outerRoot /\
  SampleRoots.registeredRoots = Resolved SampleRoots.nestedRoots /\
  exists key : string,
    SampleRoots.outerRoot = uriParse key /\
    forall other : string,
      In other (List.map fst (workspaceIgnores SampleRoots.nestedRoots)) ->
      uriHasPrefix (fileURI "/w/pkg/src/a.ts") (uriParse other) = true ->
      (String.length key <= String.length other)%nat.
Proof.
  assert (findWorkspaceRoot (fileURI "/w/pkg/src/a.ts") SampleRoots.nestedRoots =
            Some SampleRoots.outerRoot) as Hfound by (vm_compute; reflexivity).
  split; [exact Hfound|]. split; [vm_compute; reflexivity|].
  destruct (proj1 (findWorkspaceRoot_shortest (fileURI "/w/pkg/src/a.ts") SampleRoots.nestedRoots)
                  SampleRoots.outerRoot Hfound) as (key & Hkey & _ & _ & Hmin).
  exists key. split; [exact Hkey|exact Hmin].
Defined.

End IgnoreMore.
